(** * flavio.statistics.probability: probability distributions and their
      convolution

    A shallow embedding of [flavio/statistics/probability.py] and the
    properties its specification states about it.

    Conventions of the embedding.
    - A Python or NumPy float is a real number, or one of the special values
      [+inf], [-inf], [nan] where the code can produce them ([float64]).
      Arithmetic on finite values is exact: no rounding, no overflow, no
      signed zero.
    - The numbers handed to a constructor are finite.  A central value and
      the standard deviation of a normal distribution keep their class,
      Python [int] or [float]: the code tests
      [isinstance(central_value, float)], and NumPy squares and adds
      standard deviations that are ints as integers of 64 bits, with
      wrap-around.  What a constructor computes itself need not be finite:
      the standard deviation and the support of a half normal distribution
      are floats of NumPy.
    - A NumPy array is a [seq]; a value that may be a scalar or an array is
      an [ndarray].
    - A call that may raise returns a [result]; the process-wide random
      source of [np.random] is threaded explicitly.
    - An object is its attribute record; in a list handed to
      [convolve_distributions] it comes with its identity ([id(self)], on
      which [__eq__] and [__hash__] rest), and the objects of a run are kept
      in a [store], where the identity is the place.
    - Library routines (NumPy, SciPy, math) are given by their mathematical
      definition in the modules [np], [math] and [scipy], with the values
      the libraries return at the edges ([nan], infinities, one-point
      grids).

    The module [bll] embeds [flavio/physics/bdecays/bll.py], the branching
    ratios of the leptonic decays of a neutral B meson, in the same way. *)

Set Warnings "-notation-overridden,-ambiguous-paths".
Set Warnings "-redundant-canonical-projection,-notation-incompatible-prefix".
Set Warnings "-deprecated,-overwriting-delimiting-key".
From HB Require Import structures.
From Stdlib Require Import Reals Lra ZArith.
From Stdlib Require Import ClassicalEpsilon FunctionalExtensionality.
From Stdlib Require String.
From mathcomp Require Import boot perm ssralg matrix mxalgebra.

Set Implicit Arguments.
Unset Strict Implicit.
Unset Printing Implicit Defensive.

Delimit Scope R_scope with Re.
Local Open Scope R_scope.

(** ** The real numbers as a MathComp field

    Matrices, determinants and inverses come from MathComp, which asks for
    the field structure of [R]; equality and choice on [R] are classical. *)

Definition Reqb (x y : R) : bool := if Req_dec_T x y then true else false.

Lemma ReqbP : Equality.axiom Reqb.
Proof. by move=> x y; rewrite /Reqb; case: Req_dec_T => h; constructor. Qed.

HB.instance Definition _ := hasDecEq.Build R ReqbP.

Definition Rfind (P : pred R) (n : nat) : option R :=
  match excluded_middle_informative (exists x, P x) with
  | left ex => Some (proj1_sig (constructive_indefinite_description _ ex))
  | right _ => None
  end.

Lemma Rfind_correct (P : pred R) n x : Rfind P n = Some x -> P x.
Proof.
rewrite /Rfind; case: excluded_middle_informative => // ex [<-].
exact: (proj2_sig (constructive_indefinite_description _ ex)).
Qed.

Lemma Rfind_complete (P : pred R) : (exists x, P x) -> exists n, Rfind P n.
Proof.
by move=> ex; exists 0%N; rewrite /Rfind; case: excluded_middle_informative.
Qed.

Lemma Rfind_ext (P Q : pred R) : P =1 Q -> Rfind P =1 Rfind Q.
Proof. by move=> /functional_extensionality ->. Qed.

HB.instance Definition _ :=
  hasChoice.Build R Rfind_correct Rfind_complete Rfind_ext.

Lemma R_addA : associative Rplus.
Proof. by move=> x y z; rewrite Rplus_assoc. Qed.

Lemma R_addNr : left_inverse 0 Ropp Rplus.
Proof. by move=> x; rewrite Rplus_comm Rplus_opp_r. Qed.

HB.instance Definition _ :=
  GRing.isZmodule.Build R R_addA Rplus_comm Rplus_0_l R_addNr.

Lemma R_mulA : associative Rmult.
Proof. by move=> x y z; rewrite Rmult_assoc. Qed.

Lemma R_mulDl : left_distributive Rmult Rplus.
Proof. by move=> x y z; rewrite Rmult_plus_distr_r. Qed.

Lemma R_1neq0 : 1 != 0 :> R.
Proof. by apply/eqP; exact: R1_neq_R0. Qed.

HB.instance Definition _ :=
  GRing.Zmodule_isComNzRing.Build R R_mulA Rmult_comm Rmult_1_l R_mulDl R_1neq0.

Lemma R_mulVf (x : R) : x != 0 -> / x * x = 1.
Proof. by move=> /eqP x0; rewrite Rinv_l. Qed.

HB.instance Definition _ := GRing.ComNzRing_isField.Build R R_mulVf Rinv_0.

(** Boolean comparisons of reals, as the tests of the code. *)

Definition Rltb (x y : R) : bool := if Rlt_dec x y then true else false.
Definition Rleb (x y : R) : bool := if Rle_dec x y then true else false.

Lemma RltbP (x y : R) : reflect (x < y) (Rltb x y).
Proof. by rewrite /Rltb; case: Rlt_dec => h; constructor. Qed.

Lemma RlebP (x y : R) : reflect (x <= y) (Rleb x y).
Proof. by rewrite /Rleb; case: Rle_dec => h; constructor. Qed.

(** ** Exceptions *)

Inductive exception : Type :=
  | ValueError
  | IndexError
  | AssertionError
  | ZeroDivisionError
  | TypeError
  | AttributeError.

Inductive result (A : Type) : Type :=
  | Ok (a : A)
  | Raise (e : exception).

Arguments Ok {A} a.
Arguments Raise {A} e.

Definition bind {A B : Type} (r : result A) (f : A -> result B) : result B :=
  match r with
  | Ok a => f a
  | Raise e => Raise e
  end.

Notation "x <-- r ;; k" := (bind r (fun x => k))
  (at level 61, r at next level, right associativity).

Notation "'assert' b 'else' e ;; k" := (if b then k else Raise e)
  (at level 61, b at next level, e at next level, right associativity).

(** [[f(a) for a in s]] where [f] may raise. *)
Fixpoint mapM {A B : Type} (f : A -> result B) (s : seq A) : result (seq B) :=
  match s with
  | [::] => Ok [::]
  | a :: s' => b <-- f a ;; bs <-- mapM f s' ;; Ok (b :: bs)
  end.

(** [s[i]] for [0 <= i], and [s[-1]]. *)
Definition getitem {A : Type} (s : seq A) (i : nat) : result A :=
  match drop i s with
  | a :: _ => Ok a
  | [::] => Raise IndexError
  end.

Definition getlast {A : Type} (s : seq A) : result A :=
  match s with
  | a :: s' => Ok (last a s')
  | [::] => Raise IndexError
  end.

(** ** Numbers *)

(** A Python number handed to a constructor as central value: the code tests
    [isinstance(central_value, float)], so the embedding keeps its class. *)
Inductive number : Type :=
  | PyInt (n : Z)
  | PyFloat (x : R).

Definition real_of (c : number) : R :=
  match c with
  | PyInt n => IZR n
  | PyFloat x => x
  end.

Coercion real_of : number >-> R.

(** [isinstance(c, float)] *)
Definition isinstance_float (c : number) : bool :=
  match c with
  | PyFloat _ => true
  | PyInt _ => false
  end.

(** [a == b] on Python numbers compares their values. *)
Definition py_eq (a b : number) : bool := (a : R) == (b : R).

(** Two numbers are the same when their classes and their values are. *)
Definition number_eqb (a b : number) : bool :=
  match a, b with
  | PyInt m, PyInt n => Z.eqb m n
  | PyFloat x, PyFloat y => x == y
  | _, _ => false
  end.

Lemma number_eqP : Equality.axiom number_eqb.
Proof.
case=> [m|x] [n|y] /=; try by constructor.
  by case: Z.eqb_spec => [->|ne]; constructor=> // -[].
by case: eqP => [->|ne]; constructor=> // -[].
Qed.

HB.instance Definition _ := hasDecEq.Build number number_eqP.

(** The integers of 64 bits of NumPy: [int64] holds the integers from
    [-2 ** 63] to [2 ** 63 - 1], [uint64] those from [0] to [2 ** 64 - 1].
    Their arithmetic wraps around modulo [2 ** 64], without an error. *)
Definition wrap_int64 (n : Z) : Z := ((n + 2 ^ 63) mod 2 ^ 64 - 2 ^ 63)%Z.

Definition wrap_uint64 (n : Z) : Z := (n mod 2 ^ 64)%Z.

(** A Python [int] that fits in [int64], and one beyond it that fits in
    [uint64]. *)
Definition fits_int64 (c : number) : bool :=
  match c with
  | PyInt n => (- 2 ^ 63 <=? n)%Z && (n <? 2 ^ 63)%Z
  | PyFloat _ => false
  end.

Definition fits_uint64 (c : number) : bool :=
  match c with
  | PyInt n => (2 ^ 63 <=? n)%Z && (n <? 2 ^ 64)%Z
  | PyFloat _ => false
  end.

Definition int_of (c : number) : Z :=
  match c with
  | PyInt n => n
  | PyFloat _ => 0%Z
  end.

(** A float of NumPy: finite, infinite or not a number. *)
Inductive float64 : Type :=
  | Fin (x : R)
  | Inf (positive : bool)
  | NaN.

Coercion Fin : R >-> float64.

Notation PosInf := (Inf true).
Notation NegInf := (Inf false).

Definition fopp (a : float64) : float64 :=
  match a with
  | Fin x => Fin (- x)
  | Inf s => Inf (~~ s)
  | NaN => NaN
  end.

Definition fadd (a b : float64) : float64 :=
  match a, b with
  | NaN, _ | _, NaN => NaN
  | Fin x, Fin y => Fin (x + y)
  | Inf s, Inf t => if s == t then Inf s else NaN
  | Inf s, Fin _ | Fin _, Inf s => Inf s
  end.

Definition fsub (a b : float64) : float64 := fadd a (fopp b).

Definition fmul (a b : float64) : float64 :=
  match a, b with
  | NaN, _ | _, NaN => NaN
  | Fin x, Fin y => Fin (x * y)
  | Inf s, Inf t => Inf (s == t)
  | Inf s, Fin x | Fin x, Inf s =>
      if x == 0 then NaN else Inf (s == Rltb 0 x)
  end.

Definition fdiv (a b : float64) : float64 :=
  match a, b with
  | NaN, _ | _, NaN => NaN
  | Fin x, Fin y =>
      if y == 0 then (if x == 0 then NaN else Inf (Rltb 0 x)) else Fin (x / y)
  | Fin _, Inf _ => Fin 0
  | Inf s, Fin y => Inf (s == Rleb 0 y)
  | Inf _, Inf _ => NaN
  end.

(** [abs(a)] *)
Definition fabs (a : float64) : float64 :=
  match a with
  | Fin x => Fin (Rabs x)
  | Inf _ => Inf true
  | NaN => NaN
  end.

(** [a < b], [a <= b] and [a == b]: false as soon as one side is [nan]. *)
Definition flt (a b : float64) : bool :=
  match a, b with
  | Fin x, Fin y => Rltb x y
  | Fin _, Inf t => t
  | Inf s, Fin _ => ~~ s
  | Inf s, Inf t => ~~ s && t
  | _, _ => false
  end.

Definition feq (a b : float64) : bool :=
  match a, b with
  | Fin x, Fin y => x == y
  | Inf s, Inf t => s == t
  | _, _ => false
  end.

Definition fle (a b : float64) : bool := flt a b || feq a b.

(** The order in which NumPy sorts floats and takes their maximum: [nan]
    counts as the greatest value. *)
Definition fle_nan_last (a b : float64) : bool :=
  match a, b with
  | _, NaN => true
  | NaN, _ => false
  | _, _ => fle a b
  end.

(** The builtin [sum] of an array of floats, from the left. *)
Definition fsum (s : seq float64) : float64 := foldl fadd (Fin 0) s.

(** ** Scalars and arrays *)

Inductive ndarray (A : Type) : Type :=
  | Scalar (a : A)
  | Array (s : seq A).

Arguments Scalar {A} a.
Arguments Array {A} s.

Definition nd_map {A B : Type} (f : A -> B) (x : ndarray A) : ndarray B :=
  match x with
  | Scalar a => Scalar (f a)
  | Array s => Array [seq f a | a <- s]
  end.

Definition nd_mapM {A B : Type} (f : A -> result B) (x : ndarray A) :
  result (ndarray B) :=
  match x with
  | Scalar a => b <-- f a ;; Ok (Scalar b)
  | Array s => bs <-- mapM f s ;; Ok (Array bs)
  end.

(** The shape of a value: [None] for a scalar, [Some n] for an array of
    length [n]. *)
Definition shape {A : Type} (x : ndarray A) : option nat :=
  match x with
  | Scalar _ => None
  | Array s => Some (size s)
  end.

(** ** The module [math] *)

Module math.

(** [math.log(x)]: a [ValueError] ("math domain error") unless [0 < x]. *)
Definition log (a : float64) : result float64 :=
  match a with
  | Fin x => if Rltb 0 x then Ok (Fin (ln x)) else Raise ValueError
  | PosInf => Ok PosInf
  | NegInf => Raise ValueError
  | NaN => Ok NaN
  end.

(** [math.sqrt(x)]: a [ValueError] for a negative [x]. *)
Definition sqrt (x : R) : result R :=
  if Rltb x 0 then Raise ValueError else Ok (R_sqrt.sqrt x).

End math.

(** ** The module [numpy] *)

Module np.

Definition sign (x : R) : R :=
  if Rltb x 0 then -1 else if x == 0 then 0 else 1.

(** [np.sign] of a float that need not be finite. *)
Definition sign64 (a : float64) : float64 :=
  match a with
  | Fin x => Fin (sign x)
  | Inf s => Fin (if s then 1 else -1)
  | NaN => NaN
  end.

(** [np.minimum] and [np.maximum]: [nan] as soon as one side is. *)
Definition minimum (a b : float64) : float64 :=
  match a, b with
  | NaN, _ | _, NaN => NaN
  | _, _ => if flt b a then b else a
  end.

Definition maximum (a b : float64) : float64 :=
  match a, b with
  | NaN, _ | _, NaN => NaN
  | _, _ => if flt a b then b else a
  end.

(** [np.log]: [-inf] at zero and [nan] below, with a warning and no error. *)
Definition log (a : float64) : float64 :=
  match a with
  | Fin x => if Rltb 0 x then Fin (ln x) else if x == 0 then NegInf else NaN
  | PosInf => PosInf
  | NegInf => NaN
  | NaN => NaN
  end.

Definition exp (a : float64) : float64 :=
  match a with
  | Fin x => Fin (Rtrigo_def.exp x)
  | PosInf => PosInf
  | NegInf => Fin 0
  | NaN => NaN
  end.

(** [np.sum] of an array of floats. *)
Definition sum (s : seq R) : R := foldr Rplus 0 s.

(** An array of numbers with the type of its entries.  An array of floats
    stands for an array of Python objects as well, whose arithmetic is
    that of Python and exact. *)
Inductive numeric_array : Type :=
  | Int64Array (s : seq Z)
  | UInt64Array (s : seq Z)
  | Float64Array (s : seq R).

(** [np.array(s)] for a list [s] of Python numbers, where the default
    integer of NumPy has 64 bits.  The entries get one type: [int64] when
    each of them is an [int] that fits, [uint64] when each of them is an
    [int] beyond [int64] that fits, and [float64] otherwise: when a [float]
    is among them, or when an [int] of the one kind stands next to one of
    the other.  (With an [int] outside both ranges the entries stay Python
    objects.)  The empty array has the type [float64]. *)
Definition array (s : seq number) : numeric_array :=
  if nilp s then Float64Array [::]
  else if all fits_int64 s then Int64Array [seq int_of c | c <- s]
  else if all fits_uint64 s then UInt64Array [seq int_of c | c <- s]
  else Float64Array [seq real_of c | c <- s].

(** [a ** 2], entry by entry and within the type of the entries. *)
Definition square (a : numeric_array) : numeric_array :=
  match a with
  | Int64Array s => Int64Array [seq wrap_int64 (v * v) | v <- s]
  | UInt64Array s => UInt64Array [seq wrap_uint64 (v * v) | v <- s]
  | Float64Array s => Float64Array [seq v ^ 2 | v <- s]
  end.

(** [np.sum(a)], within the type of the entries. *)
Definition sum_of (a : numeric_array) : number :=
  match a with
  | Int64Array s => PyInt (wrap_int64 (foldr Z.add 0%Z s))
  | UInt64Array s => PyInt (wrap_uint64 (foldr Z.add 0%Z s))
  | Float64Array s => PyFloat (sum s)
  end.

Fixpoint cumsum_from (acc : float64) (s : seq float64) : seq float64 :=
  match s with
  | [::] => [::]
  | a :: s' => fadd acc a :: cumsum_from (fadd acc a) s'
  end.

Definition cumsum (s : seq float64) : seq float64 := cumsum_from (Fin 0) s.

(** [np.argmax]: the first index of a greatest entry; a [ValueError] on an
    empty array. *)
Fixpoint argmax_from (best : float64) (ibest i : nat) (s : seq float64) : nat :=
  match s with
  | [::] => ibest
  | a :: s' =>
      if fle_nan_last a best then argmax_from best ibest i.+1 s'
      else argmax_from a i i.+1 s'
  end.

Definition argmax (s : seq float64) : result nat :=
  match s with
  | [::] => Raise ValueError
  | a :: s' => Ok (argmax_from a 0 1 s')
  end.

(** [np.linspace(start, stop, num)]: [num] evenly spaced points, both ends
    included. *)
Definition linspace (start stop : R) (num : nat) : seq R :=
  match num with
  | 0%N => [::]
  | 1%N => [:: start]
  | _ => [seq start + INR i * ((stop - start) / INR num.-1) | i <- iota 0 num]
  end.

(** [np.vectorize(f)(x)]: [f] at each entry; NumPy refuses an array of size
    zero when no output type was declared. *)
Definition vectorize {A B : Type} (f : A -> result B) (x : ndarray A) :
  result (ndarray B) :=
  match x with
  | Array [::] => Raise ValueError
  | _ => nd_mapM f x
  end.

(** The truth value of an array of booleans, as [if] takes it: that of its
    entry when there is one, and a [ValueError] otherwise ("the truth value
    of an array with more than one element is ambiguous", "the truth value
    of an empty array is ambiguous"). *)
Definition truth (b : ndarray bool) : result bool :=
  match b with
  | Scalar v => Ok v
  | Array [:: v] => Ok v
  | Array _ => Raise ValueError
  end.

(** Arrays with a shape: a vector of length [n] is a row, [x / y] divides
    entry by entry.  (On reals a quotient by zero is zero, where NumPy
    gives [inf] or [nan]; the properties below divide by positive numbers
    only.) *)
Definition diag {n : nat} (A : 'M[R]_n) : 'rV[R]_n := \row_i A i i.

Definition sqrt {m n : nat} (A : 'M[R]_(m, n)) : 'M[R]_(m, n) :=
  map_mx R_sqrt.sqrt A.

Definition outer {n : nat} (a b : 'rV[R]_n) : 'M[R]_n :=
  \matrix_(i, j) (a ord0 i * b ord0 j).

Definition divide {m n : nat} (A B : 'M[R]_(m, n)) : 'M[R]_(m, n) :=
  \matrix_(i, j) (A i j / B i j).

(** [np.linalg.det] *)
Definition linalg_det {n : nat} (A : 'M[R]_n) : R := (\det A)%R.

(** [np.isnan(a)] *)
Definition isnan (a : float64) : bool := if a is NaN then true else false.

(** [np.interp(x, xp, fp)] at one point [x], for abscissae [xp] in
    increasing order, which is what a linear [interp1d] evaluates.  With one
    abscissa the value is its ordinate.  Otherwise [j] is the index of the
    last abscissa that is not above [x]; at the last abscissa, and at an
    abscissa met exactly, the value is the ordinate; between two abscissae
    it is interpolated from the left neighbour, from the right neighbour
    when that gives [nan], and is the common ordinate when both give [nan]
    and the two ordinates agree. *)
Definition interp (x : float64) (xp fp : seq float64) : float64 :=
  if size xp == 1%N then head NaN fp
  else if isnan x then x
  else if flt (last NaN xp) x then last NaN fp
  else if flt x (head NaN xp) then head NaN fp
  else
    let j := find (fun a => ~~ fle a x) (behead xp) in
    if j == (size xp).-1 then nth NaN fp j
    else if feq (nth NaN xp j) x then nth NaN fp j
    else
      let slope :=
        fdiv (fsub (nth NaN fp j.+1) (nth NaN fp j))
             (fsub (nth NaN xp j.+1) (nth NaN xp j)) in
      let left := fadd (fmul slope (fsub x (nth NaN xp j))) (nth NaN fp j) in
      if isnan left then
        let right :=
          fadd (fmul slope (fsub x (nth NaN xp j.+1))) (nth NaN fp j.+1) in
        if isnan right && feq (nth NaN fp j) (nth NaN fp j.+1) then
          nth NaN fp j
        else right
      else left.

End np.

(** ** The module [scipy] *)

Module scipy.

(** [scipy.stats.norm.logpdf(x, loc, scale)] and [scipy.stats.norm.pdf]:
    [nan] unless [0 < scale]. *)
Definition norm_logpdf (x loc scale : R) : float64 :=
  if Rltb 0 scale then
    Fin (- ((x - loc) / scale) ^ 2 / 2 - ln (sqrt (2 * PI)) - ln scale)
  else NaN.

(** [logpdf] with a scale that need not be finite: the deviation over an
    infinite scale is zero, and the logarithm of the scale infinite. *)
Definition norm_logpdf64 (x loc : R) (scale : float64) : float64 :=
  match scale with
  | Fin s => norm_logpdf x loc s
  | PosInf => NegInf
  | NegInf => NaN
  | NaN => NaN
  end.

(** [scipy.stats.norm.ppf(q)], the quantile function of the standard
    normal law: [ppf q] inside the unit interval, where it has no closed
    form and is left open; infinite at its ends, [nan] outside. *)
Definition norm_ppf (ppf : R -> R) (q : R) : float64 :=
  if q == 1 then PosInf
  else if q == 0 then NegInf
  else if Rltb 0 q && Rltb q 1 then Fin (ppf q)
  else NaN.

Definition norm_pdf (x loc scale : R) : float64 :=
  if Rltb 0 scale then
    Fin (exp (- ((x - loc) / scale) ^ 2 / 2) / sqrt (2 * PI) / scale)
  else NaN.

(** [scipy.interpolate.interp1d(x, y)], linear.  The constructor refuses
    arrays of different lengths and an empty array, and sorts the points by
    abscissa; it does not ask the abscissae to be increasing or distinct,
    and one point is enough.  [bounds_error = false] goes with a
    [fill_value]. *)
Record interp1d : Type := Interp1d {
  interp_x : seq float64;
  interp_y : seq float64;
  bounds_error : bool;
  fill_value : float64
}.

Definition interp1d_init (x y : seq float64) (bounds_error : bool)
    (fill_value : float64) : result interp1d :=
  assert (size x == size y) else ValueError ;;
  assert (0 < size x)%N else ValueError ;;
  let xy := sort (fun p q => fle_nan_last p.1 q.1) (zip x y) in
  Ok (Interp1d (unzip1 xy) (unzip2 xy) bounds_error fill_value).

(** The interpolant at [x_new], before the bounds are looked at. *)
Definition call_linear (f : interp1d) (x_new : float64) : float64 :=
  np.interp x_new (interp_x f) (interp_y f).

(** [f(x_new)]: outside the range of the abscissae, a [ValueError] or the
    fill value. *)
Definition call1 (f : interp1d) (x_new : float64) : result float64 :=
  let below := flt x_new (head NaN (interp_x f)) in
  let above := flt (last NaN (interp_x f)) x_new in
  if below || above then
    if bounds_error f then Raise ValueError else Ok (fill_value f)
  else Ok (call_linear f x_new).

Definition call (f : interp1d) (x_new : ndarray float64) :
  result (ndarray float64) :=
  nd_mapM (call1 f) x_new.

(** [scipy.signal.fftconvolve(a, b, 'same')]: the linear convolution of the
    two sequences, cut to the central [len(a)] entries.  (The transform
    computes the same sums.) *)
Definition convolve_full (a b : seq float64) : seq float64 :=
  [seq fsum [seq fmul (nth (Fin 0) a i) (nth (Fin 0) b (k - i))
            | i <- iota 0 k.+1 & (i < size a)%N && (k - i < size b)%N]
  | k <- iota 0 (size a + size b).-1].

Definition fftconvolve_same (a b : seq float64) : seq float64 :=
  take (size a) (drop ((size b).-1 %/ 2) (convolve_full a b)).

(** [scipy.stats.multivariate_normal.logpdf(x, mean, cov)] for a positive
    definite [cov]: the logarithm of the density of the normal law with this
    mean and covariance. *)
Definition multivariate_normal_logpdf {n : nat} (x mean : 'rV[R]_n)
    (cov : 'M[R]_n) : R :=
  let dev := (x - mean)%R in
  let maha := (dev *m invmx cov *m dev^T)%R ord0 ord0 in
  - (INR n * ln (2 * PI) + ln (\det cov)%R + maha) / 2.

End scipy.

(** ** The random source [np.random]

    One draw of [random_sample] is uniform on [[0, 1)], one draw of
    [standard_normal] is a standard normal deviate; each returns the state of
    the generator after the draw. *)

Class RandomSource (G : Type) : Type := {
  random_sample : G -> R * G;
  standard_normal : G -> R * G
}.

Section Random.

Context {G : Type} {rng : RandomSource G}.

(** [n] draws in a row. *)
Fixpoint draws (draw : G -> R * G) (n : nat) (g : G) : seq R * G :=
  match n with
  | 0%N => ([::], g)
  | n'.+1 =>
      let (v, g1) := draw g in
      let (vs, g2) := draws draw n' g1 in
      (v :: vs, g2)
  end.

(** With [size] absent one draw makes a scalar, else [size] draws make an
    array. *)
Definition sample (draw : G -> R * G) (size : option nat) (g : G) :
  ndarray R * G :=
  match size with
  | None => let (v, g1) := draw g in (Scalar v, g1)
  | Some n => let (vs, g1) := draws draw n g in (Array vs, g1)
  end.

(** [np.random.uniform(low, high, size)] *)
Definition random_uniform (low high : R) (size : option nat) (g : G) :
  ndarray R * G :=
  let (u, g1) := sample random_sample size g in
  (nd_map (fun v => low + (high - low) * v) u, g1).

(** [np.random.normal(loc, scale, size)]: a [ValueError] for a negative
    [scale]. *)
Definition random_normal (loc scale : R) (size : option nat) (g : G) :
  result (ndarray R * G) :=
  assert (~~ Rltb scale 0) else ValueError ;;
  let (z, g1) := sample standard_normal size g in
  Ok (nd_map (fun v => loc + scale * v) z, g1).

(** The same with a scale that need not be finite. *)
Definition random_normal64 (loc : R) (scale : float64) (size : option nat)
    (g : G) : result (ndarray float64 * G) :=
  assert (~~ flt scale (Fin 0)) else ValueError ;;
  let (z, g1) := sample standard_normal size g in
  Ok (nd_map (fun v => fadd (Fin loc) (fmul scale (Fin v))) z, g1).

End Random.

(** ** The classes

    One module per class of the source: the record [t] of the attributes of
    an instance, [__init__], and the methods.  [central_value] and [support]
    are the attributes of the base class [ProbabilityDistribution]. *)

Module UniformDistribution.

Record t : Type := Build {
  central_value : number;
  support : R * R;
  half_range : R;
  range : R * R
}.

Definition __init__ (central_value : number) (half_range : R) : t :=
  let range := (central_value - half_range, central_value + half_range) in
  Build central_value range half_range range.

Definition get_random {G} {rng : RandomSource G} (self : t)
    (size : option nat) (g : G) : result (ndarray float64 * G) :=
  let (v, g1) := random_uniform (range self).1 (range self).2 size g in
  Ok (nd_map Fin v, g1).

Definition _logpdf (self : t) (x : R) : result float64 :=
  if Rltb x (range self).1 || Rleb (range self).2 x then Ok NegInf
  else v <-- math.log (Fin (2 * half_range self)) ;; Ok (fopp v).

Definition logpdf (self : t) (x : ndarray R) : result (ndarray float64) :=
  let _lpvect := np.vectorize (_logpdf self) in
  _lpvect x.

End UniformDistribution.

Module DeltaDistribution.

Record t : Type := Build {
  central_value : number;
  support : R * R
}.

Definition __init__ (central_value : number) : t :=
  Build central_value (central_value : R, central_value : R).

(** [self.central_value * np.ones(size)] *)
Definition get_random {G} {rng : RandomSource G} (self : t)
    (size : option nat) (g : G) : result (ndarray float64 * G) :=
  match size with
  | None => Ok (Scalar (Fin (central_value self)), g)
  | Some n => Ok (Array (nseq n (Fin (central_value self * 1))), g)
  end.

(** [x == self.central_value] compares entry by entry when [x] is an array,
    and [if] then asks for the truth value of the array of booleans. *)
Definition logpdf (self : t) (x : ndarray R) : result (ndarray float64) :=
  b <-- np.truth (nd_map (fun v => v == (central_value self : R)) x) ;;
  if b then Ok (Scalar (Fin 0)) else Ok (Scalar NegInf).

End DeltaDistribution.

Module NormalDistribution.

(** The standard deviation keeps its class as well: [_convolve_gaussians]
    puts the standard deviations in an array of NumPy, whose type follows
    the classes of the entries. *)
Record t : Type := Build {
  central_value : number;
  support : R * R;
  standard_deviation : number
}.

Definition __init__ (central_value standard_deviation : number) : t :=
  Build central_value
    (central_value - 6 * standard_deviation,
     central_value + 6 * standard_deviation)
    standard_deviation.

Definition get_random {G} {rng : RandomSource G} (self : t)
    (size : option nat) (g : G) : result (ndarray float64 * G) :=
  r <-- random_normal (central_value self) (standard_deviation self) size g ;;
  Ok (nd_map Fin r.1, r.2).

Definition logpdf (self : t) (x : ndarray R) : result (ndarray float64) :=
  Ok (nd_map (fun v => scipy.norm_logpdf v (central_value self)
                         (standard_deviation self)) x).

End NormalDistribution.

Module AsymmetricNormalDistribution.

Record t : Type := Build {
  central_value : number;
  support : R * R;
  right_deviation : R;
  left_deviation : R
}.

Definition __init__ (central_value : number)
    (right_deviation left_deviation : R) : result t :=
  let support := (central_value - 6 * left_deviation,
                  central_value + 6 * right_deviation) in
  if Rltb right_deviation 0 || Rltb left_deviation 0 then Raise ValueError
  else Ok (Build central_value support right_deviation left_deviation).

(** The parameter [size] is not used.  [np.random.uniform()] draws from
    [[0, 1)]; the quotient divides Python numbers, with a
    [ZeroDivisionError] when the divisor is zero. *)
Definition get_random {G} {rng : RandomSource G} (self : t)
    (size : option nat) (g : G) : result (ndarray float64 * G) :=
  let (r, g1) := random_sample g in
  assert (right_deviation self + left_deviation self != 0)
    else ZeroDivisionError ;;
  let a :=
    Rabs (left_deviation self / (right_deviation self + left_deviation self)) in
  if Rltb a r then
    x <-- random_normal 0 (right_deviation self) None g1 ;;
    Ok (nd_map (fun v => Fin (central_value self + Rabs v)) x.1, x.2)
  else
    x <-- random_normal 0 (left_deviation self) None g1 ;;
    Ok (nd_map (fun v => Fin (central_value self - Rabs v)) x.1, x.2).

Definition _logpdf (self : t) (x : R) : result float64 :=
  let p_right := scipy.norm_pdf (central_value self) (central_value self)
                   (right_deviation self) in
  let p_left := scipy.norm_pdf (central_value self) (central_value self)
                  (left_deviation self) in
  if Rltb x (central_value self) then
    let r := fdiv (fmul (Fin 2) p_right) (fadd p_left p_right) in
    v <-- math.log r ;;
    Ok (fadd v (scipy.norm_logpdf x (central_value self)
                  (left_deviation self)))
  else
    let r := fdiv (fmul (Fin 2) p_left) (fadd p_left p_right) in
    v <-- math.log r ;;
    Ok (fadd v (scipy.norm_logpdf x (central_value self)
                  (right_deviation self))).

Definition logpdf (self : t) (x : ndarray R) : result (ndarray float64) :=
  let _lpvect := np.vectorize (_logpdf self) in
  _lpvect x.

End AsymmetricNormalDistribution.

(** [sorted((a, b))] *)
Definition sorted2 (ab : float64 * float64) : float64 * float64 :=
  if flt ab.2 ab.1 then (ab.2, ab.1) else ab.

(** The standard deviation of a half normal distribution is a float that
    need not be finite: [GaussianUpperLimit] hands on what the quantile
    function returns. *)
Module HalfNormalDistribution.

Record t : Type := Build {
  central_value : number;
  support : float64 * float64;
  standard_deviation : float64
}.

Definition __init__ (central_value : number) (standard_deviation : float64) :
  t :=
  Build central_value
    (sorted2 (Fin central_value,
              fadd (Fin central_value) (fmul (Fin 6) standard_deviation)))
    standard_deviation.

Definition get_random {G} {rng : RandomSource G} (self : t)
    (size : option nat) (g : G) : result (ndarray float64 * G) :=
  r <-- random_normal64 0 (fabs (standard_deviation self)) size g ;;
  Ok (nd_map (fun v => fadd (Fin (central_value self))
                         (fmul (np.sign64 (standard_deviation self)) (fabs v)))
        r.1,
      r.2).

Definition _logpdf (self : t) (x : R) : result float64 :=
  if flt (fmul (np.sign64 (standard_deviation self))
            (Fin (x - central_value self))) (Fin 0)
  then Ok NegInf
  else
    v <-- math.log (Fin 2) ;;
    Ok (fadd v (scipy.norm_logpdf64 x (central_value self)
                  (fabs (standard_deviation self)))).

Definition logpdf (self : t) (x : ndarray R) : result (ndarray float64) :=
  let _lpvect := np.vectorize (_logpdf self) in
  _lpvect x.

End HalfNormalDistribution.

(** [GaussianUpperLimit] derives from [HalfNormalDistribution]: an instance
    is one of the parent class ([super]) with two attributes more.  [ppf] is
    the quantile function of the standard normal law inside the unit
    interval. *)
Module GaussianUpperLimit.

Record t : Type := Build {
  super : HalfNormalDistribution.t;
  limit : R;
  confidence_level : R
}.

Definition get_standard_deviation (ppf : R -> R)
    (limit confidence_level : R) : float64 :=
  fmul (Fin limit) (scipy.norm_ppf ppf (0.5 + confidence_level / 2)).

Definition __init__ (ppf : R -> R) (limit confidence_level : R) : result t :=
  if Rltb 1 confidence_level || Rltb confidence_level 0 then Raise ValueError
  else
    Ok (Build
          (HalfNormalDistribution.__init__ (PyInt 0)
             (get_standard_deviation ppf limit confidence_level))
          limit confidence_level).

End GaussianUpperLimit.

(** [s[0] = v] and [s[-1] = v] *)
Definition setitem_first {A : Type} (v : A) (s : seq A) : result (seq A) :=
  match s with
  | _ :: s' => Ok (v :: s')
  | [::] => Raise IndexError
  end.

Definition setitem_last {A : Type} (v : A) (s : seq A) : result (seq A) :=
  match s with
  | _ :: _ => Ok (rcons (take (size s).-1 s) v)
  | [::] => Raise IndexError
  end.

Module NumericalDistribution.

Record t : Type := Build {
  central_value : number;
  support : R * R;
  logpdf_interp : scipy.interp1d;
  ppf_interp : scipy.interp1d
}.

(** [x] is the grid, [y] the weights; [central_value = None] asks for the
    mode.  No line of the constructor looks at the order of the grid. *)
Definition __init__ (x : seq R) (y : seq float64)
    (central_value : option number) : result t :=
  base <--
    match central_value with
    | Some central_value =>
        x0 <-- getitem x 0 ;;
        xl <-- getlast x ;;
        if Rleb x0 central_value && Rleb central_value xl then
          Ok (central_value, (x0, xl))
        else Raise ValueError
    | None =>
        i <-- np.argmax y ;;
        mode <-- getitem x i ;;
        x0 <-- getitem x 0 ;;
        xl <-- getlast x ;;
        Ok (PyFloat mode, (x0, xl))
    end ;;
  xl <-- getlast x ;;
  x0 <-- getitem x 0 ;;
  let _x_range := xl - x0 in
  let _bin_width := _x_range / INR (size x) in
  let _y_norm := [seq fdiv (fdiv v (fsum y)) (Fin _bin_width) | v <- y] in
  logpdf_interp <--
    scipy.interp1d_init [seq Fin v | v <- x] [seq np.log v | v <- _y_norm]
      false NegInf ;;
  let _cdf := [seq fmul v (Fin _bin_width) | v <- np.cumsum _y_norm] in
  _cdf <-- setitem_first (Fin 0) _cdf ;;
  _cdf <-- setitem_last (Fin 1) _cdf ;;
  ppf_interp <-- scipy.interp1d_init _cdf [seq Fin v | v <- x] true NaN ;;
  Ok (Build base.1 base.2 logpdf_interp ppf_interp).

Definition get_random {G} {rng : RandomSource G} (self : t)
    (size : option nat) (g : G) : result (ndarray float64 * G) :=
  let (r, g1) := random_uniform 0 1 size g in
  v <-- scipy.call (ppf_interp self) (nd_map Fin r) ;;
  Ok (v, g1).

Definition logpdf (self : t) (x : ndarray R) : result (ndarray float64) :=
  scipy.call (logpdf_interp self) (nd_map Fin x).

End NumericalDistribution.

(** ** Objects

    A univariate distribution is an instance of one of the classes; the
    methods of the contract are looked up in the class of the instance, and
    a [GaussianUpperLimit] inherits those of [HalfNormalDistribution]. *)

Inductive distribution : Type :=
  | Uniform (d : UniformDistribution.t)
  | Delta (d : DeltaDistribution.t)
  | Normal (d : NormalDistribution.t)
  | AsymmetricNormal (d : AsymmetricNormalDistribution.t)
  | HalfNormal (d : HalfNormalDistribution.t)
  | UpperLimit (d : GaussianUpperLimit.t)
  | Numerical (d : NumericalDistribution.t).

Definition central_value (p : distribution) : number :=
  match p with
  | Uniform d => UniformDistribution.central_value d
  | Delta d => DeltaDistribution.central_value d
  | Normal d => NormalDistribution.central_value d
  | AsymmetricNormal d => AsymmetricNormalDistribution.central_value d
  | HalfNormal d => HalfNormalDistribution.central_value d
  | UpperLimit d =>
      HalfNormalDistribution.central_value (GaussianUpperLimit.super d)
  | Numerical d => NumericalDistribution.central_value d
  end.

(** A pair of finite floats. *)
Definition finite_pair (ab : R * R) : float64 * float64 := (Fin ab.1, Fin ab.2).

(** [p.support]: a pair of floats, finite but for a half normal
    distribution whose standard deviation is not. *)
Definition support (p : distribution) : float64 * float64 :=
  match p with
  | Uniform d => finite_pair (UniformDistribution.support d)
  | Delta d => finite_pair (DeltaDistribution.support d)
  | Normal d => finite_pair (NormalDistribution.support d)
  | AsymmetricNormal d => finite_pair (AsymmetricNormalDistribution.support d)
  | HalfNormal d => HalfNormalDistribution.support d
  | UpperLimit d =>
      HalfNormalDistribution.support (GaussianUpperLimit.super d)
  | Numerical d => finite_pair (NumericalDistribution.support d)
  end.

Definition get_central (p : distribution) : number := central_value p.

Definition get_random {G} {rng : RandomSource G} (p : distribution)
    (size : option nat) (g : G) : result (ndarray float64 * G) :=
  match p with
  | Uniform d => UniformDistribution.get_random d size g
  | Delta d => DeltaDistribution.get_random d size g
  | Normal d => NormalDistribution.get_random d size g
  | AsymmetricNormal d => AsymmetricNormalDistribution.get_random d size g
  | HalfNormal d => HalfNormalDistribution.get_random d size g
  | UpperLimit d =>
      HalfNormalDistribution.get_random (GaussianUpperLimit.super d) size g
  | Numerical d => NumericalDistribution.get_random d size g
  end.

Definition logpdf (p : distribution) (x : ndarray R) :
  result (ndarray float64) :=
  match p with
  | Uniform d => UniformDistribution.logpdf d x
  | Delta d => DeltaDistribution.logpdf d x
  | Normal d => NormalDistribution.logpdf d x
  | AsymmetricNormal d => AsymmetricNormalDistribution.logpdf d x
  | HalfNormal d => HalfNormalDistribution.logpdf d x
  | UpperLimit d => HalfNormalDistribution.logpdf (GaussianUpperLimit.super d) x
  | Numerical d => NumericalDistribution.logpdf d x
  end.

(** [isinstance(p, NormalDistribution)] and the like. *)
Definition isinstance_Normal (p : distribution) : bool :=
  if p is Normal _ then true else false.

Definition isinstance_Delta (p : distribution) : bool :=
  if p is Delta _ then true else false.

Definition isinstance_Numerical (p : distribution) : bool :=
  if p is Numerical _ then true else false.

(** [p.standard_deviation] as [_convolve_gaussians] reads it: from
    instances of [NormalDistribution], the only ones its first assertion
    lets through. *)
Definition standard_deviation (p : distribution) : result number :=
  match p with
  | Normal d => Ok (NormalDistribution.standard_deviation d)
  | _ => Raise AttributeError
  end.

(** The entries of an array; a scalar is not iterable. *)
Definition entries {A : Type} (x : ndarray A) : result (seq A) :=
  match x with
  | Array s => Ok s
  | Scalar _ => Raise TypeError
  end.

(** [NumericalDistribution.from_pd(pd, nsteps)].  A support with an end
    that is not finite is that of a half normal distribution; the grid
    [np.linspace] makes of it is empty or starts with [nan], so that a
    [ValueError] comes from the vectorized log-density on the empty grid, or
    from the constructor, whose test [x[0] <= central_value] is false at
    [nan]. *)
Definition from_pd (pd : distribution) (nsteps : nat) : result distribution :=
  match support pd with
  | (Fin lo, Fin hi) =>
      let _x := np.linspace lo hi nsteps in
      lp <-- logpdf pd (Array _x) ;;
      _y <-- entries (nd_map np.exp lp) ;;
      d <-- NumericalDistribution.__init__ _x _y (Some (central_value pd)) ;;
      Ok (Numerical d)
  | _ => Raise ValueError
  end.

(** An object in a list handed to [convolve_distributions]: the instance
    and its identity.  [__eq__] and [__hash__] compare [id(self)], so a set
    of distributions is a set of identities. *)
Record object : Type := Object {
  id : nat;
  self : distribution
}.

(** [__hash__] and [__eq__] of [ProbabilityDistribution] *)
Definition __hash__ (self : object) : nat := id self.

Definition __eq__ (self other : object) : bool := id self == id other.

(** [p in s] for a set or a list [s] of objects. *)
Definition mem_object (p : object) (s : seq object) : bool := has (__eq__ p) s.

(** [set(s)], [a - b] on sets, and [list(a)].  (The order in which Python
    lists a set follows the hashes; the model keeps the order of the list
    the set was made from.) *)
Fixpoint set_of (s : seq object) : seq object :=
  match s with
  | [::] => [::]
  | p :: s' => if mem_object p s' then set_of s' else p :: set_of s'
  end.

Definition set_diff (a b : seq object) : seq object :=
  [seq p <- a | ~~ mem_object p b].

(** A new instance gets an identity no object of the list has. *)
Definition new_object (live : seq object) (p : distribution) : object :=
  Object (\max_(q <- live) id q).+1 p.

(** ** Auxiliary functions *)

Definition _convolve_gaussians (probability_distributions : seq object) :
  result distribution :=
  assert (all (fun p => isinstance_Normal (self p)) probability_distributions)
    else AssertionError ;;
  p0 <-- getitem probability_distributions 0 ;;
  let central_value0 := central_value (self p0) in
  assert (all (fun p => py_eq (central_value (self p)) central_value0)
            probability_distributions)
    else AssertionError ;;
  sigmas <--
    mapM (fun p => standard_deviation (self p)) probability_distributions ;;
  let sigmas := np.array sigmas in
  sigma <-- math.sqrt (np.sum_of (np.square sigmas)) ;;
  Ok (Normal (NormalDistribution.__init__ central_value0 (PyFloat sigma))).

(** One turn of the loop of [_convolve_numerical]: [y] is [None] before the
    first turn. *)
Definition convolve_step (x : seq R) (delta : R) (y : option (seq float64))
    (pd : distribution) : result (option (seq float64)) :=
  lp <-- logpdf pd (Array x) ;;
  y1 <-- entries (nd_map (fun v => fmul (np.exp v) (Fin delta)) lp) ;;
  match y with
  | None => Ok (Some y1)
  | Some y => Ok (Some (scipy.fftconvolve_same y y1))
  end.

Fixpoint convolve_loop (x : seq R) (delta : R) (y : option (seq float64))
    (pds : seq distribution) : result (option (seq float64)) :=
  match pds with
  | [::] => Ok y
  | pd :: pds' =>
      y' <-- convolve_step x delta y pd ;; convolve_loop x delta y' pds'
  end.

(** The supports of numerical distributions are finite, and so are their
    least lower and greatest upper end; otherwise the grid would start with
    [nan], which the constructor refuses. *)
Definition _convolve_numerical (probability_distributions : seq distribution)
    (nsteps : nat) : result distribution :=
  assert (all isinstance_Numerical probability_distributions)
    else AssertionError ;;
  p0 <-- getitem probability_distributions 0 ;;
  let central_value0 := central_value p0 in
  assert (all (fun p => py_eq (central_value p) central_value0)
            probability_distributions)
    else AssertionError ;;
  let supports := [seq support p | p <- probability_distributions] in
  let support0 :=
    (foldr np.minimum (support p0).1 [seq s.1 | s <- supports],
     foldr np.maximum (support p0).2 [seq s.2 | s <- supports]) in
  match support0 with
  | (Fin lo, Fin hi) =>
      let delta := (hi - lo) / (INR nsteps - 1) in
      let x := np.linspace lo hi nsteps in
      y <-- convolve_loop x delta None probability_distributions ;;
      match y with
      | Some y =>
          d <-- NumericalDistribution.__init__ x y (Some central_value0) ;;
          Ok (Numerical d)
      | None => Raise TypeError
      end
  | _ => Raise ValueError
  end.

Definition convolve_distributions (probability_distributions : seq object) :
  result object :=
  if size probability_distributions == 1%N then
    getitem probability_distributions 0
  else
    p0 <-- getitem probability_distributions 0 ;;
    let central_value0 := central_value (self p0) in
    assert (isinstance_float central_value0) else AssertionError ;;
    assert (all (fun p => py_eq (central_value (self p)) central_value0)
              probability_distributions)
      else AssertionError ;;
    let gaussians :=
      [seq p <- probability_distributions | isinstance_Normal (self p)] in
    gaussian <-- _convolve_gaussians gaussians ;;
    let deltas :=
      [seq p <- probability_distributions | isinstance_Delta (self p)] in
    let others :=
      set_diff (set_diff (set_of probability_distributions) (set_of gaussians))
        (set_of deltas) in
    if nilp others then
      Ok (new_object probability_distributions gaussian)
    else
      let to_be_combined := [seq self p | p <- others] ++ [:: gaussian] in
      numerical <-- mapM (fun p => from_pd p 1000) to_be_combined ;;
      r <-- _convolve_numerical numerical 1000 ;;
      Ok (new_object probability_distributions r).

(** ** The multivariate normal distribution

    The central value is a vector and the covariance a square matrix; the
    support is [None]. *)

Module MultivariateNormalDistribution.

Record t (n : nat) : Type := Build {
  central_value : 'rV[R]_n;
  support : option (R * R);
  covariance : 'M[R]_n
}.

(** [np.all(np.linalg.eigvals(covariance) > 0)]: every eigenvalue of the
    matrix is greater than zero.  An eigenvalue of a real matrix may be
    complex: [a + ib] is one when it has an eigenvector [u + iw] that is not
    zero.  NumPy compares complex numbers by their real parts, and by their
    imaginary parts when the real parts agree. *)
Definition eigvals_positive {n : nat} (A : 'M[R]_n) : Prop :=
  forall (a b : R) (u w : 'rV[R]_n),
    (u != 0%R) || (w != 0%R) ->
    (u *m A = a *: u - b *: w)%R -> (w *m A = b *: u + a *: w)%R ->
    0 < a \/ (a = 0 /\ 0 < b).

Definition __init__ {n : nat} (central_value : 'rV[R]_n)
    (covariance : 'M[R]_n) : result (t n) :=
  if excluded_middle_informative (eigvals_positive covariance) then
    Ok (Build central_value None covariance)
  else Raise AssertionError.

Definition logpdf {n : nat} (self : t n) (x : 'rV[R]_n) : result float64 :=
  let err := np.sqrt (np.diag (covariance self)) in
  let scale_matrix := np.outer err err in
  let pdf_scaled :=
    scipy.multivariate_normal_logpdf (np.divide x err)
      (np.divide (central_value self) err)
      (np.divide (covariance self) scale_matrix) in
  v <-- math.log
          (fdiv
             (Fin (np.linalg_det (np.divide (covariance self) scale_matrix)))
             (Fin (np.linalg_det (covariance self)))) ;;
  Ok (fadd (Fin pdf_scaled) (fdiv v (Fin 2))).

End MultivariateNormalDistribution.

(** ** The module [flavio.physics.bdecays.bll]

    Parameters are Python floats and Wilson coefficients Python complex
    numbers, with exact arithmetic; a dictionary is a list of keys and
    values, read from the front. *)

Module bll.

Import Stdlib.Strings.String.
Local Open Scope string_scope.

(** What a call may raise: the [KeyError] of a dictionary, the
    [UnboundLocalError] of a local variable no branch has assigned, or an
    exception of the builtins ([ZeroDivisionError], [ValueError]). *)
Inductive error : Type :=
  | KeyError (key : string)
  | UnboundLocalError (name : string)
  | Builtin (e : exception).

Inductive fallible (A : Type) : Type :=
  | Return (a : A)
  | Throw (e : error).

Arguments Return {A} a.
Arguments Throw {A} e.

Definition bind {A B : Type} (r : fallible A) (f : A -> fallible B) :
  fallible B :=
  match r with
  | Return a => f a
  | Throw e => Throw e
  end.

Declare Scope bll_scope.
Delimit Scope bll_scope with bll.

Notation "x <-- r ;; k" := (bind r (fun x => k))
  (at level 61, r at next level, right associativity) : bll_scope.

Local Open Scope bll_scope.

(** An exception of the builtins passes through. *)
Definition lift {A : Type} (r : result A) : fallible A :=
  match r with
  | Ok a => Return a
  | Raise e => Throw (Builtin e)
  end.

(** A Python dictionary with strings as keys. *)
Definition dict (V : Type) : Type := seq (string * V).

Fixpoint getitem {V : Type} (d : dict V) (key : string) : fallible V :=
  match d with
  | [::] => Throw (KeyError key)
  | (k, v) :: d' => if String.eqb key k then Return v else getitem d' key
  end.

(** [a / b] on Python floats. *)
Definition truediv (a b : R) : fallible R :=
  if b == 0 then Throw (Builtin ZeroDivisionError) else Return (a / b).

(** Python's [complex]. *)
Record complex : Type := Complex { real : R; imag : R }.

Definition csub (a b : complex) : complex :=
  Complex (real a - real b) (imag a - imag b).

Definition cadd (a b : complex) : complex :=
  Complex (real a + real b) (imag a + imag b).

Definition cmul (a b : complex) : complex :=
  Complex (real a * real b - imag a * imag b)
          (real a * imag b + imag a * real b).

(** A float times, and a complex number over, a float. *)
Definition cscale (t : R) (a : complex) : complex :=
  Complex (t * real a) (t * imag a).

Definition cdiv_float (a : complex) (t : R) : complex :=
  Complex (real a / t) (imag a / t).

(** [abs(a)] *)
Definition cabs (a : complex) : R := sqrt (real a ^ 2 + imag a ^ 2).

(** The factor between the time-integrated and the prompt branching ratio,
    [(1 - y**2)/(1 + ADeltaGamma*y)]. *)
Definition br_lifetime_corr (y ADeltaGamma : R) : fallible R :=
  truediv (1 - y ^ 2) (1 + ADeltaGamma * y).

Section Externals.

(** What the module imports from the rest of the package: the table
    [meson_quark] of [flavio.physics.bdecays.common], [running.get_alpha],
    [ckm.xi], the renormalization scale of [flavio.config] and
    [wctot_dict].  They are left open; each may raise. *)
Variable meson_quark : dict string.
Variable get_alpha : dict R -> R -> fallible (dict R).
Variable xi : string -> string -> dict R -> fallible complex.
Variable wc_obj_t : Type.
Variable scale : fallible R.
Variable wctot_dict :
  wc_obj_t -> string -> R -> dict R -> fallible (dict complex).

(** The amplitudes [P] and [S].  The keys are read in the order of the
    source; [2*ml/mB] divides Python floats. *)
Definition amplitudes (par : dict R) (wc : dict complex) (B lep : string) :
  fallible (complex * complex) :=
  ml <-- getitem par ("m_" ++ lep) ;;
  mB <-- getitem par ("m_" ++ B) ;;
  q <-- getitem meson_quark B ;;
  let qqll := q ++ lep ++ lep in
  c10 <-- getitem wc ("C10_" ++ qqll) ;;
  c10p <-- getitem wc ("C10p_" ++ qqll) ;;
  let C10m := csub c10 c10p in
  cp <-- getitem wc ("CP_" ++ qqll) ;;
  cpp <-- getitem wc ("CPp_" ++ qqll) ;;
  let CPm := csub cp cpp in
  cs <-- getitem wc ("CS_" ++ qqll) ;;
  csp <-- getitem wc ("CSp_" ++ qqll) ;;
  let CSm := csub cs csp in
  t <-- truediv (2 * ml) mB ;;
  let P := cadd (cscale t C10m) (cscale mB CPm) in
  let S := cscale mB CSm in
  Return (P, S).

(** [((P**2).real - (S**2).real)/(abs(P)**2 + abs(S)**2)]; the square of
    a complex number is its product with itself. *)
Definition ADeltaGamma (par : dict R) (wc : dict complex) (B lep : string) :
  fallible R :=
  PS <-- amplitudes par wc B lep ;;
  let P := PS.1 in
  let S := PS.2 in
  truediv (real (cmul P P) - real (cmul S S)) (cabs P ^ 2 + cabs S ^ 2).

(** The branching ratio before mixing.  [xi_t] is assigned for [B == 'Bs']
    and [B == 'B0'] only; [sqrt] is [math.sqrt]. *)
Definition br_inst (par : dict R) (wc : dict complex) (B lep : string) :
  fallible R :=
  GF <-- getitem par "GF" ;;
  alpha <-- get_alpha par 4.8 ;;
  alphaem <-- getitem alpha "alpha_e" ;;
  ml <-- getitem par ("m_" ++ lep) ;;
  mB <-- getitem par ("m_" ++ B) ;;
  tauB <-- getitem par ("tau_" ++ B) ;;
  fB <-- getitem par ("f_" ++ B) ;;
  xi_t <-- (if String.eqb B "Bs" then xi "t" "bs" par
            else if String.eqb B "B0" then xi "t" "bd" par
            else Throw (UnboundLocalError "xi_t")) ;;
  let N :=
    cdiv_float
      (cscale alphaem (cdiv_float (cscale GF (cscale 4 xi_t)) (sqrt 2)))
      (4 * PI) in
  r <-- truediv (4 * ml ^ 2) (mB ^ 2) ;;
  beta <-- lift (math.sqrt (1 - r)) ;;
  let prefactor := cabs N ^ 2 / 32 / PI * mB ^ 3 * tauB * beta * fB ^ 2 in
  PS <-- amplitudes par wc B lep ;;
  let P := PS.1 in
  let S := PS.2 in
  Return (prefactor * (cabs P ^ 2 + beta ^ 2 * cabs S ^ 2)).

(** The time-integrated branching ratio. *)
Definition br_timeint (par : dict R) (wc : dict complex) (B lep : string) :
  fallible R :=
  br0 <-- br_inst par wc B lep ;;
  dg <-- getitem par ("DeltaGamma/Gamma_" ++ B) ;;
  let y := dg / 2 in
  ADG <-- ADeltaGamma par wc B lep ;;
  corr <-- br_lifetime_corr y ADG ;;
  truediv br0 corr.

Definition bqll_obs
    (function : dict R -> dict complex -> string -> string -> fallible R)
    (wc_obj : wc_obj_t) (par : dict R) (B lep : string) : fallible R :=
  scale <-- scale ;;
  q <-- getitem meson_quark B ;;
  wc <-- wctot_dict wc_obj (q ++ lep ++ lep) scale par ;;
  function par wc B lep.

Definition bqll_obs_function
    (function : dict R -> dict complex -> string -> string -> fallible R)
    (B lep : string) : wc_obj_t -> dict R -> fallible R :=
  fun wc_obj par => bqll_obs function wc_obj par B lep.

End Externals.

(** An instance for the examples: the decay of [Bs] into two muons with
    real Wilson coefficients and no scalar operator. *)
Definition example_meson_quark : dict string :=
  [:: ("Bs", "bs"); ("B0", "bd")].

Definition example_par : dict R :=
  [:: ("GF", 1); ("m_mu", 1); ("m_Bs", 4); ("tau_Bs", 1); ("f_Bs", 1);
      ("DeltaGamma/Gamma_Bs", 1)].

Definition example_wc : dict complex :=
  [:: ("C10_bsmumu", Complex 1 0); ("C10p_bsmumu", Complex 0 0);
      ("CP_bsmumu", Complex 0 0); ("CPp_bsmumu", Complex 0 0);
      ("CS_bsmumu", Complex 0 0); ("CSp_bsmumu", Complex 0 0)].

Definition example_get_alpha (par : dict R) (scale : R) : fallible (dict R) :=
  Return [:: ("alpha_e", 1)].

Definition example_xi (u d : string) (par : dict R) : fallible complex :=
  Return (Complex 1 0).

End bll.

(** ** Vocabulary of the properties *)

(** A grid is strictly increasing. *)
Definition strictly_increasing (x : seq R) : bool := sorted Rltb x.

(** The central value lies in the closed interval [support]. *)
Definition in_support (p : distribution) : bool :=
  fle (support p).1 (Fin (central_value p))
  && fle (Fin (central_value p)) (support p).2.

(** The univariate objects a successful call of a constructor yields, under
    the conditions the data model puts on the parameters.  The upper limit
    [0] at the confidence level [1] is left out: its standard deviation is
    [0 * inf]. *)
Inductive constructed (ppf : R -> R) : distribution -> Prop :=
  | Constructed_Uniform (c : number) (h : R) :
      0 <= h -> constructed ppf (Uniform (UniformDistribution.__init__ c h))
  | Constructed_Delta (c : number) :
      constructed ppf (Delta (DeltaDistribution.__init__ c))
  | Constructed_Normal (c s : number) :
      0 < s -> constructed ppf (Normal (NormalDistribution.__init__ c s))
  | Constructed_AsymmetricNormal (c : number) (r l : R) d :
      AsymmetricNormalDistribution.__init__ c r l = Ok d ->
      constructed ppf (AsymmetricNormal d)
  | Constructed_HalfNormal (c : number) (s : R) :
      constructed ppf (HalfNormal (HalfNormalDistribution.__init__ c s))
  | Constructed_UpperLimit (limit cl : R) d :
      ~ (limit = 0 /\ cl = 1) ->
      GaussianUpperLimit.__init__ ppf limit cl = Ok d ->
      constructed ppf (UpperLimit d)
  | Constructed_Numerical (x : seq R) (y : seq float64) (cv : option number) d :
      strictly_increasing x ->
      NumericalDistribution.__init__ x y cv = Ok d ->
      constructed ppf (Numerical d).

(** The objects alive at a point of a run, in the order of their creation;
    the identity of an object is its place in the list. *)
Definition store : Type := seq distribution.

Definition lookup (st : store) (i : nat) : option distribution :=
  ohead (drop i st).

(** The objects of the identities [idents], as a call receives them. *)
Fixpoint objects (st : store) (idents : seq nat) : option (seq object) :=
  match idents with
  | [::] => Some [::]
  | i :: idents' =>
      match lookup st i, objects st idents' with
      | Some p, Some ps => Some (Object i p :: ps)
      | _, _ => None
      end
  end.

(** The operations of a run after the objects were built: the methods of
    the contract and the adapter [from_pd] on the object of an identity,
    and the combination of the objects of a list of identities.  [g] is
    the state of the random source at the call. *)
Inductive operation (G : Type) : Type :=
  | Get_central (ident : nat)
  | Get_random (ident : nat) (size : option nat) (g : G)
  | Logpdf (ident : nat) (x : ndarray R)
  | From_pd (ident : nat) (nsteps : nat)
  | Convolve (idents : seq nat).

Arguments Get_central {G} ident.
Arguments Logpdf {G} ident x.
Arguments From_pd {G} ident nsteps.
Arguments Convolve {G} idents.

(** What an operation hands back: a value, the identity of an object, an
    exception, or nothing when an identity is that of no object. *)
Inductive outcome (G : Type) : Type :=
  | Central (c : number)
  | Sample (r : result (ndarray float64 * G))
  | Density (r : result (ndarray float64))
  | Discretised (r : result nat)
  | Combined (r : result nat)
  | Unbound.

Arguments Central {G} c.
Arguments Density {G} r.
Arguments Discretised {G} r.
Arguments Combined {G} r.
Arguments Unbound {G}.

(** One operation: what it hands back, and the objects after it.  The
    module assigns to attributes in the constructors only, and there to
    the object under construction; so a method leaves the objects as they
    are, and a call that builds an object puts it behind them.
    [convolve_distributions] hands back its one argument, or an object it
    has built. *)
Definition perform {G} {rng : RandomSource G} (op : operation G)
    (st : store) : outcome G * store :=
  match op with
  | Get_central i =>
      (if lookup st i is Some p then Central (get_central p) else Unbound, st)
  | Get_random i size g =>
      (if lookup st i is Some p then Sample (get_random p size g)
       else Unbound, st)
  | Logpdf i x =>
      (if lookup st i is Some p then Density (logpdf p x) else Unbound, st)
  | From_pd i nsteps =>
      match lookup st i with
      | Some p =>
          match from_pd p nsteps with
          | Ok q => (Discretised (Ok (size st)), rcons st q)
          | Raise e => (Discretised (Raise e), st)
          end
      | None => (Unbound, st)
      end
  | Convolve idents =>
      match objects st idents with
      | Some ps =>
          match convolve_distributions ps with
          | Ok r =>
              if mem_object r ps then (Combined (Ok (id r)), st)
              else (Combined (Ok (size st)), rcons st (self r))
          | Raise e => (Combined (Raise e), st)
          end
      | None => (Unbound, st)
      end
  end.

(** The objects after a sequence of operations. *)
Definition after {G} {rng : RandomSource G} (ops : seq (operation G))
    (st : store) : store :=
  foldl (fun st op => (perform op st).2) st ops.

(** A list of normal distributions around [c], given by the identity and
    the standard deviation of each. *)
Definition normal_object (c : number) (p : nat * number) : object :=
  Object p.1 (Normal (NormalDistribution.__init__ c p.2)).

(** A symmetric matrix is positive definite when its quadratic form is
    positive away from zero. *)
Definition positive_definite {n : nat} (A : 'M[R]_n) : Prop :=
  (A^T = A)%R /\
  forall v : 'rV[R]_n, v != 0%R -> 0 < (v *m A *m v^T)%R ord0 ord0.

(** The segment from the identity to [A]. *)
Definition homotopy {n : nat} (A : 'M[R]_n) (t : R) : 'M[R]_n :=
  (t *: A + (1 - t) *: 1%:M)%R.

(** A covariance matrix with correlated components. *)
Definition S2 : 'M[R]_2 := \matrix_(i, j) (if i == j then 2 else 1).

(** A symmetric matrix with the eigenvalues [3] and [-1]. *)
Definition indefinite2 : 'M[R]_2 := \matrix_(i, j) (if i == j then 1 else 2).

(** Every entry of a scalar or an array satisfies [P]. *)
Definition nd_all {A : Type} (P : A -> Prop) (x : ndarray A) : Prop :=
  match x with
  | Scalar a => P a
  | Array s => List.Forall P s
  end.

(** The draws of [random_sample] lie in [[0, 1)], as NumPy documents them. *)
Definition unit_interval {G : Type} (rng : RandomSource G) : Prop :=
  forall g : G, 0 <= (random_sample g).1 < 1.

(** A random source that hands out [u] at every uniform draw and [z] at
    every normal draw. *)
Definition constant_source (u z : R) : RandomSource unit :=
  {| random_sample := fun g => (u, g); standard_normal := fun g => (z, g) |}.

(** The log-density of the two-piece normal law with mode [c] and
    deviations [l] below and [r] above the mode. *)
Definition two_piece_logpdf (c l r x : R) : R :=
  ln (2 / (l + r)) - ln (sqrt (2 * PI))
  - ((x - c) / (if Rltb x c then l else r)) ^ 2 / 2.

(** * Properties *)

Import GRing.Theory.

(** ** Results and lists *)

Lemma bind_Ok (A B : Type) (r : result A) (f : A -> result B) (b : B) :
  bind r f = Ok b -> exists2 a, r = Ok a & f a = Ok b.
Proof. by case: r => [a|e] //= fa; exists a. Qed.

Lemma bind_ret (A B : Type) (a : A) (f : A -> result B) : bind (Ok a) f = f a.
Proof. by []. Qed.

(** From [x <-- r ;; k = Ok b] on top of the goal to [r = Ok a] and
    [k a = Ok b]. *)
Ltac bind_inv :=
  let E := fresh "E" in move=> E; move: (bind_Ok E) => {E}; cbv beta zeta.

Lemma mapM_size (A B : Type) (f : A -> result B) (s : seq A) (t : seq B) :
  mapM f s = Ok t -> size t = size s.
Proof.
elim: s t => [|a s IH] t /=; first by case=> <-.
case: (f a) => //= b; case E: (mapM f s) => [bs|] //= [<-] /=.
by rewrite (IH _ E).
Qed.

Lemma getitem_nth (A : Type) (x0 : A) (s : seq A) (i : nat) (v : A) :
  getitem s i = Ok v -> (i < size s)%N /\ nth x0 s i = v.
Proof.
rewrite /getitem; case: (ltnP i (size s)) => [lt|ge].
  by rewrite (drop_nth x0 lt) => -[<-].
by rewrite drop_oversize.
Qed.

Lemma getitem_lt (A : Type) (x0 : A) (s : seq A) (i : nat) :
  (i < size s)%N -> getitem s i = Ok (nth x0 s i).
Proof. by move=> lt; rewrite /getitem (drop_nth x0 lt). Qed.

Lemma getlast_nth (A : Type) (x0 : A) (s : seq A) (v : A) :
  getlast s = Ok v -> (0 < size s)%N /\ nth x0 s (size s).-1 = v.
Proof. by case: s => [|a s] //= [<-]; rewrite (nth_last x0 (a :: s)). Qed.

Lemma py_eq_refl (c : number) : py_eq c c.
Proof. exact: eqxx. Qed.

Lemma Rltb_trans : transitive Rltb.
Proof.
by move=> y x z /RltbP xy /RltbP yz; apply/RltbP; apply: Rlt_trans yz.
Qed.

(** ** Log-density of the uniform distribution *)

(** C7 (amended).  For a uniform distribution with [half_range > 0] the
    log-density is [-log(2 * half_range)] on the half-open interval
    [[center - half_range, center + half_range)], and minus infinity below
    the lower bound and from the upper bound on: the upper end of the
    support belongs to the second case. *)
Theorem Uniform_logpdf_half_open (c : number) (h x : R) :
  0 < h ->
  let self := UniformDistribution.__init__ c h in
  (c - h <= x < c + h ->
   UniformDistribution.logpdf self (Scalar x)
   = Ok (Scalar (Fin (- ln (2 * h))))) /\
  (x < c - h \/ c + h <= x ->
   UniformDistribution.logpdf self (Scalar x) = Ok (Scalar NegInf)).
Proof.
move=> h0 self.
rewrite /UniformDistribution.logpdf /= /UniformDistribution._logpdf /=.
split.
  case=> lo hi.
  have /RltbP/negbTE -> : ~ x < c - h by lra.
  have /RlebP/negbTE -> /= : ~ c + h <= x by lra.
  by have /RltbP -> : 0 < 2 * h by lra.
by case=> [/RltbP -> //|/RlebP ->]; rewrite orbT.
Qed.

(** At [Uniform(0, 1)] and the lower end [-1] of the support. *)
Lemma Uniform_logpdf_half_open_witness :
  0 < 1 /\
  UniformDistribution.logpdf (UniformDistribution.__init__ (PyFloat 0) 1)
    (Scalar (-1)) = Ok (Scalar (Fin (- ln (2 * 1)))).
Proof.
split; first exact: Rlt_0_1.
apply: (proj1 (@Uniform_logpdf_half_open (PyFloat 0) 1 (-1) Rlt_0_1)).
by rewrite /=; lra.
Defined.

(** C7 as stated fails at the upper end of the support: [Uniform(0, 1)] has
    log-density minus infinity at [1], not [-log 2]. *)
Lemma Uniform_logpdf_upper_endpoint :
  UniformDistribution.logpdf (UniformDistribution.__init__ (PyFloat 0) 1)
    (Scalar 1) = Ok (Scalar NegInf) /\
  Ok (Scalar NegInf) <> Ok (Scalar (Fin (- ln (2 * 1))))
    :> result (ndarray float64).
Proof.
split; last by [].
rewrite /UniformDistribution.logpdf /= /UniformDistribution._logpdf /=.
have /RlebP -> : 0 + 1 <= 1 by lra.
by rewrite orbT.
Qed.

(** ** Shapes of log-densities *)

(** What [np.vectorize] returns has the shape of the argument. *)
Lemma vectorize_shape (A B : Type) (f : A -> result B) (x : ndarray A)
    (y : ndarray B) :
  np.vectorize f x = Ok y -> shape y = shape x.
Proof.
case: x => [a|s] /=; first by case: (f a) => //= b [<-].
case: s => [|a s] //; rewrite /nd_mapM.
by case E: (mapM f (a :: s)) => [bs|] //= [<-] /=; rewrite (mapM_size E).
Qed.

(** C5.  The log-density of a delta distribution does not take a sequence:
    on the array [[5, 6]] the call on [Delta(5)] raises, and on no array
    does it return an array. *)
Theorem Delta_logpdf_sequence :
  DeltaDistribution.logpdf (DeltaDistribution.__init__ (PyFloat 5))
    (Array [:: 5; 6]) = Raise ValueError /\
  forall (c : number) (xs : seq R) (ys : seq float64),
    DeltaDistribution.logpdf (DeltaDistribution.__init__ c) (Array xs)
    <> Ok (Array ys).
Proof.
split=> [//|c xs ys]; rewrite /DeltaDistribution.logpdf /=.
by case: xs => [|x [|x' xs]] //=; case: (_ == _).
Qed.

(** ** Shapes of samples *)

Lemma draws_size (G : Type) (draw : G -> R * G) (n : nat) (g : G) :
  size (draws draw n g).1 = n.
Proof.
elim: n g => [|n IH] g //=; case: (draw g) => v g1.
by have := IH g1; case: (draws draw n g1) => vs g2 /= ->.
Qed.

(** A uniform distribution hands back [n] values when asked for [n]. *)
Lemma Uniform_get_random_shape (G : Type) (rng : RandomSource G)
    (self : UniformDistribution.t) (n : nat) (g : G) :
  exists vs g',
    UniformDistribution.get_random self (Some n) g = Ok (Array vs, g')
    /\ size vs = n.
Proof.
rewrite /UniformDistribution.get_random /random_uniform /sample.
have := draws_size (@random_sample G rng) n g.
case: (draws random_sample n g) => us g1 /= szus.
by eexists; eexists; split; [reflexivity|rewrite !size_map].
Qed.

(** C6.  [AsymmetricNormalDistribution.get_random] never returns an array,
    whatever [size] it is given: it returns one number, or raises. *)
Theorem AsymmetricNormal_get_random_scalar (G : Type) (rng : RandomSource G)
    (self : AsymmetricNormalDistribution.t) (size : option nat) (g g' : G)
    (vs : seq float64) :
  AsymmetricNormalDistribution.get_random self size g <> Ok (Array vs, g').
Proof.
rewrite /AsymmetricNormalDistribution.get_random.
case: (random_sample g) => r g1; case: (_ != 0) => //.
by case: (Rltb _ r); rewrite /random_normal; case: (~~ Rltb _ 0) => //=;
  case: (standard_normal g1).
Qed.

(** On an object with non-negative deviations, not both zero, the call
    returns, and what it returns is one number. *)
Lemma AsymmetricNormal_get_random_value (G : Type) (rng : RandomSource G)
    (c : number) (r l : R) (size : option nat) (g : G) :
  0 <= r -> 0 <= l -> r + l <> 0 ->
  exists self v g',
    AsymmetricNormalDistribution.__init__ c r l = Ok self /\
    AsymmetricNormalDistribution.get_random self size g = Ok (Scalar v, g').
Proof.
move=> r0 l0 rl; rewrite /AsymmetricNormalDistribution.__init__.
have /RltbP/negbTE -> : ~ r < 0 by lra.
have /RltbP/negbTE -> /= : ~ l < 0 by lra.
exists (AsymmetricNormalDistribution.Build c (c - 6 * l, c + 6 * r) r l).
rewrite /AsymmetricNormalDistribution.get_random /=.
case: (random_sample g) => u g1; have /eqP -> : r + l <> 0 by [].
case: (Rltb _ u); rewrite /random_normal.
  have /RltbP/negbTE -> /= : ~ r < 0 by lra.
  by case: (standard_normal g1) => z g2 /=; eexists; eexists; split.
have /RltbP/negbTE -> /= : ~ l < 0 by lra.
by case: (standard_normal g1) => z g2 /=; eexists; eexists; split.
Qed.

(** ** The standard deviation of an upper limit *)

(** Below the confidence level [1] the quantile is finite, and the
    standard deviation is the product of the limit and the quantile. *)
Lemma get_standard_deviation_inside (ppf : R -> R) (limit cl : R) :
  0 <= cl < 1 ->
  GaussianUpperLimit.get_standard_deviation ppf limit cl
  = Fin (limit * ppf (0.5 + cl / 2)).
Proof.
move=> [cl0 cl1]; rewrite /GaussianUpperLimit.get_standard_deviation.
rewrite /scipy.norm_ppf.
have /eqP/negbTE -> : 0.5 + cl / 2 <> 1 by lra.
have /eqP/negbTE -> : 0.5 + cl / 2 <> 0 by lra.
have /RltbP -> : 0 < 0.5 + cl / 2 by lra.
by have /RltbP -> : 0.5 + cl / 2 < 1 by lra.
Qed.

(** C1.  [GaussianUpperLimit(limit=10, confidence_level=0.95)] gets the
    standard deviation [10 * q], where [q] is the quantile of the standard
    normal law at [0.975] (about [1.959964]): more than [19.599], while
    [10 / q] is less than [5.103]. *)
Theorem GaussianUpperLimit_multiplies (ppf : R -> R) :
  1.9599 < ppf (0.5 + 0.95 / 2) < 1.96 ->
  exists d : GaussianUpperLimit.t,
    GaussianUpperLimit.__init__ ppf 10 0.95 = Ok d /\
    HalfNormalDistribution.standard_deviation (GaussianUpperLimit.super d)
      = 10 * ppf (0.5 + 0.95 / 2) /\
    19.599 < 10 * ppf (0.5 + 0.95 / 2) /\
    10 / ppf (0.5 + 0.95 / 2) < 5.103.
Proof.
move=> [lo hi]; rewrite /GaussianUpperLimit.__init__.
have /RltbP/negbTE -> : ~ 1 < 0.95 by lra.
have /RltbP/negbTE -> /= : ~ 0.95 < 0 by lra.
have cl : 0 <= 0.95 < 1 by lra.
eexists; split; first reflexivity.
rewrite [HalfNormalDistribution.standard_deviation _]/=.
rewrite (get_standard_deviation_inside _ _ cl).
split=> //; split; first lra.
move: (ppf _) lo hi => q lo hi.
apply: (Rmult_lt_reg_r q); first lra.
by rewrite /Rdiv Rmult_assoc Rinv_l; lra.
Qed.

(** With a quantile function whose value is [1.959964]. *)
Lemma GaussianUpperLimit_multiplies_witness :
  1.9599 < 1.959964 < 1.96 /\
  exists d : GaussianUpperLimit.t,
    GaussianUpperLimit.__init__ (fun=> 1.959964) 10 0.95 = Ok d /\
    HalfNormalDistribution.standard_deviation (GaussianUpperLimit.super d)
      = 10 * 1.959964.
Proof.
have h : 1.9599 < 1.959964 < 1.96 by lra.
split=> //.
have [d [Hd [Hs _]]] := @GaussianUpperLimit_multiplies (fun=> 1.959964) h.
by exists d.
Defined.

(** For every confidence level below [1] the constructor multiplies. *)
Lemma GaussianUpperLimit_standard_deviation (ppf : R -> R) (limit cl : R)
    (d : GaussianUpperLimit.t) :
  cl < 1 ->
  GaussianUpperLimit.__init__ ppf limit cl = Ok d ->
  HalfNormalDistribution.standard_deviation (GaussianUpperLimit.super d)
  = limit * ppf (0.5 + cl / 2).
Proof.
move=> cl1; rewrite /GaussianUpperLimit.__init__.
case: RltbP => //= _; case: RltbP => //= cl0 [<-] /=.
by apply: get_standard_deviation_inside; lra.
Qed.

(** ** Construction of a numerical distribution *)

Lemma size_cumsum_from (acc : float64) (s : seq float64) :
  size (np.cumsum_from acc s) = size s.
Proof. by elim: s acc => [|a s IH] acc //=; rewrite IH. Qed.

Lemma argmax_from_lt (best : float64) (ibest i : nat) (s : seq float64) :
  (ibest < i)%N -> (np.argmax_from best ibest i s < i + size s)%N.
Proof.
elim: s best ibest i => [|a s IH] best ibest i lt /=; first by rewrite addn0.
rewrite addnS -addSn; case: ifP => _; apply: IH => //.
exact: ltn_trans lt _.
Qed.

Lemma argmax_Ok (s : seq float64) :
  (0 < size s)%N -> exists2 i, np.argmax s = Ok i & (i < size s)%N.
Proof.
case: s => [|a s] // _; exists (np.argmax_from a 0 1 s) => //.
by rewrite /= -add1n; apply: argmax_from_lt.
Qed.

Lemma setitem_first_Ok (A : Type) (v : A) (s : seq A) :
  (0 < size s)%N ->
  exists2 s', setitem_first v s = Ok s' & size s' = size s.
Proof. by case: s => [|a s] // _; exists (v :: s). Qed.

Lemma setitem_last_Ok (A : Type) (v : A) (s : seq A) :
  (0 < size s)%N ->
  exists2 s', setitem_last v s = Ok s' & size s' = size s.
Proof.
case: s => [|a s] // _; eexists; first by [].
by rewrite size_rcons size_take /= ltnSn.
Qed.

Lemma interp1d_init_Ok (x y : seq float64) (b : bool) (fv : float64) :
  size x = size y -> (0 < size x)%N ->
  exists f, scipy.interp1d_init x y b fv = Ok f.
Proof.
by move=> sz lt; rewrite /scipy.interp1d_init sz eqxx -sz lt; eexists.
Qed.

(** The constructor succeeds on every grid that is not empty with as many
    weights, and an explicit central value between the first and the last
    point of the grid; the object has the first and last point as support,
    and the central value given or the grid point of the first greatest
    weight. *)
Lemma NumericalDistribution_init_Ok (x : seq R) (y : seq float64)
    (cv : option number) :
  (0 < size x)%N -> size y = size x ->
  (forall c : number, cv = Some c -> nth 0 x 0 <= c <= last 0 x) ->
  exists d,
    [/\ NumericalDistribution.__init__ x y cv = Ok d,
        NumericalDistribution.support d = (nth 0 x 0, last 0 x),
        forall c, cv = Some c -> NumericalDistribution.central_value d = c
      & cv = None ->
        exists2 i, np.argmax y = Ok i
          & NumericalDistribution.central_value d = PyFloat (nth 0 x i)].
Proof.
move=> sz1 szy cvok; rewrite /NumericalDistribution.__init__.
have -> : getitem x 0 = Ok (nth 0 x 0) by apply: getitem_lt.
have -> : getlast x = Ok (last 0 x) by case: x sz1 {szy cvok}.
set base := (X in bind X _).
have [b [-> b2 bS bN]] : exists b,
    [/\ base = Ok b, b.2 = (nth 0 x 0, last 0 x),
        forall c, cv = Some c -> b.1 = c
      & cv = None ->
        exists2 i, np.argmax y = Ok i & b.1 = PyFloat (nth 0 x i)].
  rewrite /base {base}; case: cv cvok => [c|] cvok /=.
    have [/RlebP -> /RlebP ->] := cvok c erefl.
    by eexists; split=> // c' [<-].
  have [i Hi ilt] : exists2 i, np.argmax y = Ok i & (i < size y)%N.
    by apply: argmax_Ok; rewrite szy.
  rewrite Hi /= (getitem_lt 0) /= -?szy //.
  by eexists; split=> // _; exists i.
rewrite /=.
set lx := [seq Fin v | v <- x]; set ly := [seq np.log v | v <- _].
have [f1 ->] /= : exists f, scipy.interp1d_init lx ly false NegInf = Ok f.
  by apply: interp1d_init_Ok; rewrite /lx /ly !size_map.
set cdf := [seq _ | v <- np.cumsum _].
have szcdf : size cdf = size x.
  by rewrite /cdf size_map /np.cumsum size_cumsum_from size_map.
have lt0 : (0 < size cdf)%N by rewrite szcdf.
have [cdf1 -> sz1'] /= := @setitem_first_Ok _ (Fin 0) cdf lt0.
have lt1 : (0 < size cdf1)%N by rewrite sz1' szcdf.
have [cdf2 -> sz2'] /= := @setitem_last_Ok _ (Fin 1) cdf1 lt1.
have [f2 ->] /= : exists f, scipy.interp1d_init cdf2 lx true NaN = Ok f.
  by apply: interp1d_init_Ok; rewrite /lx ?size_map sz2' sz1' szcdf.
by eexists; split.
Qed.

(** What a successful construction says of the object. *)
Lemma NumericalDistribution_init_inv (x : seq R) (y : seq float64)
    (cv : option number) (d : NumericalDistribution.t) :
  NumericalDistribution.__init__ x y cv = Ok d ->
  exists x0 xl,
    [/\ getitem x 0 = Ok x0, getlast x = Ok xl,
        NumericalDistribution.support d = (x0, xl) &
        match cv with
        | Some c => NumericalDistribution.central_value d = c /\ x0 <= c <= xl
        | None => exists i m, getitem x i = Ok m /\
                    NumericalDistribution.central_value d = PyFloat m
        end].
Proof.
rewrite /NumericalDistribution.__init__.
bind_inv => -[[c sup] Hbase]; bind_inv => -[xl Hxl]; bind_inv => -[x0 Hx0].
bind_inv => -[f1 _]; bind_inv => -[cdf1 _]; bind_inv => -[cdf2 _].
bind_inv => -[f2 _] [<-] /=.
exists x0, xl; case: cv Hbase => [c'|].
  rewrite Hx0 Hxl /=; case: ifP => // /andP[/RlebP lo /RlebP hi] [<- <-].
  by split.
bind_inv => -[i _]; bind_inv => -[m Hm]; rewrite Hx0 Hxl /= => -[<- <-].
by split=> //; exists i, m.
Qed.

(** C8 (amended).  The constructor of a numerical distribution does not
    look at the order of the grid: whatever the order of [x], it succeeds as
    soon as [x] has two points or more, [y] as many weights, and an explicit
    central value lies between [x[0]] and [x[-1]]; the support is
    [(x[0], x[-1])]. *)
Theorem NumericalDistribution_accepts_any_grid (x : seq R) (y : seq float64)
    (cv : option number) :
  (1 < size x)%N -> size y = size x ->
  (forall c : number, cv = Some c -> nth 0 x 0 <= c <= last 0 x) ->
  exists d,
    NumericalDistribution.__init__ x y cv = Ok d /\
    NumericalDistribution.support d = (nth 0 x 0, last 0 x).
Proof.
move=> sz2 szy cvok.
have [d [Hd Hs _ _]] := NumericalDistribution_init_Ok (ltnW sz2) szy cvok.
by exists d.
Qed.

(** On the grid [[0, 2, 1]], which is not increasing, with central value
    [0.5]. *)
Lemma NumericalDistribution_accepts_any_grid_witness :
  strictly_increasing [:: 0; 2; 1] = false /\
  exists d,
    NumericalDistribution.__init__ [:: 0; 2; 1] [:: Fin 1; Fin 4; Fin 1]
      (Some (PyFloat 0.5)) = Ok d /\
    NumericalDistribution.support d = (0, 1).
Proof.
split.
  rewrite /strictly_increasing /=.
  have /RltbP/negbTE -> : ~ 2 < 1 by lra.
  by rewrite andbF.
apply: (@NumericalDistribution_accepts_any_grid [:: 0; 2; 1]) => //.
by move=> c [<-] /=; lra.
Defined.

(** C8 as stated fails on the grid [[0, 2, 1]] with weights [[1, 1, 1]]:
    the grid is not increasing, and the constructor returns an object, with
    central value [0] (the first grid point of greatest weight) and support
    [(0, 1)]. *)
Lemma NumericalDistribution_unsorted_grid :
  strictly_increasing [:: 0; 2; 1] = false /\
  exists d,
    [/\ NumericalDistribution.__init__ [:: 0; 2; 1] [:: Fin 1; Fin 1; Fin 1]
          None = Ok d,
        NumericalDistribution.central_value d = PyFloat 0
      & NumericalDistribution.support d = (0, 1)].
Proof.
split.
  rewrite /strictly_increasing /=.
  have /RltbP/negbTE -> : ~ 2 < 1 by lra.
  by rewrite andbF.
have [d [Hd Hs _ Hc]] :=
  @NumericalDistribution_init_Ok [:: 0; 2; 1] [:: Fin 1; Fin 1; Fin 1] None
    isT erefl (fun c (e : None = Some c) => match e with end).
exists d; split=> //.
have [i Hi ->] := Hc erefl.
move: Hi; rewrite /np.argmax /= /fle_nan_last /fle /feq eqxx orbT /=.
by case=> <-.
Qed.

(** ** The central value lies in the support *)

(** On a strictly increasing grid every point lies between the first and
    the last. *)
Lemma grid_bounds (x : seq R) (i : nat) (x0 xi xl : R) :
  strictly_increasing x ->
  getitem x 0 = Ok x0 -> getitem x i = Ok xi -> getlast x = Ok xl ->
  x0 <= xi <= xl.
Proof.
move=> inc /(getitem_nth 0) [_ <-] /(getitem_nth 0) [ilt <-].
move=> /(getlast_nth 0) [_ <-].
have mono := sorted_ltn_nth Rltb_trans 0 inc.
split.
  case: i ilt => [|i] ilt; first by right.
  by apply/Rlt_le/RltbP; apply: mono; rewrite ?inE //; apply: ltn_trans ilt.
have szx : (0 < size x)%N by apply: leq_ltn_trans ilt.
case: (ltngtP i (size x).-1) => [lt|gt|eq].
- by apply/Rlt_le/RltbP; apply: mono; rewrite ?inE // prednK.
- by move: gt; rewrite ltnNge -ltnS prednK // ilt.
- by rewrite eq; right.
Qed.

Lemma fle_Fin (x y : R) : fle (Fin x) (Fin y) = Rleb x y.
Proof.
rewrite /fle /=; apply/idP/RlebP.
  by case/orP=> [/RltbP|/eqP ->]; lra.
by case=> [/RltbP -> //|->]; rewrite eqxx orbT.
Qed.

Lemma fle_refl_Fin (a : R) : fle (Fin a) (Fin a).
Proof. by rewrite /fle /= eqxx orbT. Qed.

(** A number lies between the two entries of the sorted pair it is part
    of, unless the other entry is [nan]. *)
Lemma sorted2_bounds (a : R) (b : float64) :
  ~~ np.isnan b ->
  fle (sorted2 (Fin a, b)).1 (Fin a) && fle (Fin a) (sorted2 (Fin a, b)).2.
Proof.
case: b => [y|[]|] //= _; rewrite /sorted2 /=; rewrite ?fle_refl_Fin //.
case: RltbP => /= h; rewrite fle_refl_Fin ?andbT //=.
  by rewrite /fle /=; move/RltbP: h => ->.
by rewrite /fle /=; apply/orP; case: (Rtotal_order a y) => [/RltbP ->|[->|]];
  [left|right; rewrite eqxx|lra].
Qed.

(** The standard deviation of an upper limit is [nan] at the limit [0]
    with the confidence level [1] only. *)
Lemma get_standard_deviation_nan (ppf : R -> R) (limit cl : R) :
  0 <= cl <= 1 -> ~ (limit = 0 /\ cl = 1) ->
  ~~ np.isnan (GaussianUpperLimit.get_standard_deviation ppf limit cl).
Proof.
move=> [cl0 cl1] ne; case: (Req_dec_T cl 1) => [e1|ne1]; last first.
  by rewrite get_standard_deviation_inside //; lra.
rewrite /GaussianUpperLimit.get_standard_deviation /scipy.norm_ppf.
have /eqP -> /= : 0.5 + cl / 2 = 1 by lra.
by have /eqP/negbTE -> : limit <> 0 by move=> l0; apply: ne.
Qed.

(** An operation leaves the objects it finds as they are. *)
Lemma perform_lookup (G : Type) (rng : RandomSource G) (op : operation G)
    (st : store) (i : nat) (d : distribution) :
  lookup st i = Some d -> lookup (perform op st).2 i = Some d.
Proof.
have grow (q : distribution) :
    lookup st i = Some d -> lookup (rcons st q) i = Some d.
  rewrite /lookup; case: (ltnP i (size st)) => [lt|ge].
    by rewrite -cats1 drop_cat lt; case: (drop i st).
  by rewrite drop_oversize.
case: op => [j|j sz g|j x|j n|js] /= Hd //.
- case: (lookup st j) => [p|] //=; case: (from_pd p n) => [q|e] //=.
  exact: grow.
- case: (objects st js) => [ps|] //=.
  case: (convolve_distributions ps) => [r|e] //=; case: ifP => _ //=.
  exact: grow.
Qed.

Lemma after_lookup (G : Type) (rng : RandomSource G) (ops : seq (operation G))
    (st : store) (i : nat) (d : distribution) :
  lookup st i = Some d -> lookup (after ops st) i = Some d.
Proof.
rewrite /after; elim: ops st => [|op ops IH] st //= Hd.
by apply: IH; apply: perform_lookup.
Qed.




(** ** Convolution *)

Lemma all_mem_object (s : seq object) : all (fun p => mem_object p s) s.
Proof.
elim: s => [|p s IH] //=; rewrite /mem_object /= /__eq__ eqxx /=.
by apply: sub_all IH => q; rewrite /mem_object => ->; rewrite orbT.
Qed.

Lemma set_diff_nil (s t : seq object) :
  all (fun p => mem_object p t) s -> set_diff s t = [::].
Proof. by rewrite /set_diff; elim: s => [|p s IH] //= /andP[-> /IH ->]. Qed.

Lemma set_diff_self (s : seq object) : set_diff s s = [::].
Proof. exact/set_diff_nil/all_mem_object. Qed.

Lemma np_sum_sq_ge0 (s : seq R) : 0 <= np.sum [seq v ^ 2 | v <- s].
Proof.
elim: s => [|v s IH] /=; first by right.
rewrite /np.sum /= -/(np.sum _).
by move: (np.sum _) IH (pow2_ge_0 v) => t /=; lra.
Qed.

(** With a float among them the numbers make an array of floats, and the
    sum of the squares is the one of the real numbers. *)
Lemma array_float (s : seq number) :
  has isinstance_float s ->
  np.array s = np.Float64Array [seq real_of v | v <- s].
Proof.
move=> hasf; rewrite /np.array.
have -> : nilp s = false by case: s hasf.
have -> : all fits_int64 s = false.
  apply/negbTE; rewrite -has_predC; apply: sub_has hasf => v.
  by case: v.
have -> // : all fits_uint64 s = false.
apply/negbTE; rewrite -has_predC; apply: sub_has hasf => v.
by case: v.
Qed.

Lemma sum_of_squares_float (s : seq number) :
  has isinstance_float s ->
  np.sum_of (np.square (np.array s))
  = PyFloat (np.sum [seq real_of v ^ 2 | v <- s]).
Proof. by move=> /array_float ->; rewrite /= -map_comp. Qed.

Section Gaussians.

Variable c : number.

Lemma all_Normal (ps : seq (nat * number)) :
  all (fun p => isinstance_Normal (self p)) [seq normal_object c p | p <- ps].
Proof. by elim: ps. Qed.

Lemma all_same_central (ps : seq (nat * number)) :
  all (fun p => py_eq (central_value (self p)) c)
      [seq normal_object c p | p <- ps].
Proof. by elim: ps => [|p ps IH] //=; rewrite IH py_eq_refl. Qed.

Lemma sigmas_of (ps : seq (nat * number)) :
  mapM (fun p => standard_deviation (self p)) [seq normal_object c p | p <- ps]
  = Ok [seq p.2 | p <- ps].
Proof. by elim: ps => [|p ps IH] //=; rewrite IH. Qed.

Lemma filter_Normal (ps : seq (nat * number)) :
  [seq p <- [seq normal_object c q | q <- ps] | isinstance_Normal (self p)]
  = [seq normal_object c q | q <- ps].
Proof. by apply/all_filterP; apply: all_Normal. Qed.

Lemma filter_Delta (ps : seq (nat * number)) :
  [seq p <- [seq normal_object c q | q <- ps] | isinstance_Delta (self p)]
  = [::].
Proof. by elim: ps. Qed.

(** The normal members combine into a normal distribution whose standard
    deviation is the root of the sum NumPy takes of the squares of theirs,
    if that sum has a root. *)
Lemma convolve_gaussians_normal (ps : seq (nat * number)) :
  ps != [::] ->
  _convolve_gaussians [seq normal_object c p | p <- ps]
  = (sigma <--
       math.sqrt (np.sum_of (np.square (np.array [seq p.2 | p <- ps]))) ;;
     Ok (Normal (NormalDistribution.__init__ c (PyFloat sigma)))).
Proof.
case: ps => [|p ps] // _; set s := p :: ps.
rewrite /_convolve_gaussians all_Normal.
have -> : getitem [seq normal_object c q | q <- s] 0 = Ok (normal_object c p).
  by [].
by rewrite bind_ret [central_value _]/= all_same_central sigmas_of bind_ret.
Qed.

(** The combination of two or more normal distributions, in closed form. *)
Lemma convolve_normals_closed (ps : seq (nat * number)) :
  (1 < size ps)%N ->
  convolve_distributions [seq normal_object c p | p <- ps]
  = if isinstance_float c then
      sigma <--
        math.sqrt (np.sum_of (np.square (np.array [seq p.2 | p <- ps]))) ;;
      Ok (Object (\max_(p <- ps) p.1).+1
            (Normal (NormalDistribution.__init__ c (PyFloat sigma))))
    else Raise AssertionError.
Proof.
move=> sz; rewrite /convolve_distributions size_map.
have -> : (size ps == 1%N) = false by case: (size ps) sz => [|[|n]].
case: ps sz => [|p ps] // sz; set s := p :: ps.
have -> : getitem [seq normal_object c q | q <- s] 0 = Ok (normal_object c p).
  by [].
rewrite bind_ret [central_value _]/=; case: ifP => // isf.
rewrite all_same_central filter_Normal filter_Delta.
rewrite convolve_gaussians_normal //; case: (math.sqrt _) => // sigma.
by rewrite !bind_ret set_diff_self [nilp _]/= /new_object big_map.
Qed.

End Gaussians.

(** C3.  The example of the claim as it is written, with the central value
    [0] and the standard deviations [3] and [4] as Python ints, raises an
    [AssertionError] at [isinstance(central_value, float)] where
    [Normal(0, 5)] was due.  With a float central value the standard
    deviations are squared and added in an array of NumPy, of [int64] when
    they are Python ints: two standard deviations [2 ** 32] combine to the
    standard deviation [0], and [3037000500] with [1], whose squares add up
    to a negative [int64], raise a [ValueError]. *)
Theorem convolve_normals_int_example :
  [/\ convolve_distributions
        [:: Object 1 (Normal (NormalDistribution.__init__ (PyInt 0) (PyInt 3)));
            Object 2 (Normal (NormalDistribution.__init__ (PyInt 0) (PyInt 4)))]
      = Raise AssertionError,
      convolve_distributions
        [:: Object 1 (Normal (NormalDistribution.__init__ (PyFloat 0)
                                (PyInt (2 ^ 32))));
            Object 2 (Normal (NormalDistribution.__init__ (PyFloat 0)
                                (PyInt (2 ^ 32))))]
      = Ok (Object 3 (Normal (NormalDistribution.__init__ (PyFloat 0)
                                (PyFloat 0))))
    & convolve_distributions
        [:: Object 1 (Normal (NormalDistribution.__init__ (PyFloat 0)
                                (PyInt 3037000500)));
            Object 2 (Normal (NormalDistribution.__init__ (PyFloat 0)
                                (PyInt 1)))]
      = Raise ValueError].
Proof.
split; first by [].
  have := @convolve_normals_closed (PyFloat 0)
            [:: (1%N, PyInt (2 ^ 32)); (2%N, PyInt (2 ^ 32))] isT.
  rewrite [map _ _]/= => ->; rewrite [isinstance_float _]/=.
  have -> : np.sum_of (np.square (np.array
              [seq p.2 | p <- [:: (1%N, PyInt (2 ^ 32));
                                  (2%N, PyInt (2 ^ 32))]])) = PyInt 0.
    by vm_compute.
  rewrite /math.sqrt [real_of _]/=.
  have /RltbP/negbTE -> : ~ 0 < 0 by lra.
  by rewrite bind_ret sqrt_0 unlock.
have := @convolve_normals_closed (PyFloat 0)
          [:: (1%N, PyInt 3037000500); (2%N, PyInt 1)] isT.
rewrite [map _ _]/= => ->; rewrite [isinstance_float _]/=.
have -> : np.sum_of (np.square (np.array
            [seq p.2 | p <- [:: (1%N, PyInt 3037000500); (2%N, PyInt 1)]]))
          = PyInt (- 9223372036709301615).
  by vm_compute.
rewrite /math.sqrt [real_of _]/=.
by have /RltbP -> : -9223372036709301615 < 0 by lra.
Qed.

(** With two members or more of the same float central value and none of
    them normal, the combination of the normal members is asked of an empty
    list, whose first element does not exist. *)
Lemma convolve_without_normal (p : object) (ps : seq object) :
  (0 < size ps)%N ->
  isinstance_float (central_value (self p)) ->
  all (fun q => py_eq (central_value (self q)) (central_value (self p)))
    (p :: ps) ->
  ~~ has (fun q => isinstance_Normal (self q)) (p :: ps) ->
  convolve_distributions (p :: ps) = Raise IndexError.
Proof.
move=> ps0 isf same noN; rewrite /convolve_distributions.
have -> : (size (p :: ps) == 1%N) = false.
  by rewrite /= eqSS; apply/negbTE; rewrite -lt0n.
rewrite /getitem drop0 bind_ret isf same.
have -> : [seq q <- p :: ps | isinstance_Normal (self q)] = [::].
  by apply: size0nil; apply/eqP; rewrite size_filter -leqn0 leqNgt -has_count.
by [].
Qed.

(** A list of one object: the object itself comes back. *)
Lemma convolve_single (p : object) : convolve_distributions [:: p] = Ok p.
Proof. by []. Qed.

(** C2.  [convolve_distributions([Uniform(0.0, 1.0), Uniform(0.0, 2.0)])]:
    two univariate distributions with the same float central value, and the
    call raises an [IndexError] where a distribution with central value [0]
    was due. *)
Theorem convolve_two_uniforms :
  convolve_distributions
    [:: Object 1 (Uniform (UniformDistribution.__init__ (PyFloat 0) 1));
        Object 2 (Uniform (UniformDistribution.__init__ (PyFloat 0) 2))]
  = Raise IndexError.
Proof. by apply: convolve_without_normal => //=; rewrite !py_eq_refl. Qed.

(** C10.  There is a list of two univariate distributions with the same
    central value and no normal member (two uniform distributions) on which
    [convolve_distributions] aborts: [_convolve_gaussians] is called on the
    empty list of normal members, the access to its first element raises an
    [IndexError], and no distribution is returned. *)
Theorem convolve_aborts_without_normal :
  exists ps : seq object,
    [/\ (1 < size ps)%N,
        forall p, List.In p ps -> central_value (self p) = PyFloat 1.5,
        forall p, List.In p ps -> ~~ isinstance_Normal (self p),
        _convolve_gaussians [seq p <- ps | isinstance_Normal (self p)]
          = Raise IndexError
      & convolve_distributions ps = Raise IndexError].
Proof.
exists [:: Object 1 (Uniform (UniformDistribution.__init__ (PyFloat 1.5) 1));
           Object 2 (Uniform (UniformDistribution.__init__ (PyFloat 1.5) 0.5))].
split=> //.
- by move=> p /= [<-|[<-|]].
- by move=> p /= [<-|[<-|]].
- by apply: convolve_without_normal => //=; rewrite !py_eq_refl.
Qed.

(** ** Log-density of the multivariate normal distribution *)

(** Continuity of finite sums and products, for the determinant along a
    segment of matrices. *)

Lemma continuity_eq (f g : R -> R) :
  (forall t, f t = g t) -> continuity f -> continuity g.
Proof. by move=> /functional_extensionality ->. Qed.

Lemma continuity_bigsum (I : Type) (r : seq I) (P : pred I)
    (F : I -> R -> R) :
  (forall i, continuity (F i)) ->
  continuity (fun t => (\sum_(i <- r | P i) F i t)%R).
Proof.
move=> cF; elim: r => [|i r IH].
  apply: (@continuity_eq (fun=> 0)); first by move=> t; rewrite big_nil.
  exact: continuity_const.
apply: (@continuity_eq
          (fun t => (if P i then F i t else 0)
                    + (\sum_(j <- r | P j) F j t)%R)).
  by move=> t; rewrite big_cons; case: (P i) => //; rewrite Rplus_0_l.
apply: (continuity_plus (fun t => if P i then F i t else 0)) => //.
by case: (P i) => //; exact: continuity_const.
Qed.

Lemma continuity_bigprod (I : Type) (r : seq I) (P : pred I)
    (F : I -> R -> R) :
  (forall i, continuity (F i)) ->
  continuity (fun t => (\prod_(i <- r | P i) F i t)%R).
Proof.
move=> cF; elim: r => [|i r IH].
  apply: (@continuity_eq (fun=> 1)); first by move=> t; rewrite big_nil.
  exact: continuity_const.
apply: (@continuity_eq
          (fun t => (if P i then F i t else 1)
                    * (\prod_(j <- r | P j) F j t)%R)).
  by move=> t; rewrite big_cons; case: (P i) => //; rewrite Rmult_1_l.
apply: (continuity_mult (fun t => if P i then F i t else 1)) => //.
by case: (P i) => //; exact: continuity_const.
Qed.

Lemma continuity_affine (a b : R) : continuity (fun t => t * a + (1 - t) * b).
Proof. by reg. Qed.

Section Determinant.

Variable n : nat.
Implicit Types (A : 'M[R]_n) (v : 'rV[R]_n).

Lemma continuity_det_homotopy A :
  continuity (fun t => (\det (homotopy A t))%R).
Proof.
apply: (@continuity_eq
          (fun t => (\sum_(s : 'S_n) (-1) ^+ s *
             \prod_i (t * A i (s i) + (1 - t) * (i == s i)%:R))%R)).
  move=> t; rewrite /determinant; apply: eq_bigr => s _; congr (_ * _)%R.
  by apply: eq_bigr => i _; rewrite /homotopy !mxE.
apply: continuity_bigsum => s.
apply: (continuity_mult (fun=> ((-1) ^+ s)%R)); first exact: continuity_const.
by apply: continuity_bigprod => i; exact: continuity_affine.
Qed.

(** A matrix whose eigenvalues are all positive has a positive determinant:
    along the segment from the identity no matrix is singular, so the
    determinant, which is [1] at the identity, cannot reach zero. *)
Lemma det_gt0 A :
  MultivariateNormalDistribution.eigvals_positive A -> 0 < (\det A)%R.
Proof.
move=> posA; case: (Rlt_dec 0 (\det A)%R) => // /Rnot_lt_le det_le0.
have f0 : (\det (homotopy A 0))%R = 1.
  by rewrite /homotopy scale0r add0r subr0 scale1r det1.
have f1 : (\det (homotopy A 1))%R = (\det A)%R.
  by rewrite /homotopy scale1r subrr scale0r addr0.
have [] := IVT_cor (fun t => (\det (homotopy A t))%R) 0 1
             (continuity_det_homotopy A).
- lra.
- by rewrite f0 f1; lra.
move=> z [[z0 z1] /eqP/det0P[v vn0]].
rewrite /homotopy mulmxDr -!scalemxAr mulmx1 => vM.
case: (Req_dec_T z 0) => [zeq0|zneq0].
  by move: vM vn0; rewrite zeq0 scale0r add0r subr0 scale1r => ->; rewrite eqxx.
have zunit : (z : R) != 0 by apply/eqP.
have eig : (v *m A = (- ((1 - z) / z)) *: v)%R.
  apply: (scalerI zunit); rewrite scalerA mulrN mulrCA divff // mulr1 scaleNr.
  by apply/eqP; rewrite -subr_eq0 opprK; apply/eqP.
have vn0' : (v != 0%R) || ((0 : 'rV[R]_n)%R != 0%R) by rewrite vn0.
have := posA (- ((1 - z) / z))%R 0 v 0%R vn0'.
rewrite !scaler0 subr0 mul0mx scale0r addr0 => /(_ eig erefl).
have : 0 <= (1 - z) / z.
  by apply: Rmult_le_pos; [lra | apply/Rlt_le/Rinv_0_lt_compat; lra].
by rewrite -[(- _)%R]/(- ((1 - z) / z)); lra.
Qed.

Lemma sumsq_ge0 v : 0 <= (v *m v^T)%R ord0 ord0.
Proof.
rewrite mxE; elim/big_rec: _ => [|i y _ y0]; first by right.
rewrite mxE; have := Rle_0_sqr (v ord0 i); rewrite /Rsqr.
by rewrite -[(_ + _)%R]/(v ord0 i * v ord0 i + y); lra.
Qed.

Lemma posdef_eigvals A :
  positive_definite A -> MultivariateNormalDistribution.eigvals_positive A.
Proof.
move=> [symA pdA] a b u w nz eigu eigw; left.
have form0 (v : 'rV[R]_n) : 0 <= (v *m A *m v^T)%R ord0 ord0.
  case: (altP (v =P 0%R)) => [->|/pdA/Rlt_le //].
  by rewrite !mul0mx mxE; right.
have pos : 0 < (u *m A *m u^T)%R ord0 ord0 + (w *m A *m w^T)%R ord0 ord0.
  by case/orP: nz => /pdA; have := form0 u; have := form0 w; lra.
have cross : (\sum_j w ord0 j * u^T j ord0 = \sum_j u ord0 j * w^T j ord0)%R.
  by apply: eq_bigr => j _; rewrite !mxE mulrC.
move: pos; rewrite eigu eigw mulmxBl mulmxDl -!scalemxAl !mxE cross.
rewrite -[(_ - _)%R]/(a * _ - b * _) -[(_ + _)%R]/(b * _ + a * _).
have := sumsq_ge0 u; have := sumsq_ge0 w; rewrite !mxE.
move: (\sum_j _)%R (\sum_j _)%R (\sum_j _)%R => s t c.
rewrite -[s]/(s : R) -[t]/(t : R) -[c]/(c : R).
move: (s : R) (t : R) (c : R) => s' t' c' s0 t0 pos.
by case: (Rlt_dec 0 a) => // /Rnot_lt_le a0; nra.
Qed.

Lemma posdef_det_gt0 A : positive_definite A -> 0 < (\det A)%R.
Proof. by move=> /posdef_eigvals; exact: det_gt0. Qed.

End Determinant.

(** The rescaling by the marginal standard deviations: [err] is the vector
    of the square roots of the diagonal, [D] the diagonal matrix of [err]
    and [Dinv] its inverse. *)
Section Rescaling.

Variable n : nat.
Variable A : 'M[R]_n.
Hypothesis diag_gt0 : forall i, 0 < A i i.
Hypothesis det_gt0A : 0 < (\det A)%R.

Let err : 'rV[R]_n := np.sqrt (np.diag A).
Let D : 'M[R]_n := diag_mx err.
Let Dinv : 'M[R]_n := diag_mx (\row_i / err ord0 i).

Lemma err_gt0 i : 0 < err ord0 i.
Proof. by rewrite /err !mxE; apply: sqrt_lt_R0. Qed.

Lemma sqrt_diag_neq0 i : sqrt (A i i) != 0.
Proof.
apply/eqP => e0; have := err_gt0 i.
by rewrite /err !mxE e0; apply: Rlt_irrefl.
Qed.

Lemma DinvK : (Dinv *m D = 1%:M)%R.
Proof.
rewrite /Dinv /D mulmx_diag -diag_const_mx; congr diag_mx.
by apply/rowP => i; rewrite !mxE; apply: R_mulVf; apply: sqrt_diag_neq0.
Qed.

Lemma DKinv : (D *m Dinv = 1%:M)%R.
Proof.
rewrite /Dinv /D mulmx_diag -diag_const_mx; congr diag_mx.
by apply/rowP => i; rewrite !mxE mulrC; apply: R_mulVf; apply: sqrt_diag_neq0.
Qed.

(** [covariance / scale_matrix] is [Dinv * A * Dinv]. *)
Lemma divide_outer : np.divide A (np.outer err err) = (Dinv *m A *m Dinv)%R.
Proof.
apply/matrixP => i j; rewrite /Dinv mul_mx_diag mul_diag_mx !mxE.
by rewrite /Rdiv Rinv_mult /GRing.mul /=; ring.
Qed.

(** [x / err] is [x * Dinv]. *)
Lemma divide_err (x : 'rV[R]_n) : np.divide x err = (x *m Dinv)%R.
Proof. by apply/rowP => j; rewrite /Dinv mul_mx_diag !mxE. Qed.

Lemma det_Dinv_gt0 : 0 < (\det Dinv)%R.
Proof.
rewrite /Dinv det_diag; elim/big_rec: _ => [|i y _ y0]; first exact: Rlt_0_1.
rewrite mxE; apply: Rmult_lt_0_compat => //.
by apply: Rinv_0_lt_compat; apply: err_gt0.
Qed.

Lemma det_rescaled :
  (\det (Dinv *m A *m Dinv))%R = (\det Dinv)%R ^ 2 * (\det A)%R.
Proof.
rewrite !det_mulmx; move: (\det Dinv)%R (\det A)%R => a b.
by rewrite /GRing.mul /=; ring.
Qed.

Lemma unitA : A \in unitmx.
Proof.
rewrite unitmxE unitfE; apply/eqP => d0.
by move: det_gt0A; rewrite d0; apply: Rlt_irrefl.
Qed.

Lemma invmx_rescaled : invmx (Dinv *m A *m Dinv) = (D *m invmx A *m D)%R.
Proof.
have inv1 : (D *m invmx A *m D *m (Dinv *m A *m Dinv) = 1%:M)%R.
  rewrite !mulmxA -[(_ *m D *m Dinv)%R]mulmxA DKinv mulmx1.
  by rewrite -[(_ *m invmx A *m A)%R]mulmxA mulVmx ?unitA // mulmx1 DKinv.
have [_ unitC] := mulmx1_unit inv1.
by rewrite -[LHS]mul1mx -inv1 -mulmxA mulmxV // mulmx1.
Qed.

(** The quadratic form of the deviation is the same before and after the
    rescaling. *)
Lemma maha_rescaled (dev : 'rV[R]_n) :
  (dev *m Dinv *m invmx (Dinv *m A *m Dinv) *m (dev *m Dinv)^T =
   dev *m invmx A *m dev^T)%R.
Proof.
rewrite invmx_rescaled trmx_mul tr_diag_mx !mulmxA.
rewrite -[(dev *m Dinv *m D)%R]mulmxA DinvK mulmx1.
by rewrite -[(_ *m D *m Dinv)%R]mulmxA DKinv mulmx1.
Qed.

End Rescaling.

Lemma ln_quotient (a b : R) : 0 < a -> 0 < b -> ln (a / b) = ln a - ln b.
Proof.
move=> a0 b0; have ib0 : 0 < / b by apply: Rinv_0_lt_compat.
by rewrite /Rdiv ln_mult // ln_Rinv.
Qed.

(** The constructor accepts a positive definite covariance. *)
Lemma mvn_init_posdef (n : nat) (mu : 'rV[R]_n) (S : 'M[R]_n) :
  positive_definite S ->
  MultivariateNormalDistribution.__init__ mu S
  = Ok (MultivariateNormalDistribution.Build mu None S).
Proof.
move=> /posdef_eigvals pos; rewrite /MultivariateNormalDistribution.__init__.
by case: excluded_middle_informative.
Qed.

(** C4.  For a positive definite covariance matrix with positive diagonal
    and every point [x], the construction succeeds and
    [MultivariateNormalDistribution.logpdf] (rescale [x] and the mean by the
    marginal standard deviations, take the log-density of the multivariate
    normal law for the rescaled matrix, add half the logarithm of the ratio
    of the determinants) returns the log-density of the multivariate normal
    law with the mean [central_value] and the covariance itself at [x]. *)
Theorem mvn_logpdf_rescaling (n : nat) (mu x : 'rV[R]_n) (S : 'M[R]_n) :
  positive_definite S -> (forall i, 0 < S i i) ->
  exists self,
    MultivariateNormalDistribution.__init__ mu S = Ok self /\
    MultivariateNormalDistribution.logpdf self x
    = Ok (Fin (scipy.multivariate_normal_logpdf x mu S)).
Proof.
move=> pdS dS; have detS := posdef_det_gt0 pdS.
eexists; split; first exact: mvn_init_posdef.
rewrite /MultivariateNormalDistribution.logpdf /=.
rewrite divide_outer !divide_err /np.linalg_det det_rescaled.
set Dinv := diag_mx _; have detD := det_Dinv_gt0 dS; rewrite -/Dinv in detD.
have detC : 0 < (\det Dinv)%R ^ 2 * (\det S)%R.
  by apply: Rmult_lt_0_compat => //; apply: pow_lt.
rewrite /fdiv; have /negbTE -> : (\det S)%R != 0.
  by apply/eqP => d0; move: detS; rewrite d0; apply: Rlt_irrefl.
rewrite /math.log.
have /RltbP -> : 0 < (\det Dinv)%R ^ 2 * (\det S)%R / (\det S)%R.
  exact: Rdiv_lt_0_compat.
rewrite /=; have /negbTE -> : (2 : R) != 0 by apply/eqP; lra.
congr (Ok (Fin _)); rewrite /scipy.multivariate_normal_logpdf.
rewrite -mulmxBl (maha_rescaled dS detS) ln_quotient // det_rescaled /=.
rewrite -/Dinv.
move: (ln (_ * _)) (ln (\det S)%R) (_ ord0 ord0) => a b c.
by rewrite -[c]/(c : R); move: (c : R) => c'; lra.
Qed.

Lemma S2_posdef : positive_definite S2.
Proof.
split; first by apply/matrixP => i j; rewrite !mxE eq_sym.
move=> v vn0.
have vne : v ord0 ord0 <> 0 \/ v ord0 (lift ord0 ord0) <> 0.
  case: (Req_dec_T (v ord0 ord0) 0) => [a0|]; last by left.
  case: (Req_dec_T (v ord0 (lift ord0 ord0)) 0) => [b0|]; last by right.
  case/eqP: vn0; apply/rowP => j; rewrite mxE.
  by case: (unliftP ord0 j) => [k|] ->; rewrite ?ord1.
rewrite mxE !big_ord_recl big_ord0 !mxE !big_ord_recl !big_ord0 !mxE /=.
move: (v ord0 ord0) (v ord0 (lift ord0 ord0)) vne => a b ab.
rewrite /GRing.add /GRing.mul /GRing.zero /=.
have hs := Rle_0_sqr (a + b); have ha := Rle_0_sqr a; have hb := Rle_0_sqr b.
by case: ab => /Rsqr_pos_lt; move: hs ha hb; rewrite /Rsqr; nra.
Qed.

Lemma S2_diag i : 0 < S2 i i.
Proof. by rewrite mxE eqxx; lra. Qed.

(** At the covariance [[[2, 1], [1, 2]]], the mean [(1, 1)] and the point
    [(3, 3)]. *)
Lemma mvn_logpdf_rescaling_witness :
  [/\ positive_definite S2, forall i, 0 < S2 i i
    & exists self,
        MultivariateNormalDistribution.__init__ (const_mx 1) S2 = Ok self /\
        MultivariateNormalDistribution.logpdf self (const_mx 3)
        = Ok (Fin (scipy.multivariate_normal_logpdf (const_mx 3) (const_mx 1)
                     S2))].
Proof.
split; [exact: S2_posdef | exact: S2_diag |].
exact: (mvn_logpdf_rescaling _ _ S2_posdef S2_diag).
Defined.

(** * Further properties of the distributions

    What the code shows beyond the statements above: the behaviour at the
    edges of the parameter ranges, the agreement between sampling and
    density, and how the operations compose. *)

(** ** Lists and arrays *)

Lemma mapM_nth (A B : Type) (f : A -> result B) (a0 : A) (b0 : B)
    (s : seq A) (t : seq B) (i : nat) :
  mapM f s = Ok t -> (i < size s)%N -> f (nth a0 s i) = Ok (nth b0 t i).
Proof.
elim: s t i => [|a s IH] t i //=.
case Ea: (f a) => [b|] //=; case Es: (mapM f s) => [bs|] //= [<-].
by case: i => [|i] //= lt; apply: IH.
Qed.

Lemma mapM_Forall (A B : Type) (f : A -> result B) (g : A -> B) (s : seq A) :
  List.Forall (fun a => f a = Ok (g a)) s -> mapM f s = Ok [seq g a | a <- s].
Proof. by elim=> [|a s' fa _ IH] //=; rewrite fa IH. Qed.

Lemma mapM_head (A B : Type) (f : A -> result B) (a : A) (s : seq A)
    (t : seq B) (b : B) :
  mapM f (a :: s) = Ok t -> getitem t 0 = Ok b -> f a = Ok b.
Proof.
rewrite /=; case: (f a) => //= b'; case: (mapM f s) => //= bs [<-].
by rewrite /getitem /= => -[->].
Qed.

Lemma Forall_map (A B : Type) (f : A -> B) (P : B -> Prop) (s : seq A) :
  List.Forall (fun a => P (f a)) s -> List.Forall P [seq f a | a <- s].
Proof. by elim=> [|a s' Pa _ IH] /=; constructor. Qed.

Lemma all_head (A : Type) (P : pred A) (a0 : A) (s : seq A) :
  (0 < size s)%N -> all P s -> P (head a0 s).
Proof. by case: s => [|a s] //= _ /andP[]. Qed.

Lemma all_last (A : Type) (P : pred A) (a0 : A) (s : seq A) :
  (0 < size s)%N -> all P s -> P (last a0 s).
Proof.
case: s => [|a s] //= _ /andP[Pa Ps].
by elim: s a Pa Ps => [|b s IH] a Pa //= /andP[Pb Ps]; apply: IH.
Qed.

Lemma has_last (A : Type) (P : pred A) (a0 : A) (s : seq A) :
  (0 < size s)%N -> P (last a0 s) -> has P s.
Proof.
case: s => [|a s] //= _; elim: s a => [|b s IH] a /=; first by move=> ->.
by move=> /IH ->; rewrite orbT.
Qed.

Lemma size_gt1 (A : Type) (s : seq A) :
  (1 < size s)%N -> (size s == 1%N) = false.
Proof. by case: (size s) => [|[|n]]. Qed.

(** A vectorized function returns, entry by entry, what the function
    returns. *)
Lemma vectorize_entrywise (A B : Type) (f : A -> result B) (a0 : A) (b0 : B)
    (xs : seq A) (ys : seq B) :
  np.vectorize f (Array xs) = Ok (Array ys) ->
  size ys = size xs /\
  forall i, (i < size xs)%N ->
    np.vectorize f (Scalar (nth a0 xs i)) = Ok (Scalar (nth b0 ys i)).
Proof.
case: xs => [|x xs] //; rewrite /np.vectorize /nd_mapM.
case E: (mapM f (x :: xs)) => [bs|] //= [<-]; split; first exact: mapM_size E.
by move=> i lt; rewrite (mapM_nth a0 b0 E).
Qed.

(** The draws of a source within the unit interval. *)
Lemma draws_unit_interval (G : Type) (rng : RandomSource G) (n : nat) (g : G) :
  unit_interval rng ->
  List.Forall (fun u => 0 <= u < 1) (draws (@random_sample G rng) n g).1.
Proof.
move=> ui; elim: n g => [|n IH] g /=; first by constructor.
have := ui g; case: (random_sample g) => u g1 /= u01.
by have := IH g1; case: (draws _ n g1) => us g2 /= Hus; constructor.
Qed.

Lemma constant_source_unit_interval :
  unit_interval (constant_source (1 / 2) 0).
Proof. by move=> g /=; lra. Qed.

(** ** The uniform distribution *)

(** X1.  [UniformDistribution._logpdf] returns for every half range and
    every point: the logarithm is taken only between the bounds of the
    range, where [2 * half_range] is positive, so [math.log] never fails;
    with a half range that is zero or negative every point has log-density
    minus infinity. *)
Theorem Uniform_logpdf_total (c : number) (h x : R) :
  exists v : float64,
    UniformDistribution._logpdf (UniformDistribution.__init__ c h) x = Ok v /\
    (h <= 0 -> v = NegInf).
Proof.
rewrite /UniformDistribution._logpdf /=.
case: RltbP => [lo|lo] /=; first by exists NegInf.
case: RlebP => [hi|hi] /=; first by exists NegInf.
have /RltbP -> /= : 0 < 2 * h by lra.
by eexists; split; [reflexivity|lra].
Qed.

(** X2.  With a random source whose uniform draws lie in [[0, 1)], a
    uniform distribution of positive half range returns a sample of the
    shape asked for, every value of which lies in the half-open range
    [[c - h, c + h)] and has the log-density [-log(2 h)]: sampling and
    density agree on the range. *)
Theorem Uniform_get_random_in_range (G : Type) (rng : RandomSource G)
    (c : number) (h : R) (size : option nat) (g : G) :
  unit_interval rng -> 0 < h ->
  let self := UniformDistribution.__init__ c h in
  exists (v : ndarray float64) (g' : G),
    [/\ UniformDistribution.get_random self size g = Ok (v, g'),
        shape v = size
      & nd_all (fun a => exists r : R,
                  [/\ a = Fin r, c - h <= r < c + h
                    & UniformDistribution._logpdf self r
                      = Ok (Fin (- ln (2 * h)))]) v].
Proof.
move=> ui h0 self.
have sample_ok (u : R) : 0 <= u < 1 ->
    exists r : R,
      [/\ Fin ((c - h) + ((c + h) - (c - h)) * u) = Fin r, c - h <= r < c + h
        & UniformDistribution._logpdf self r = Ok (Fin (- ln (2 * h)))].
  move=> [u0 u1]; eexists; split; first reflexivity.
    by split; nra.
  rewrite /UniformDistribution._logpdf /=.
  have /RltbP/negbTE -> : ~ c - h + (c + h - (c - h)) * u < c - h by nra.
  have /RlebP/negbTE -> /= : ~ c + h <= c - h + (c + h - (c - h)) * u by nra.
  by have /RltbP -> : 0 < 2 * h by lra.
rewrite /UniformDistribution.get_random /random_uniform /sample.
case: size => [n|] /=.
  have := draws_size (@random_sample G rng) n g.
  have := draws_unit_interval n g ui.
  case: (draws random_sample n g) => us g1 /= Hus szus.
  exists (Array [seq Fin v | v <- [seq c - h + (c + h - (c - h)) * v | v <- us]]).
  exists g1; split=> //=; first by rewrite !size_map szus.
  apply: Forall_map; apply: Forall_map.
  by apply: List.Forall_impl Hus => u; apply: sample_ok.
have := ui g; case: (random_sample g) => u g1 /= u01.
by eexists; exists g1; split=> //=; apply: sample_ok.
Qed.

(** Two draws from [Uniform(0, 1)] with a source that always draws [1/2]. *)
Lemma Uniform_get_random_in_range_witness :
  exists (v : ndarray float64) (g' : unit),
    UniformDistribution.get_random (rng := constant_source (1 / 2) 0)
      (UniformDistribution.__init__ (PyFloat 0) 1) (Some 2%N) tt = Ok (v, g')
    /\ shape v = Some 2%N.
Proof.
have [v [g' [Hv Hs _]]] :=
  @Uniform_get_random_in_range unit (constant_source (1 / 2) 0) (PyFloat 0) 1
    (Some 2%N) tt constant_source_unit_interval Rlt_0_1.
by exists v, g'.
Defined.

(** ** Arrays of arguments *)

(** X3.  For every class but [DeltaDistribution], the log-density of an
    array is the array of the log-densities of its entries: when [logpdf]
    returns an array on an array, it has the same length, and each entry is
    what [logpdf] returns on that entry alone. *)
Theorem logpdf_entrywise (p : distribution) (xs : seq R) (ys : seq float64) :
  ~~ isinstance_Delta p ->
  logpdf p (Array xs) = Ok (Array ys) ->
  size ys = size xs /\
  forall i, (i < size xs)%N ->
    logpdf p (Scalar (nth 0 xs i)) = Ok (Scalar (nth NaN ys i)).
Proof.
case: p => [d|d|d|d|d|d|d] //= _.
- exact: vectorize_entrywise.
- case=> <-; split; first by rewrite size_map.
  by move=> i lt; rewrite (nth_map 0).
- exact: vectorize_entrywise.
- exact: vectorize_entrywise.
- exact: vectorize_entrywise.
- rewrite /NumericalDistribution.logpdf /scipy.call /=.
  case E: (mapM _ _) => [bs|] //= [<-].
  split; first by rewrite (mapM_size E) size_map.
  move=> i lt; rewrite -(nth_map 0 NaN Fin) //.
  by rewrite (mapM_nth NaN NaN E) // size_map.
Qed.

(** [Uniform(0, 1)] on the array [[0, 2]]. *)
Lemma logpdf_entrywise_witness :
  logpdf (Uniform (UniformDistribution.__init__ (PyFloat 0) 1)) (Scalar 2)
  = Ok (Scalar NegInf).
Proof.
have E : logpdf (Uniform (UniformDistribution.__init__ (PyFloat 0) 1))
           (Array [:: 0; 2]) = Ok (Array [:: Fin (- ln (2 * 1)); NegInf]).
  rewrite /= /UniformDistribution.logpdf /= /UniformDistribution._logpdf /=.
  have /RltbP/negbTE -> : ~ 0 < 0 - 1 by lra.
  have /RlebP/negbTE -> /= : ~ 0 + 1 <= 0 by lra.
  have /RltbP -> /= : 0 < 2 * 1 by lra.
  have /RlebP -> : 0 + 1 <= 2 by lra.
  by rewrite orbT.
exact: (proj2 (logpdf_entrywise (p := Uniform _) isT E) 1%N isT).
Defined.

(** ** The delta distribution *)

(** X4.  A delta distribution samples without a random draw: the state of
    the generator is untouched, the sample has the shape asked for, and
    every value is the central value, at which the log-density is [0]. *)
Theorem Delta_get_random_constant (G : Type) (rng : RandomSource G)
    (c : number) (size : option nat) (g : G) :
  let self := DeltaDistribution.__init__ c in
  exists v : ndarray float64,
    [/\ DeltaDistribution.get_random self size g = Ok (v, g),
        shape v = size
      & nd_all (fun a => exists r : R,
                  [/\ a = Fin r, r = c
                    & DeltaDistribution.logpdf self (Scalar r)
                      = Ok (Scalar (Fin 0))]) v].
Proof.
move=> self.
have ok : exists r : R,
    [/\ Fin c = Fin r, r = c
      & DeltaDistribution.logpdf self (Scalar r) = Ok (Scalar (Fin 0))].
  by exists c; split=> //; rewrite /DeltaDistribution.logpdf /= eqxx.
case: size => [n|] /=; last by eexists; split.
eexists; split=> //=; first by rewrite size_nseq.
by rewrite Rmult_1_r; elim: n => [|n IH] /=; constructor.
Qed.

(** ** The normal distribution *)

(** X5.  The log-density of a normal distribution with [sigma > 0] is
    symmetric about the central value and greatest there, and nowhere
    else. *)
Theorem Normal_logpdf_mode (c s : number) (x : R) :
  0 < s ->
  let self := NormalDistribution.__init__ c s in
  NormalDistribution.logpdf self (Scalar (c - (x - c)))
  = NormalDistribution.logpdf self (Scalar x) /\
  exists a b : R,
    [/\ NormalDistribution.logpdf self (Scalar x) = Ok (Scalar (Fin a)),
        NormalDistribution.logpdf self (Scalar (c : R)) = Ok (Scalar (Fin b)),
        a <= b
      & a = b -> x = c].
Proof.
move=> s0 self; rewrite /NormalDistribution.logpdf /= /scipy.norm_logpdf.
have /RltbP -> : 0 < s by [].
split; first by congr (Ok (Scalar (Fin _))); field; lra.
eexists; eexists; split; try reflexivity.
  have := pow2_ge_0 ((x - c) / s).
  have -> : (c - c) / s = 0 by field; lra.
  by move: (((x - c) / s) ^ 2) (ln _) (ln _) => t u v; lra.
have -> : (c - c) / s = 0 by field; lra.
move=> e; have {}e : ((x - c) / s) ^ 2 = 0.
  by move: (((x - c) / s) ^ 2) (ln _) (ln _) e => t u v; lra.
have e0 : (x - c) / s = 0 by move: e => /=; nra.
have : x - c = (x - c) / s * s by field; lra.
by rewrite e0; lra.
Qed.

(** [Normal(0, 1)] at [-2] and [2]. *)
Lemma Normal_logpdf_mode_witness :
  NormalDistribution.logpdf
    (NormalDistribution.__init__ (PyFloat 0) (PyFloat 1)) (Scalar (0 - (2 - 0)))
  = NormalDistribution.logpdf
      (NormalDistribution.__init__ (PyFloat 0) (PyFloat 1)) (Scalar 2).
Proof.
exact: (proj1 (@Normal_logpdf_mode (PyFloat 0) (PyFloat 1) 2 Rlt_0_1)).
Defined.

(** X6.  Sampling a normal distribution raises a [ValueError] when the
    standard deviation is negative (the constructor accepts it), and
    otherwise returns a sample of the shape asked for. *)
Theorem Normal_get_random_scale (G : Type) (rng : RandomSource G)
    (c s : number) (size : option nat) (g : G) :
  let self := NormalDistribution.__init__ c s in
  (s < 0 -> NormalDistribution.get_random self size g = Raise ValueError) /\
  (0 <= s ->
   exists (v : ndarray float64) (g' : G),
     NormalDistribution.get_random self size g = Ok (v, g') /\ shape v = size).
Proof.
rewrite /NormalDistribution.get_random /random_normal /=; split=> s0.
  by have /RltbP -> : s < 0 by [].
have /RltbP/negbTE -> /= : ~ s < 0 by lra.
rewrite /sample; case: size => [n|].
  have := draws_size (@standard_normal G rng) n g.
  case: (draws standard_normal n g) => zs g1 /= sz.
  by eexists; eexists; split; [reflexivity|rewrite /= !size_map sz].
by case: (standard_normal g) => z g1 /=; eexists; eexists; split.
Qed.

(** ** The asymmetric normal distribution *)

Lemma sqrt_2PI_gt0 : 0 < sqrt (2 * PI).
Proof. by apply: sqrt_lt_R0; have := PI_RGT_0; lra. Qed.

(** The density of a normal law at its mean. *)
Lemma norm_pdf_mode (c s : R) :
  0 < s -> scipy.norm_pdf c c s = Fin (/ (sqrt (2 * PI) * s)).
Proof.
move=> s0; rewrite /scipy.norm_pdf; have /RltbP -> : 0 < s by [].
have -> : - ((c - c) / s) ^ 2 / 2 = 0 by field; lra.
by rewrite exp_0; congr Fin; field; have := sqrt_2PI_gt0; lra.
Qed.

Lemma AsymmetricNormal_logpdf_Ok (c : number) (sup : R * R) (r l x : R) :
  0 < r -> 0 < l ->
  AsymmetricNormalDistribution._logpdf
    (AsymmetricNormalDistribution.Build c sup r l) x
  = Ok (Fin (two_piece_logpdf c l r x)).
Proof.
move=> r0 l0; have k0 := sqrt_2PI_gt0.
rewrite /AsymmetricNormalDistribution._logpdf /= !norm_pdf_mode //.
rewrite /two_piece_logpdf /scipy.norm_logpdf /=.
have kr : 0 < / (sqrt (2 * PI) * r) by apply: Rinv_0_lt_compat; nra.
have kl : 0 < / (sqrt (2 * PI) * l) by apply: Rinv_0_lt_compat; nra.
have /eqP/negbTE -> : / (sqrt (2 * PI) * l) + / (sqrt (2 * PI) * r) <> 0 by lra.
have lr : 0 < / (l + r) by apply: Rinv_0_lt_compat; lra.
have el : 2 * / (sqrt (2 * PI) * r)
          / (/ (sqrt (2 * PI) * l) + / (sqrt (2 * PI) * r)) = 2 / (l + r) * l.
  by field; lra.
have er : 2 * / (sqrt (2 * PI) * l)
          / (/ (sqrt (2 * PI) * l) + / (sqrt (2 * PI) * r)) = 2 / (l + r) * r.
  by field; lra.
have p2 : 0 < 2 / (l + r) by rewrite /Rdiv; nra.
case: RltbP => _.
  rewrite el /math.log; have /RltbP -> /= : 0 < 2 / (l + r) * l by nra.
  have /RltbP -> /= : 0 < l by [].
  by rewrite ln_mult //; congr (Ok (Fin _)); lra.
rewrite er /math.log; have /RltbP -> /= : 0 < 2 / (l + r) * r by nra.
have /RltbP -> /= : 0 < r by [].
by rewrite ln_mult //; congr (Ok (Fin _)); lra.
Qed.

(** X7.  With positive deviations the log-density of an asymmetric normal
    distribution is that of the two-piece normal law:
    [log(2 / (l + r)) - log(sqrt(2 pi)) - ((x - c) / s)^2 / 2], where [s] is
    the left deviation below the central value and the right one from it
    on: with the scale factors of the code the density is continuous at
    the central value. *)
Theorem AsymmetricNormal_logpdf_two_piece (c : number) (r l x : R) :
  0 < r -> 0 < l ->
  exists self : AsymmetricNormalDistribution.t,
    AsymmetricNormalDistribution.__init__ c r l = Ok self /\
    AsymmetricNormalDistribution._logpdf self x
    = Ok (Fin (two_piece_logpdf c l r x)).
Proof.
move=> r0 l0; rewrite /AsymmetricNormalDistribution.__init__.
have /RltbP/negbTE -> : ~ r < 0 by lra.
have /RltbP/negbTE -> /= : ~ l < 0 by lra.
by eexists; split; [reflexivity|apply: AsymmetricNormal_logpdf_Ok].
Qed.

(** [AsymmetricNormal(0, 1, 2)] at [3]. *)
Lemma AsymmetricNormal_logpdf_two_piece_witness :
  exists self : AsymmetricNormalDistribution.t,
    AsymmetricNormalDistribution.__init__ (PyFloat 0) 1 2 = Ok self /\
    AsymmetricNormalDistribution._logpdf self 3
    = Ok (Fin (two_piece_logpdf 0 2 1 3)).
Proof.
have h2 : 0 < 2 by lra.
exact: (@AsymmetricNormal_logpdf_two_piece (PyFloat 0) 1 2 3 Rlt_0_1 h2).
Defined.

(** X8.  With equal positive deviations an asymmetric normal distribution
    has the log-density of the normal distribution with that standard
    deviation. *)
Theorem AsymmetricNormal_symmetric (c s : number) (x : R) :
  0 < s ->
  exists self : AsymmetricNormalDistribution.t,
    AsymmetricNormalDistribution.__init__ c s s = Ok self /\
    AsymmetricNormalDistribution.logpdf self (Scalar x)
    = NormalDistribution.logpdf (NormalDistribution.__init__ c s) (Scalar x).
Proof.
move=> s0; rewrite /AsymmetricNormalDistribution.__init__.
have /RltbP/negbTE -> /= : ~ s < 0 by lra.
eexists; split; first reflexivity.
rewrite /AsymmetricNormalDistribution.logpdf /np.vectorize /nd_mapM.
rewrite AsymmetricNormal_logpdf_Ok // /NormalDistribution.logpdf /=.
rewrite /scipy.norm_logpdf /two_piece_logpdf; have /RltbP -> : 0 < s by [].
rewrite if_same; congr (Ok (Scalar (Fin _))).
have -> : 2 / (s + s) = / s by field; lra.
by rewrite ln_Rinv //; lra.
Qed.

(** [AsymmetricNormal(0, 1, 1)] and [Normal(0, 1)] at [3]. *)
Lemma AsymmetricNormal_symmetric_witness :
  exists self : AsymmetricNormalDistribution.t,
    AsymmetricNormalDistribution.__init__ (PyFloat 0) 1 1 = Ok self /\
    AsymmetricNormalDistribution.logpdf self (Scalar 3)
    = NormalDistribution.logpdf
        (NormalDistribution.__init__ (PyFloat 0) (PyFloat 1)) (Scalar 3).
Proof.
exact: (@AsymmetricNormal_symmetric (PyFloat 0) (PyFloat 1) 3 Rlt_0_1).
Defined.

(** X9.  The constructor of an asymmetric normal distribution refuses
    negative deviations only: with a deviation equal to zero the object is
    built, and its log-density is [nan] at every point. *)
Theorem AsymmetricNormal_zero_deviation (c : number) (r l x : R) :
  0 <= r -> 0 <= l -> r = 0 \/ l = 0 ->
  exists self : AsymmetricNormalDistribution.t,
    AsymmetricNormalDistribution.__init__ c r l = Ok self /\
    AsymmetricNormalDistribution._logpdf self x = Ok NaN.
Proof.
move=> r0 l0 z; rewrite /AsymmetricNormalDistribution.__init__.
have /RltbP/negbTE -> : ~ r < 0 by lra.
have /RltbP/negbTE -> /= : ~ l < 0 by lra.
eexists; split; first reflexivity.
rewrite /AsymmetricNormalDistribution._logpdf /= /scipy.norm_pdf.
case: z => ->; have /RltbP/negbTE -> : ~ 0 < 0 by lra.
  by case: (Rltb 0 l); case: (Rltb x c).
by case: (Rltb 0 r); case: (Rltb x c).
Qed.

(** [AsymmetricNormal(0, 0, 1)] at [0]. *)
Lemma AsymmetricNormal_zero_deviation_witness :
  exists self : AsymmetricNormalDistribution.t,
    AsymmetricNormalDistribution.__init__ (PyFloat 0) 0 1 = Ok self /\
    AsymmetricNormalDistribution._logpdf self 0 = Ok NaN.
Proof.
have h0 : 0 <= 0 by lra.
have h1 : 0 <= 1 by lra.
exact: (@AsymmetricNormal_zero_deviation (PyFloat 0) 0 1 0 h0 h1
          (or_introl erefl)).
Defined.

(** ** The half normal distribution *)

Lemma sign_opp (s : R) : np.sign (- s) = - np.sign s.
Proof.
rewrite /np.sign; case: (RltbP s 0) => s0.
  have /RltbP/negbTE -> : ~ - s < 0 by lra.
  have /eqP/negbTE -> : - s <> 0 by lra.
  by lra.
case: (RltbP (- s) 0) => s1.
  have /eqP/negbTE -> : s <> 0 by lra.
  by lra.
have -> : s = 0 by lra.
by rewrite Ropp_0 eqxx; lra.
Qed.

Lemma sign_pos (s : R) : 0 < s -> np.sign s = 1.
Proof.
move=> s0; rewrite /np.sign; have /RltbP/negbTE -> : ~ s < 0 by lra.
by have /eqP/negbTE -> : s <> 0 by lra.
Qed.

Lemma sign_mul_abs (s z : R) : 0 <= np.sign s * (np.sign s * Rabs z).
Proof.
have := Rabs_pos z; rewrite /np.sign.
by case: Rltb => [|]; [|case: (s == 0)]; nra.
Qed.

Lemma norm_logpdf_mirror (c d s : R) :
  scipy.norm_logpdf (c - d) c s = scipy.norm_logpdf (c + d) c s.
Proof.
rewrite /scipy.norm_logpdf; case: Rltb => //; congr Fin.
have -> : c - d - c = - (c + d - c) by lra.
by rewrite /Rdiv Ropp_mult_distr_l_reverse /=; lra.
Qed.

(** X10.  A half normal distribution with [sigma > 0] has log-density minus
    infinity below the central value, and from the central value on that
    of the normal distribution plus [log 2]. *)
Theorem HalfNormal_logpdf_one_sided (c : number) (s x : R) :
  0 < s ->
  let self := HalfNormalDistribution.__init__ c s in
  (x < c -> HalfNormalDistribution._logpdf self x = Ok NegInf) /\
  (c <= x ->
   HalfNormalDistribution._logpdf self x
   = Ok (Fin (ln 2 - ((x - c) / s) ^ 2 / 2 - ln (sqrt (2 * PI)) - ln s))).
Proof.
move=> s0 self; rewrite /HalfNormalDistribution._logpdf /= sign_pos //.
split=> xc.
  by have /RltbP -> : 1 * (x - c) < 0 by lra.
have /RltbP/negbTE -> : ~ 1 * (x - c) < 0 by lra.
rewrite /math.log; have /RltbP -> /= : 0 < 2 by lra.
rewrite /scipy.norm_logpdf (Rabs_pos_eq s (Rlt_le _ _ s0)).
have /RltbP -> /= : 0 < s by [].
by congr (Ok (Fin _)); lra.
Qed.

(** [HalfNormal(0, 1)] at [-1]. *)
Lemma HalfNormal_logpdf_one_sided_witness :
  HalfNormalDistribution._logpdf
    (HalfNormalDistribution.__init__ (PyFloat 0) 1) (-1) = Ok NegInf.
Proof.
apply: (proj1 (@HalfNormal_logpdf_one_sided (PyFloat 0) 1 (-1) Rlt_0_1)).
by rewrite /=; lra.
Defined.

(** X11.  Changing the sign of the standard deviation mirrors a half normal
    distribution at its central value: the log-density of
    [HalfNormal(c, -sigma)] at [c - d] is that of [HalfNormal(c, sigma)] at
    [c + d], for every [sigma] and [d]. *)
Theorem HalfNormal_logpdf_mirror (c : number) (s d : R) :
  HalfNormalDistribution._logpdf (HalfNormalDistribution.__init__ c (- s))
    (c - d)
  = HalfNormalDistribution._logpdf (HalfNormalDistribution.__init__ c s)
      (c + d).
Proof.
rewrite /HalfNormalDistribution._logpdf /= sign_opp Rabs_Ropp.
rewrite norm_logpdf_mirror.
by have -> : - np.sign s * (c - d - c) = np.sign s * (c + d - c) by lra.
Qed.

Lemma HalfNormal_sample_Ok (c : number) (s z : R) :
  let self := HalfNormalDistribution.__init__ c s in
  let r := c + np.sign s * Rabs (0 + Rabs s * z) in
  0 <= np.sign s * (r - c) /\
  (s <> 0 -> exists w : R, HalfNormalDistribution._logpdf self r = Ok (Fin w)).
Proof.
move=> self r.
have side : 0 <= np.sign s * (r - c).
  have -> : r - c = np.sign s * Rabs (0 + Rabs s * z) by rewrite /r; lra.
  exact: sign_mul_abs.
split=> // s0; rewrite /HalfNormalDistribution._logpdf /=.
have /RltbP/negbTE -> : ~ np.sign s * (r - c) < 0 by lra.
rewrite /math.log; have /RltbP -> /= : 0 < 2 by lra.
rewrite /scipy.norm_logpdf.
have /RltbP -> /= : 0 < Rabs s by apply: Rabs_pos_lt.
by eexists.
Qed.

(** X12.  Sampling a half normal distribution never raises, whatever the
    sign of the standard deviation; the sample has the shape asked for, and
    every value lies on the side of the central value the sign of [sigma]
    points to, where, for [sigma <> 0], the log-density is finite. *)
Theorem HalfNormal_get_random_side (G : Type) (rng : RandomSource G)
    (c : number) (s : R) (size : option nat) (g : G) :
  let self := HalfNormalDistribution.__init__ c s in
  exists (v : ndarray float64) (g' : G),
    [/\ HalfNormalDistribution.get_random self size g = Ok (v, g'),
        shape v = size
      & nd_all (fun a => exists r : R,
                  [/\ a = Fin r, 0 <= np.sign s * (r - c)
                    & s <> 0 ->
                      exists w : R,
                        HalfNormalDistribution._logpdf self r = Ok (Fin w)]) v].
Proof.
move=> self; rewrite /HalfNormalDistribution.get_random /random_normal64 /=.
have /RltbP/negbTE -> /= : ~ Rabs s < 0 by have := Rabs_pos s; lra.
have ok (z : R) : exists r : R,
    [/\ Fin (c + np.sign s * Rabs (0 + Rabs s * z)) = Fin r,
        0 <= np.sign s * (r - c)
      & s <> 0 ->
        exists w : R, HalfNormalDistribution._logpdf self r = Ok (Fin w)].
  have [side dens] := HalfNormal_sample_Ok c s z.
  by eexists; split; first reflexivity.
rewrite /sample; case: size => [n|].
  have := draws_size (@standard_normal G rng) n g.
  case: (draws standard_normal n g) => zs g1 /= sz.
  eexists; eexists; split; first reflexivity.
    by rewrite /= !size_map sz.
  apply: Forall_map; apply: Forall_map.
  by elim: (zs) => [|z zs' IH]; constructor=> //; exact: ok.
case: (standard_normal g) => z g1 /=.
by eexists; eexists; split; [reflexivity|by []|exact: ok].
Qed.

(** ** An upper limit in a combination *)

(** X13.  The central value of a [GaussianUpperLimit] is the Python int
    [0]; so a combination of two members or more that starts with an upper
    limit stops at the assertion [isinstance(central_value, float)]. *)
Theorem convolve_upper_limit_first (ppf : R -> R) (limit cl : R)
    (d : GaussianUpperLimit.t) (i : nat) (p : object) (ps : seq object) :
  GaussianUpperLimit.__init__ ppf limit cl = Ok d ->
  convolve_distributions (Object i (UpperLimit d) :: p :: ps)
  = Raise AssertionError.
Proof.
by rewrite /GaussianUpperLimit.__init__; case: ifP => // _ [<-].
Qed.

(** [GaussianUpperLimit(10, 0.95)] before [Normal(0.0, 1)]. *)
Lemma convolve_upper_limit_first_witness :
  exists d : GaussianUpperLimit.t,
    GaussianUpperLimit.__init__ (fun=> 1.959964) 10 0.95 = Ok d /\
    convolve_distributions
      [:: Object 1 (UpperLimit d);
          Object 2 (Normal (NormalDistribution.__init__ (PyFloat 0)
                              (PyFloat 1)))]
    = Raise AssertionError.
Proof.
have E : GaussianUpperLimit.__init__ (fun=> 1.959964) 10 0.95
         = Ok (GaussianUpperLimit.Build
                 (HalfNormalDistribution.__init__ (PyInt 0)
                    (GaussianUpperLimit.get_standard_deviation
                       (fun=> 1.959964) 10 0.95)) 10 0.95).
  rewrite /GaussianUpperLimit.__init__.
  have /RltbP/negbTE -> : ~ 1 < 0.95 by lra.
  by have /RltbP/negbTE -> : ~ 0.95 < 0 by lra.
eexists; split; first exact: E.
exact: (convolve_upper_limit_first 1
          (Object 2 (Normal (NormalDistribution.__init__ (PyFloat 0)
                              (PyFloat 1))))
          [::] E).
Defined.

(** ** The numerical distribution *)

(** The order in which NumPy sorts: total, transitive and reflexive. *)

Lemma fle_nan_last_refl : reflexive fle_nan_last.
Proof.
case=> [x|s|] //=; first by rewrite fle_Fin; apply/RlebP; right.
by rewrite /fle /= eqxx orbT.
Qed.

Lemma fle_nan_last_total : total fle_nan_last.
Proof.
case=> [x|s|] [y|t|] //=; rewrite ?fle_Fin.
- by apply/orP; case: (Rle_dec x y) => h; [left|right]; apply/RlebP; lra.
- by rewrite /fle /=; case: t.
- by rewrite /fle /=; case: s.
- by rewrite /fle /=; case: s; case: t.
Qed.

Lemma fle_nan_last_trans : transitive fle_nan_last.
Proof.
case=> [y|t|] [x|s|] [z|u|] //=; rewrite ?fle_Fin; rewrite /fle //=.
- by move=> /RlebP xy /RlebP yz; apply/RlebP; lra.
- by case: s; case: u.
- by case: t.
- by case: t; case: u.
- by case: t; case: s.
- by case: t; case: s; case: u.
Qed.

Section Interpolant.

Local Notation by_abscissa :=
  (fun p q : float64 * float64 => fle_nan_last p.1 q.1).

Variables (x y : seq float64) (b : bool) (fv : float64) (f : scipy.interp1d).
Hypothesis init : scipy.interp1d_init x y b fv = Ok f.

Lemma interp1d_init_inv :
  [/\ size x = size y, (0 < size x)%N,
      scipy.interp_x f = unzip1 (sort by_abscissa (zip x y)),
      scipy.bounds_error f = b & scipy.fill_value f = fv].
Proof.
move: init; rewrite /scipy.interp1d_init.
by case: eqP => // sz; case: ifP => // lt [<-].
Qed.

Lemma interp_x_size : size (scipy.interp_x f) = size x.
Proof.
have [sz _ -> _ _] := interp1d_init_inv.
by rewrite size_map size_sort size_zip -sz minnn.
Qed.

(** What holds of every abscissa given holds of every abscissa kept. *)
Lemma interp_x_all (P : pred float64) :
  all P x -> all P (scipy.interp_x f).
Proof.
have [sz _ -> _ _] := interp1d_init_inv => Px.
rewrite all_map all_sort -(all_map fst P) -/(unzip1 _) unzip1_zip //.
by rewrite sz.
Qed.

(** The abscissae kept are in order. *)
Lemma interp_x_sorted : sorted fle_nan_last (scipy.interp_x f).
Proof.
have [_ _ -> _ _] := interp1d_init_inv.
rewrite sorted_map; apply: sort_sorted => p q.
exact: fle_nan_last_total.
Qed.

(** An abscissa given is one of the abscissae kept. *)
Lemma interp_x_has (P : pred float64) :
  has P x -> has P (scipy.interp_x f).
Proof.
have [sz _ -> _ _] := interp1d_init_inv => Px.
rewrite has_map -[has _ _]negbK -all_predC all_sort all_predC negbK.
by rewrite -(has_map fst P) -/(unzip1 _) unzip1_zip // sz.
Qed.

(** The first abscissa kept is below, and the last one above, every
    abscissa given. *)
Lemma interp_x_head (P : pred float64) :
  has P x ->
  exists2 v, P v & fle_nan_last (head NaN (scipy.interp_x f)) v.
Proof.
move=> /interp_x_has Px; set xs := scipy.interp_x f in Px *.
have lt : (find P xs < size xs)%N by rewrite -has_find.
exists (nth NaN xs (find P xs)); first by rewrite nth_find.
rewrite -nth0.
have mono := sorted_leq_nth fle_nan_last_trans fle_nan_last_refl NaN
               interp_x_sorted.
by apply: mono; rewrite ?inE //; apply: leq_ltn_trans lt.
Qed.

Lemma interp_x_last (P : pred float64) :
  has P x ->
  exists2 v, P v & fle_nan_last v (last NaN (scipy.interp_x f)).
Proof.
move=> /interp_x_has Px; set xs := scipy.interp_x f in Px *.
have lt : (find P xs < size xs)%N by rewrite -has_find.
exists (nth NaN xs (find P xs)); first by rewrite nth_find.
rewrite -nth_last.
have mono := sorted_leq_nth fle_nan_last_trans fle_nan_last_refl NaN
               interp_x_sorted.
apply: mono; rewrite ?inE //.
  by rewrite ltn_predL; apply: leq_ltn_trans lt.
by rewrite -ltnS prednK //; apply: leq_ltn_trans lt.
Qed.

End Interpolant.

Lemma setitem_first_inv (A : Type) (v : A) (s s' : seq A) :
  setitem_first v s = Ok s' -> size s' = size s /\ head v s' = v.
Proof. by case: s => [|a s] //= [<-]. Qed.

Lemma setitem_last_inv (A : Type) (v a0 : A) (s s' : seq A) :
  setitem_last v s = Ok s' ->
  [/\ size s' = size s, last a0 s' = v
    & (1 < size s)%N -> head a0 s' = head a0 s].
Proof.
case: s => [|a s] //= [<-]; split.
- by rewrite size_rcons size_take /= ltnSn.
- by rewrite last_rcons.
- by case: s => [|a' s] //= _; rewrite ltnS leqnn.
Qed.

(** What a successful construction says of the two interpolants. *)
Lemma NumericalDistribution_init_interp (x : seq R) (y : seq float64)
    (cv : option number) (d : NumericalDistribution.t) :
  NumericalDistribution.__init__ x y cv = Ok d ->
  exists ly cdf : seq float64,
    [/\ (0 < size x)%N, size y = size x,
        scipy.interp1d_init [seq Fin v | v <- x] ly false NegInf
        = Ok (NumericalDistribution.logpdf_interp d),
        scipy.interp1d_init cdf [seq Fin v | v <- x] true NaN
        = Ok (NumericalDistribution.ppf_interp d)
      & [/\ size cdf = size x, last NaN cdf = Fin 1
          & (1 < size x)%N -> head NaN cdf = Fin 0]].
Proof.
rewrite /NumericalDistribution.__init__.
bind_inv => -[[c sup] _]; bind_inv => -[xl _]; bind_inv => -[x0 _].
bind_inv => -[f1 Hf1]; bind_inv => -[cdf1 H1]; bind_inv => -[cdf2 H2].
bind_inv => -[f2 Hf2] [<-] /=.
have [sz1 lt1 _ _ _] := interp1d_init_inv Hf1.
have [sz2 lt2 _ _ _] := interp1d_init_inv Hf2.
have [s1 h1] := setitem_first_inv H1.
have [s2 l2 h2] := setitem_last_inv NaN H2.
move: sz1 lt1; rewrite !size_map => sz1 lt1.
move: sz2; rewrite size_map => sz2.
eexists; exists cdf2; split; [exact: lt1|by []|exact: Hf1|exact: Hf2|].
split=> // lt; rewrite h2 -?s2 ?s1 ?sz2 -?s1 //.
by move: lt; rewrite -sz2 s2; case: (cdf1) h1.
Qed.

(** X14.  The constructor of a numerical distribution returns an object
    if and only if the grid is not empty, there are as many weights as
    points, and an explicit central value lies between the first and the
    last point of the grid.  One point is enough: on the grid [[0.]] with
    the weight [[1.]] the constructor returns. *)
Theorem NumericalDistribution_init_requires (x : seq R) (y : seq float64)
    (cv : option number) :
  (exists d : NumericalDistribution.t,
     NumericalDistribution.__init__ x y cv = Ok d) <->
  [/\ (0 < size x)%N, size y = size x
    & forall c : number, cv = Some c -> nth 0 x 0 <= c <= last 0 x].
Proof.
split=> [[d Hd]|[lt sz cvok]]; last first.
  by have [d [Hd _ _ _]] := NumericalDistribution_init_Ok lt sz cvok; exists d.
have [ly [cdf [lt sz _ _ _]]] := NumericalDistribution_init_interp Hd.
split=> // c cvc; move: Hd; rewrite cvc.
move=> /NumericalDistribution_init_inv[x0 [xl [Hx0 Hxl _ [_]]]].
have [_ <-] := getitem_nth 0 Hx0.
by case: (x) Hxl lt => [|a s] //= [<-].
Qed.

(** On the one-point grid [[0]] with the weight [[1]] and no central value
    given. *)
Lemma NumericalDistribution_init_requires_witness :
  exists d : NumericalDistribution.t,
    NumericalDistribution.__init__ [:: 0] [:: Fin 1] None = Ok d.
Proof.
apply/(NumericalDistribution_init_requires [:: 0] [:: Fin 1] None).
by split.
Defined.

(** [np.argmax] returns the first index of a greatest entry, in the order
    that puts [nan] last. *)
Lemma argmax_from_spec (s pre : seq float64) (best : float64) (ibest : nat) :
  (ibest < size pre)%N -> nth NaN pre ibest = best ->
  (forall j, (j < size pre)%N -> fle_nan_last (nth NaN pre j) best) ->
  (forall j, (j < ibest)%N -> ~~ fle_nan_last best (nth NaN pre j)) ->
  let k := np.argmax_from best ibest (size pre) s in
  [/\ (k < size (pre ++ s))%N,
      forall j, (j < size (pre ++ s))%N ->
        fle_nan_last (nth NaN (pre ++ s) j) (nth NaN (pre ++ s) k)
    & forall j, (j < k)%N ->
        ~~ fle_nan_last (nth NaN (pre ++ s) k) (nth NaN (pre ++ s) j)].
Proof.
elim: s pre best ibest => [|a s IH] pre best ibest lt Hb Hmax Hfirst /=.
  by rewrite cats0 Hb; split.
have szr : size (rcons pre a) = (size pre).+1 by rewrite size_rcons.
have nthr j : (j < size pre)%N -> nth NaN (rcons pre a) j = nth NaN pre j.
  by move=> jlt; rewrite nth_rcons jlt.
have ntha : nth NaN (rcons pre a) (size pre) = a.
  by rewrite nth_rcons ltnn eqxx.
rewrite -cat_rcons -szr; case: ifP => ab.
  apply: IH; rewrite ?szr.
  - exact: ltn_trans lt _.
  - by rewrite nthr.
  - move=> j; rewrite ltnS leq_eqVlt => /orP[/eqP ->|jlt]; first by rewrite ntha.
    by rewrite nthr //; apply: Hmax.
  - by move=> j jlt; rewrite nthr ?Hfirst //; apply: ltn_trans lt.
have ba : fle_nan_last best a.
  by have := fle_nan_last_total a best; rewrite ab.
rewrite szr -[X in np.argmax_from _ X]/((size pre).+1.-1) -szr.
apply: IH; rewrite ?szr //=.
- move=> j; rewrite ltnS leq_eqVlt => /orP[/eqP ->|jlt].
    by rewrite ntha fle_nan_last_refl.
  by rewrite nthr //; apply: fle_nan_last_trans ba; apply: Hmax.
- move=> j jlt; rewrite nthr //; apply/negP => aj.
  by move: ab; rewrite (fle_nan_last_trans aj) // Hmax.
Qed.

Lemma argmax_spec (y : seq float64) (i : nat) :
  np.argmax y = Ok i ->
  [/\ (i < size y)%N,
      forall j, (j < size y)%N -> fle_nan_last (nth NaN y j) (nth NaN y i)
    & forall j, (j < i)%N -> ~~ fle_nan_last (nth NaN y i) (nth NaN y j)].
Proof.
case: y => [|a s] //= [<-].
apply: (@argmax_from_spec s [:: a] a 0) => //.
by case=> [|j] //= _; apply: fle_nan_last_refl.
Qed.

(** X15.  When no central value is given, the central value of a numerical
    distribution is a point of the grid whose weight is greatest, and the
    first such point: no weight exceeds the weight at the central value,
    and every weight before it is strictly smaller. *)
Theorem NumericalDistribution_mode (x : seq R) (y : seq float64)
    (d : NumericalDistribution.t) :
  NumericalDistribution.__init__ x y None = Ok d ->
  exists i : nat,
    [/\ (i < size x)%N,
        NumericalDistribution.central_value d = PyFloat (nth 0 x i),
        forall j, (j < size y)%N ->
          fle_nan_last (nth NaN y j) (nth NaN y i)
      & forall j, (j < i)%N -> ~~ fle_nan_last (nth NaN y i) (nth NaN y j)].
Proof.
rewrite /NumericalDistribution.__init__.
bind_inv => -[[c sup] Hbase]; bind_inv => -[xl _]; bind_inv => -[x0 _].
bind_inv => -[f1 _]; bind_inv => -[cdf1 _]; bind_inv => -[cdf2 _].
bind_inv => -[f2 _] [<-] /=.
move: Hbase; bind_inv => -[i Hi]; bind_inv => -[m Hm].
bind_inv => -[x0' _]; bind_inv => -[xl' _] [<- _].
have [ilt <-] := getitem_nth 0 Hm.
by have [_ Hmax Hfirst] := argmax_spec Hi; exists i; split.
Qed.

(** On the grid [[0, 1, 2]] with weights [[1, 4, 1]]. *)
Lemma NumericalDistribution_mode_witness :
  exists (d : NumericalDistribution.t) (i : nat),
    NumericalDistribution.__init__ [:: 0; 1; 2] [:: Fin 1; Fin 4; Fin 1] None
    = Ok d /\
    NumericalDistribution.central_value d = PyFloat (nth 0 [:: 0; 1; 2] i).
Proof.
have [d [Hd _ _ _]] :=
  @NumericalDistribution_init_Ok [:: 0; 1; 2] [:: Fin 1; Fin 4; Fin 1] None
    isT erefl (fun c (e : None = Some c) => match e with end).
have [i [_ Hc _ _]] := NumericalDistribution_mode Hd.
by exists d, i.
Defined.

(** X16.  The log-density of a numerical distribution never raises, and it
    is minus infinity at every point below all points of the grid and at
    every point above all of them, whatever the order of the grid. *)
Theorem NumericalDistribution_logpdf_outside (x : seq R) (y : seq float64)
    (cv : option number) (d : NumericalDistribution.t) (v : R) :
  NumericalDistribution.__init__ x y cv = Ok d ->
  (exists w : float64,
     NumericalDistribution.logpdf d (Scalar v) = Ok (Scalar w)) /\
  ((forall xi, xi \in x -> v < xi) \/ (forall xi, xi \in x -> xi < v) ->
   NumericalDistribution.logpdf d (Scalar v) = Ok (Scalar NegInf)).
Proof.
move=> /NumericalDistribution_init_interp[ly [cdf [lt sz Hf _ _]]].
have [_ _ _ be fv] := interp1d_init_inv Hf.
have szf := interp_x_size Hf.
rewrite /NumericalDistribution.logpdf /scipy.call /= /scipy.call1 be fv.
split; first by case: ifP => _; eexists.
have nonempty :
    (0 < size (scipy.interp_x (NumericalDistribution.logpdf_interp d)))%N.
  by rewrite szf size_map.
case=> out.
  have -> // : flt (Fin v) (head NaN (scipy.interp_x
                      (NumericalDistribution.logpdf_interp d))).
  apply: all_head => //; apply: (interp_x_all Hf).
  by rewrite all_map; apply/allP => xi /out /RltbP.
have -> : flt (last NaN (scipy.interp_x
                 (NumericalDistribution.logpdf_interp d))) (Fin v).
  apply: (@all_last _ (fun a => flt a (Fin v))) => //; apply: (interp_x_all Hf).
  by rewrite all_map; apply/allP => xi /out /RltbP.
by rewrite orbT.
Qed.

(** On the grid [[0, 2, 1]], at [5]. *)
Lemma NumericalDistribution_logpdf_outside_witness :
  exists d : NumericalDistribution.t,
    NumericalDistribution.__init__ [:: 0; 2; 1] [:: Fin 1; Fin 4; Fin 1] None
    = Ok d /\
    NumericalDistribution.logpdf d (Scalar 5) = Ok (Scalar NegInf).
Proof.
have [d [Hd _ _ _]] :=
  @NumericalDistribution_init_Ok [:: 0; 2; 1] [:: Fin 1; Fin 4; Fin 1] None
    isT erefl (fun c (e : None = Some c) => match e with end).
exists d; split=> //.
apply: (proj2 (NumericalDistribution_logpdf_outside 5 Hd)); right=> xi.
by rewrite !inE => /or3P[] /eqP ->; lra.
Defined.

Lemma call1_unit_interval (f : scipy.interp1d) (cdf xs : seq float64) (r : R) :
  scipy.interp1d_init cdf xs true NaN = Ok f ->
  head NaN cdf = Fin 0 -> last NaN cdf = Fin 1 ->
  0 <= r < 1 ->
  scipy.call1 f (Fin r) = Ok (scipy.call_linear f (Fin r)).
Proof.
move=> Hf h0 l1 [r0 r1].
have [sz lt0 _ _ _] := interp1d_init_inv Hf.
have has0 : has (fun a => if a is Fin v then v == 0 else false) cdf.
  by case: (cdf) h0 lt0 => [|a s] //= -> _; rewrite eqxx.
have has1 : has (fun a => if a is Fin v then v == 1 else false) cdf.
  by apply: (has_last (a0 := NaN)) => //; rewrite l1 eqxx.
rewrite /scipy.call1.
have [[v|s|] // /eqP -> le0] := interp_x_head Hf has0.
have [[w|t|] // /eqP -> le1] := interp_x_last Hf has1.
have -> : flt (Fin r) (head NaN (scipy.interp_x f)) = false.
  move: le0; case: (head _ _) => [a|[]|] //=; rewrite fle_Fin => /RlebP a0.
  by apply/RltbP; lra.
have -> // : flt (last NaN (scipy.interp_x f)) (Fin r) = false.
move: le1; case: (last _ _) => [a|[]|] //=; rewrite fle_Fin => /RlebP a1.
by apply/RltbP; lra.
Qed.

(** On a grid of one point the interpolant of the quantiles has the one
    abscissa [1], and every draw of [[0, 1)] lies below it. *)
Lemma call1_one_point (f : scipy.interp1d) (cdf xs : seq float64) (r : R) :
  scipy.interp1d_init cdf xs true NaN = Ok f ->
  size cdf = 1%N -> last NaN cdf = Fin 1 -> r < 1 ->
  scipy.call1 f (Fin r) = Raise ValueError.
Proof.
case: cdf => [|a [|? ?]] //= Hf _ a1 r1; rewrite a1 in Hf.
have [_ _ xs1 be _] := interp1d_init_inv Hf.
rewrite /scipy.call1 be xs1.
case: (xs) Hf => [|b [|? ?]] //= _.
by have /RltbP -> : r < 1 by [].
Qed.

(** X17.  With a random source whose uniform draws lie in [[0, 1)],
    sampling a numerical distribution on a grid of two points or more
    never raises: the borders of the cumulative weights are set to [0] and
    [1], so every draw lies within the range of the interpolant, which
    would raise a [ValueError] outside; the sample has the shape asked
    for.  On a grid of one point the cumulative weights are [[1]], every
    draw lies below, and sampling raises a [ValueError] unless no value is
    asked for. *)
Theorem NumericalDistribution_get_random_total (G : Type)
    (rng : RandomSource G) (x : seq R) (y : seq float64) (cv : option number)
    (d : NumericalDistribution.t) (size : option nat) (g : G) :
  unit_interval rng ->
  NumericalDistribution.__init__ x y cv = Ok d ->
  ((1 < seq.size x)%N ->
   exists (v : ndarray float64) (g' : G),
     NumericalDistribution.get_random d size g = Ok (v, g') /\
     shape v = size) /\
  (seq.size x = 1%N -> size <> Some 0%N ->
   NumericalDistribution.get_random d size g = Raise ValueError).
Proof.
move=> ui /NumericalDistribution_init_interp[ly [cdf [_ _ _ Hf [szc l1 h0]]]].
split; last first.
  move=> sz1 size0; rewrite sz1 in szc.
  have bad (u : R) : 0 <= u < 1 ->
      scipy.call1 (NumericalDistribution.ppf_interp d) (Fin (0 + (1 - 0) * u))
      = Raise ValueError.
    by move=> u01; apply: (call1_one_point Hf szc l1); lra.
  rewrite /NumericalDistribution.get_random /random_uniform /sample.
  case: size size0 => [[|n]|] // _.
    rewrite /=; have := ui g; case: (random_sample g) => u g1 /= u01.
    by case: (draws random_sample n g1) => us g2 /=; rewrite bad.
  by have := ui g; case: (random_sample g) => u g1 /= u01; rewrite bad.
move=> /h0 {}h0.
have ok (u : R) : 0 <= u < 1 ->
    scipy.call1 (NumericalDistribution.ppf_interp d) (Fin (0 + (1 - 0) * u))
    = Ok (scipy.call_linear (NumericalDistribution.ppf_interp d)
            (Fin (0 + (1 - 0) * u))).
  by move=> u01; apply: (call1_unit_interval Hf h0 l1); lra.
rewrite /NumericalDistribution.get_random /random_uniform /sample.
case: size => [n|].
  have := draws_size (@random_sample G rng) n g.
  have := draws_unit_interval n g ui.
  case: (draws random_sample n g) => us g1 /= Hus szus.
  rewrite /scipy.call /nd_mapM /=.
  set rs := [seq Fin v | v <- _].
  have HF : List.Forall
      (fun a => scipy.call1 (NumericalDistribution.ppf_interp d) a
                = Ok (scipy.call_linear (NumericalDistribution.ppf_interp d) a))
      rs.
    apply: Forall_map; apply: Forall_map.
    by apply: List.Forall_impl Hus => u; apply: ok.
  rewrite (mapM_Forall HF).
  by eexists; eexists; split; [reflexivity|rewrite /= !size_map szus].
have := ui g; case: (random_sample g) => u g1 /= u01.
by rewrite ok //; eexists; eexists; split.
Qed.

(** Three draws on the grid [[0, 1, 2]] with a source that always draws
    [1/2]. *)
Lemma NumericalDistribution_get_random_total_witness :
  exists (d : NumericalDistribution.t) (v : ndarray float64) (g' : unit),
    NumericalDistribution.__init__ [:: 0; 1; 2] [:: Fin 1; Fin 4; Fin 1] None
    = Ok d /\
    NumericalDistribution.get_random (rng := constant_source (1 / 2) 0) d
      (Some 3%N) tt = Ok (v, g').
Proof.
have [d [Hd _ _ _]] :=
  @NumericalDistribution_init_Ok [:: 0; 1; 2] [:: Fin 1; Fin 4; Fin 1] None
    isT erefl (fun c (e : None = Some c) => match e with end).
have [v [g' [Hv _]]] :=
  proj1 (@NumericalDistribution_get_random_total unit
           (constant_source (1 / 2) 0) _ _ _ d (Some 3%N) tt
           constant_source_unit_interval Hd) isT.
by exists d, v, g'.
Defined.

(** ** The adapter [from_pd] *)

Lemma size_linspace (a b : R) (n : nat) : size (np.linspace a b n) = n.
Proof. by case: n => [|[|n]] //=; rewrite size_map size_iota. Qed.

Lemma head_linspace (a b : R) (n : nat) :
  (0 < n)%N -> nth 0 (np.linspace a b n) 0 = a.
Proof. by case: n => [|[|n]] //= _; lra. Qed.

Lemma last_linspace (a b : R) (n : nat) :
  (1 < n)%N -> last 0 (np.linspace a b n) = b.
Proof.
case: n => [|[|n]] // _; rewrite /np.linspace.
rewrite (last_nth 0) size_map size_iota.
set f := fun i : nat => _.
have -> : nth 0 (0 :: [seq f i | i <- iota 0 n.+2]) n.+2
          = nth 0 [seq f i | i <- iota 0 n.+2] n.+1 by [].
rewrite (nth_map 0%N) ?size_iota // nth_iota // add0n /f.
have nz : INR n.+1 <> 0 by apply: not_0_INR.
by rewrite [n.+2.-1]/=; field.
Qed.

(** What a successful call of [from_pd] says: the support is finite, and
    the object comes from the constructor on the grid over the support. *)
Lemma from_pd_inv (pd q : distribution) (nsteps : nat) :
  from_pd pd nsteps = Ok q ->
  exists (lo hi : R) (_y : seq float64) (d : NumericalDistribution.t),
    [/\ support pd = (Fin lo, Fin hi),
        NumericalDistribution.__init__ (np.linspace lo hi nsteps) _y
          (Some (central_value pd)) = Ok d
      & q = Numerical d].
Proof.
rewrite /from_pd; case: (support pd) => [[lo|?|] [hi|?|]] //.
bind_inv => -[lp _]; bind_inv => -[_y _]; bind_inv => -[d Hd] [<-].
by exists lo, hi, _y, d.
Qed.

(** [from_pd] hands the central value on. *)
Lemma from_pd_central_value (pd q : distribution) (nsteps : nat) :
  from_pd pd nsteps = Ok q -> central_value q = central_value pd.
Proof.
move=> /from_pd_inv[lo [hi [_y [d [_ Hd ->]]]]] /=.
by have [x0 [xl [_ _ _ [-> _]]]] := NumericalDistribution_init_inv Hd.
Qed.

(** X18.  What [from_pd] returns is a numerical distribution with the
    central value of the distribution it was made from; it returns only for
    one step or more.  With two steps or more it has the support of that
    distribution as well; with one step the grid is the lower end of the
    support alone, and the support shrinks to that point. *)
Theorem from_pd_preserves (pd q : distribution) (nsteps : nat) :
  from_pd pd nsteps = Ok q ->
  [/\ (0 < nsteps)%N, isinstance_Numerical q,
      central_value q = central_value pd,
      (1 < nsteps)%N -> support q = support pd
    & nsteps = 1%N -> support q = ((support pd).1, (support pd).1)].
Proof.
move=> /from_pd_inv[lo [hi [_y [d [-> Hd ->]]]]] /=.
have [ly [cdf [lt _ _ _ _]]] := NumericalDistribution_init_interp Hd.
move: lt; rewrite size_linspace => lt.
have [x0 [xl [Hx0 Hxl -> [-> _]]]] := NumericalDistribution_init_inv Hd.
have [_ <-] := getitem_nth 0 Hx0.
have [_ <-] := getlast_nth 0 Hxl.
rewrite nth_last (head_linspace _ _ lt) /finite_pair /=.
split=> // [lt1|n1]; first by rewrite (last_linspace _ _ lt1).
by rewrite n1.
Qed.

(** [HalfNormal(0.0, 1)] on one step: the support [(0, 6)] shrinks to
    [(0, 0)]. *)
Lemma from_pd_preserves_witness :
  exists q : distribution,
    from_pd (HalfNormal (HalfNormalDistribution.__init__ (PyFloat 0) 1)) 1
    = Ok q /\
    support q = (Fin 0, Fin 0).
Proof.
set pd := HalfNormal (HalfNormalDistribution.__init__ (PyFloat 0) 1).
have sup : support pd = (Fin 0, Fin (0 + 6 * 1)).
  rewrite /pd /= /sorted2 /=.
  by have /RltbP/negbTE -> : ~ 0 + 6 * 1 < 0 by lra.
have [lp Hlp] : exists lp, logpdf pd (Array [:: 0]) = Ok (Array [:: lp]).
  rewrite /pd /= /HalfNormalDistribution.logpdf /np.vectorize /nd_mapM /=.
  rewrite /HalfNormalDistribution._logpdf /=.
  have /RltbP/negbTE -> : ~ np.sign 1 * (0 - 0) < 0 by lra.
  have /RltbP -> /= : 0 < 2 by lra.
  by eexists.
have cvok : forall c : number,
    Some (PyFloat 0) = Some c -> nth 0 [:: 0] 0 <= c <= last 0 [:: 0].
  by move=> c [<-] /=; lra.
have [d [Hd _ _ _]] :=
  @NumericalDistribution_init_Ok [:: 0] [:: np.exp lp] (Some (PyFloat 0))
    isT erefl cvok.
have E : from_pd pd 1 = Ok (Numerical d).
  by rewrite /from_pd sup [np.linspace _ _ _]/= Hlp /= Hd.
exists (Numerical d); split=> //.
by have [_ _ _ _ ->] := from_pd_preserves E; rewrite ?sup.
Defined.

(** X19.  [from_pd] never returns on a delta distribution: the
    log-density of a delta distribution does not take the array of the
    grid points, and with two steps or more the call raises a
    [ValueError]. *)
Theorem from_pd_Delta (d : DeltaDistribution.t) (nsteps : nat) :
  (forall q : distribution, from_pd (Delta d) nsteps <> Ok q) /\
  ((1 < nsteps)%N -> from_pd (Delta d) nsteps = Raise ValueError).
Proof.
rewrite /from_pd /= /DeltaDistribution.logpdf.
case: nsteps => [|[|n]] /=; split=> // q.
by case: (_ == _).
Qed.

(** ** Further properties of the convolution *)

Lemma object_eq_mem (p q : object) (s : seq object) :
  __eq__ p q -> mem_object q s = mem_object p s.
Proof. by rewrite /mem_object /__eq__ => /eqP ->. Qed.

Lemma mem_set_of (p : object) (s : seq object) :
  mem_object p (set_of s) = mem_object p s.
Proof.
elim: s => [|q s IH] //=; case: ifP => qs; last first.
  by rewrite /mem_object /= -/(mem_object p _) IH.
rewrite IH /mem_object /= -!/(mem_object _ _).
by case pq: (__eq__ p q) => //=; rewrite -(object_eq_mem s pq).
Qed.

Lemma all_set_of (P : pred object) (s : seq object) :
  all P s -> all P (set_of s).
Proof.
elim: s => [|q s IH] //= /andP[Pq /IH Ps].
by case: ifP => _ //=; rewrite Pq.
Qed.

Lemma all_set_diff (P : pred object) (a b : seq object) :
  all P a -> all P (set_diff a b).
Proof.
rewrite /set_diff; elim: a => [|q a IH] //= /andP[Pq /IH Pa].
by case: ifP => _ //=; rewrite Pq.
Qed.

Lemma filter_mem (a : pred object) (s : seq object) :
  all (fun q => a q ==> mem_object q [seq p <- s | a p]) s.
Proof.
elim: s => [|q s IH] //=; case aq: (a q) => /=; last by [].
rewrite {1}/mem_object /= /__eq__ eqxx /=.
apply: sub_all IH => r; case: (a r) => //=.
by rewrite /mem_object /= => ->; rewrite orbT.
Qed.

Lemma set_diff2_nil (s g d : seq object) :
  all (fun p => mem_object p g || mem_object p d) s ->
  set_diff (set_diff s g) d = [::].
Proof.
rewrite /set_diff; elim: s => [|p s IH] //= /andP[pgd /IH].
by case pg: (mem_object p g) pgd => //= ->.
Qed.

(** With normal and delta members only, no member is left over. *)
Lemma others_nil (ps : seq object) :
  all (fun p => isinstance_Normal (self p) || isinstance_Delta (self p)) ps ->
  set_diff
    (set_diff (set_of ps)
       (set_of [seq p <- ps | isinstance_Normal (self p)]))
    (set_of [seq p <- ps | isinstance_Delta (self p)]) = [::].
Proof.
move=> nd; apply: set_diff2_nil; apply: all_set_of.
have N := filter_mem (fun p => isinstance_Normal (self p)) ps.
have D := filter_mem (fun p => isinstance_Delta (self p)) ps.
have : all (predI (predI (fun p => isinstance_Normal (self p)
                                     || isinstance_Delta (self p))
                    (fun q => isinstance_Normal (self q) ==>
                       mem_object q [seq p <- ps | isinstance_Normal (self p)]))
             (fun q => isinstance_Delta (self q) ==>
                mem_object q [seq p <- ps | isinstance_Delta (self p)])) ps.
  by rewrite !all_predI nd N D.
apply: sub_all => p /= /andP[/andP[h n] d]; rewrite !mem_set_of.
by case/orP: h => h; move: n d; rewrite h /= => n d; rewrite ?n ?d ?orbT.
Qed.

Lemma py_eq_trans_sym (a b c : number) : py_eq a c -> py_eq b c -> py_eq a b.
Proof. by rewrite /py_eq => /eqP -> /eqP ->. Qed.

Lemma sigmas_Ok (ps : seq object) :
  all (fun p => isinstance_Normal (self p)) ps ->
  exists sigmas, mapM (fun p => standard_deviation (self p)) ps = Ok sigmas.
Proof.
elim: ps => [|[i [] d] ps IH] //=; first by exists [::].
by move=> /IH[sigmas ->] /=; eexists.
Qed.

Lemma math_sqrt_sq (s : seq R) :
  math.sqrt (np.sum [seq v ^ 2 | v <- s])
  = Ok (sqrt (np.sum [seq v ^ 2 | v <- s])).
Proof.
rewrite /math.sqrt.
have /RltbP/negbTE -> // : ~ np.sum [seq v ^ 2 | v <- s] < 0.
by have := np_sum_sq_ge0 s; lra.
Qed.

(** With a float among the standard deviations the sum of the squares has
    a root. *)
Lemma math_sqrt_sum_of_squares (s : seq number) :
  has isinstance_float s ->
  math.sqrt (np.sum_of (np.square (np.array s)))
  = Ok (sqrt (np.sum [seq real_of v ^ 2 | v <- s])).
Proof.
move=> hasf; rewrite sum_of_squares_float //.
by have := math_sqrt_sq [seq real_of v | v <- s]; rewrite -map_comp.
Qed.

(** The normal members of a list with a common central value combine. *)
Lemma convolve_gaussians_Ok (c : number) (gs : seq object) :
  (0 < size gs)%N ->
  all (fun p => isinstance_Normal (self p)) gs ->
  all (fun p => py_eq (central_value (self p)) c) gs ->
  exists (g0 : object) (sigmas : seq number),
    [/\ getitem gs 0 = Ok g0,
        mapM (fun p => standard_deviation (self p)) gs = Ok sigmas
      & _convolve_gaussians gs
        = (sigma <-- math.sqrt (np.sum_of (np.square (np.array sigmas))) ;;
           Ok (Normal (NormalDistribution.__init__ (central_value (self g0))
                         (PyFloat sigma))))].
Proof.
case: gs => [|g0 gs] // _ allN same.
have [sigmas Hs] := sigmas_Ok allN.
exists g0, sigmas; split=> //.
rewrite /_convolve_gaussians allN /getitem drop0 bind_ret Hs bind_ret.
have -> : all (fun p => py_eq (central_value (self p)) (central_value (self g0)))
            (g0 :: gs).
  have g0c : py_eq (central_value (self g0)) c by move: same => /= /andP[].
  by apply: sub_all same => p pc; apply: py_eq_trans_sym pc g0c.
by [].
Qed.

(** X20.  A combination of two members or more stops at an assertion when
    the central value of the first member is not a Python float, or when
    the central value of some member differs from it. *)
Theorem convolve_asserts_central_value (p0 : object) (ps : seq object) :
  (0 < size ps)%N ->
  ~~ isinstance_float (central_value (self p0))
  || has (fun p => ~~ py_eq (central_value (self p)) (central_value (self p0)))
       ps ->
  convolve_distributions (p0 :: ps) = Raise AssertionError.
Proof.
move=> sz bad; rewrite /convolve_distributions size_gt1 //.
rewrite /getitem drop0 bind_ret; case: ifP bad => //= _ bad.
rewrite py_eq_refl /=.
have -> // : all (fun p => py_eq (central_value (self p))
                             (central_value (self p0))) ps = false.
by apply/negbTE; rewrite -has_predC.
Qed.

(** [convolve([Normal(0.0, 1), Normal(1.0, 1)])] *)
Lemma convolve_asserts_central_value_witness :
  convolve_distributions
    [:: Object 1 (Normal (NormalDistribution.__init__ (PyFloat 0)
                              (PyFloat 1)));
        Object 2 (Normal (NormalDistribution.__init__ (PyFloat 1)
                              (PyFloat 1)))]
  = Raise AssertionError.
Proof.
apply: convolve_asserts_central_value => //=.
rewrite orbF /py_eq /=; apply/eqP => h.
by have : (1 : R) <> 0 by lra.
Defined.

(** X21.  Delta members are ignored: in a list of two members or more,
    all normal or delta distributions around the same float central value
    and one of them normal, the result is the combination of the normal
    members alone, a new normal distribution whose standard deviation is
    the root of the sum NumPy takes of the squares of theirs, if that sum
    has a root.  When one of the standard deviations is a float the sum is
    the sum of the squares as real numbers, and the call returns. *)
Theorem convolve_ignores_deltas (p0 : object) (ps : seq object) :
  (0 < size ps)%N ->
  isinstance_float (central_value (self p0)) ->
  all (fun p => py_eq (central_value (self p)) (central_value (self p0)))
    (p0 :: ps) ->
  all (fun p => isinstance_Normal (self p) || isinstance_Delta (self p))
    (p0 :: ps) ->
  has (fun p => isinstance_Normal (self p)) (p0 :: ps) ->
  exists (g0 : object) (sigmas : seq number),
    [/\ getitem [seq p <- p0 :: ps | isinstance_Normal (self p)] 0 = Ok g0,
        mapM (fun p => standard_deviation (self p))
          [seq p <- p0 :: ps | isinstance_Normal (self p)] = Ok sigmas,
        convolve_distributions (p0 :: ps)
        = (sigma <-- math.sqrt (np.sum_of (np.square (np.array sigmas))) ;;
           Ok (new_object (p0 :: ps)
                 (Normal (NormalDistribution.__init__
                            (central_value (self g0)) (PyFloat sigma)))))
      & has isinstance_float sigmas ->
        convolve_distributions (p0 :: ps)
        = Ok (new_object (p0 :: ps)
                (Normal (NormalDistribution.__init__
                           (central_value (self g0))
                           (PyFloat
                              (sqrt (np.sum [seq real_of s ^ 2
                                            | s <- sigmas]))))))].
Proof.
move=> sz isf same nd hasN.
set gs := [seq p <- p0 :: ps | isinstance_Normal (self p)].
have szG : (0 < size gs)%N by rewrite size_filter -has_count.
have allN : all (fun p => isinstance_Normal (self p)) gs by apply: filter_all.
have sameG : all (fun p => py_eq (central_value (self p))
                             (central_value (self p0))) gs.
  by rewrite all_filter; apply: sub_all same => p /= ->; rewrite implybT.
have [g0 [sigmas [Hg0 Hs Hg]]] := convolve_gaussians_Ok szG allN sameG.
have E : convolve_distributions (p0 :: ps)
        = (sigma <-- math.sqrt (np.sum_of (np.square (np.array sigmas))) ;;
           Ok (new_object (p0 :: ps)
                 (Normal (NormalDistribution.__init__
                            (central_value (self g0)) (PyFloat sigma))))).
  rewrite /convolve_distributions size_gt1 //.
  rewrite [getitem _ 0]/getitem drop0 bind_ret isf same -/gs Hg.
  by case: (math.sqrt _) => // sigma; rewrite !bind_ret others_nil.
exists g0, sigmas; split=> // hasf.
by rewrite E math_sqrt_sum_of_squares.
Qed.

(** [convolve([Delta(2.0), Normal(2.0, 1.0)])] *)
Lemma convolve_ignores_deltas_witness :
  convolve_distributions
    [:: Object 1 (Delta (DeltaDistribution.__init__ (PyFloat 2)));
        Object 2 (Normal (NormalDistribution.__init__ (PyFloat 2)
                            (PyFloat 1)))]
  = Ok (Object 3 (Normal (NormalDistribution.__init__ (PyFloat 2)
                            (PyFloat (sqrt (1 ^ 2 + 0)))))).
Proof.
have same : all (fun p => py_eq (central_value (self p)) (PyFloat 2))
    [:: Object 1 (Delta (DeltaDistribution.__init__ (PyFloat 2)));
        Object 2 (Normal (NormalDistribution.__init__ (PyFloat 2)
                            (PyFloat 1)))].
  by rewrite /= !py_eq_refl.
have [g0 [sigmas [[<-] [<-] _ ->]]] :=
  @convolve_ignores_deltas
    (Object 1 (Delta (DeltaDistribution.__init__ (PyFloat 2))))
    [:: Object 2 (Normal (NormalDistribution.__init__ (PyFloat 2)
                            (PyFloat 1)))]
    isT isT same isT isT.
  by [].
by rewrite /new_object unlock.
Defined.

Lemma convolve_gaussians_inv (gs : seq object) (g : distribution) :
  _convolve_gaussians gs = Ok g ->
  exists (g0 : object) (sigma : R),
    [/\ getitem gs 0 = Ok g0, 0 <= sigma
      & g = Normal (NormalDistribution.__init__ (central_value (self g0))
                      (PyFloat sigma))].
Proof.
rewrite /_convolve_gaussians; case: ifP => // _.
bind_inv => -[g0 Hg0]; case: ifP => // _.
bind_inv => -[sigmas _]; bind_inv => -[sigma].
rewrite /math.sqrt; case: ifP => // _ [<-] [<-].
exists g0, (sqrt (np.sum_of (np.square (np.array sigmas)))); split=> //.
exact: sqrt_pos.
Qed.

Lemma convolve_numerical_inv (nds : seq distribution) (n : nat)
    (r : distribution) :
  _convolve_numerical nds n = Ok r ->
  exists (p0 : distribution) (d : NumericalDistribution.t) (x : seq R)
         (y : seq float64),
    [/\ getitem nds 0 = Ok p0,
        NumericalDistribution.__init__ x y (Some (central_value p0)) = Ok d
      & r = Numerical d].
Proof.
rewrite /_convolve_numerical; case: ifP => // _.
bind_inv => -[p0 Hp0]; case: ifP => // _.
case: (foldr np.minimum _ _) => [lo|?|] //.
case: (foldr np.maximum _ _) => [hi|?|] //.
bind_inv => -[[y|] _] //; bind_inv => -[d Hd] [<-].
by exists p0, d; eexists; exists y; split=> //; exact: Hd.
Qed.

Lemma id_le_bigmax (ps : seq object) :
  all (fun q => (id q <= \max_(p <- ps) id p)%N) ps.
Proof.
elim: ps => [|q ps IH] //=; rewrite big_cons leq_maxl /=.
by apply: sub_all IH => r h; rewrite leq_max h orbT.
Qed.

(** A new object is none of the objects of the list. *)
Lemma new_object_fresh (ps : seq object) (p : distribution) :
  ~~ mem_object (new_object ps p) ps.
Proof.
rewrite /mem_object -all_predC; apply: sub_all (id_le_bigmax ps) => q /= le.
by rewrite /__eq__ /= neq_ltn ltnS le orbT.
Qed.

Lemma in_support_Normal (c : number) (sigma : R) :
  0 <= sigma ->
  in_support (Normal (NormalDistribution.__init__ c (PyFloat sigma))).
Proof.
move=> s0; rewrite /in_support /= !fle_Fin.
by apply/andP; split; apply/RlebP; lra.
Qed.

(** X22.  Whenever a combination of two members or more returns, what it
    returns is a new object, none of the members; it is a normal or a
    numerical distribution; its central value equals that of the first
    member; and this central value lies in its support. *)
Theorem convolve_result (p0 : object) (ps : seq object) (r : object) :
  (0 < size ps)%N ->
  convolve_distributions (p0 :: ps) = Ok r ->
  [/\ ~~ mem_object r (p0 :: ps),
      isinstance_Normal (self r) || isinstance_Numerical (self r),
      py_eq (central_value (self r)) (central_value (self p0))
    & in_support (self r)].
Proof.
move=> sz; rewrite /convolve_distributions size_gt1 //.
rewrite [getitem _ 0]/getitem drop0 bind_ret.
case: ifP => // isf; case: ifP => // same.
bind_inv => -[g /convolve_gaussians_inv[g0 [sigma [Hg0 s0 ->]]]].
have g0c : py_eq (central_value (self g0)) (central_value (self p0)).
  have : all (fun p => py_eq (central_value (self p)) (central_value (self p0)))
           [seq p <- p0 :: ps | isinstance_Normal (self p)].
    by rewrite all_filter; apply: sub_all same => p /= ->; rewrite implybT.
  by case: (filter _ _) Hg0 => [|q qs] //= [->] /andP[].
set others := set_diff _ _.
have sameO : all (fun p => py_eq (central_value (self p))
                             (central_value (self p0))) others.
  by apply: all_set_diff; apply: all_set_diff; apply: all_set_of.
case: ifP => [_ [<-]|nonnil].
  split=> //; [exact: new_object_fresh|exact: in_support_Normal].
bind_inv => -[nums Hnums].
bind_inv => -[q /convolve_numerical_inv[n0 [d [x [y [Hn0 Hd ->]]]]]] [<-].
have [x0 [xl [_ _ Hsup [Hc Hin]]]] := NumericalDistribution_init_inv Hd.
split=> //; first exact: new_object_fresh.
  rewrite /= Hc.
  case: others nonnil sameO Hnums => [|o os] //= _ /andP[oc _] Hnums.
  rewrite (from_pd_central_value (mapM_head Hnums Hn0)).
  exact: oc.
rewrite /in_support /= Hsup Hc /= !fle_Fin.
by case: Hin => lo hi; apply/andP; split; apply/RlebP.
Qed.

(** [convolve([Delta(2.0), Normal(2.0, 1)])] *)
Lemma convolve_result_witness :
  exists r : object,
    convolve_distributions
      [:: Object 1 (Delta (DeltaDistribution.__init__ (PyFloat 2)));
          Object 2 (Normal (NormalDistribution.__init__ (PyFloat 2)
                              (PyFloat 1)))]
    = Ok r /\ in_support (self r).
Proof.
have E : convolve_distributions
      [:: Object 1 (Delta (DeltaDistribution.__init__ (PyFloat 2)));
          Object 2 (Normal (NormalDistribution.__init__ (PyFloat 2)
                              (PyFloat 1)))]
    = Ok (Object 3 (Normal (NormalDistribution.__init__ (PyFloat 2)
                              (PyFloat (sqrt (1 ^ 2 + 0)))))).
  rewrite /convolve_distributions /=.
  rewrite !py_eq_refl /= /_convolve_gaussians /= py_eq_refl /=.
  by rewrite (math_sqrt_sq [:: 1]) /= /new_object unlock.
eexists; split; first exact: E.
by have [_ _ _] := convolve_result (ps := [:: _]) isT E.
Defined.

Lemma np_sum_big (s : seq R) : np.sum s = (\sum_(v <- s) v)%R.
Proof.
by rewrite /np.sum; elim: s => [|v s IH] /=; rewrite ?big_nil ?big_cons ?IH.
Qed.

(** The sums NumPy takes do not depend on the order of the entries, wrapped
    around or not. *)
Lemma Zsum_perm (f : number -> Z) (s t : seq number) :
  perm_eq s t ->
  foldr Z.add 0%Z [seq f v | v <- s] = foldr Z.add 0%Z [seq f v | v <- t].
Proof.
move=> st; rewrite !foldrE !big_map.
pose add := Monoid.isComLaw.Build Z 0%Z Z.add Z.add_assoc Z.add_comm Z.add_0_l.
pose law : Monoid.com_law 0%Z := HB.pack Z.add add.
exact: (perm_big (op := law) _ st).
Qed.

Lemma sum_of_squares_perm (s t : seq number) :
  perm_eq s t ->
  np.sum_of (np.square (np.array s)) = np.sum_of (np.square (np.array t)).
Proof.
move=> st; rewrite /np.array.
have -> : nilp s = nilp t by rewrite /nilp (perm_size st).
rewrite (perm_all _ st) (perm_all fits_uint64 st).
case: ifP => // _; case: ifP => _ /=.
  by rewrite -!map_comp (Zsum_perm _ st).
case: ifP => _ /=; first by rewrite -!map_comp (Zsum_perm _ st).
by rewrite -!map_comp !np_sum_big !big_map (perm_big _ st).
Qed.



(** A square is at most the sum of the squares it is part of. *)
Lemma np_sum_sq_ge (s : seq R) (v : R) :
  v \in s -> v ^ 2 <= np.sum [seq w ^ 2 | w <- s].
Proof.
elim: s => [|w s IH] //; rewrite inE map_cons.
rewrite -[np.sum (_ :: _)]/(w ^ 2 + np.sum [seq u ^ 2 | u <- s]).
have := np_sum_sq_ge0 s; have := pow2_ge_0 w.
move=> w0 s0 /orP[/eqP ->|/IH le]; first by lra.
by lra.
Qed.

(** X24.  Combining never narrows normal distributions whose standard
    deviations are floats: the standard deviation of their combination is
    at least the absolute value of the standard deviation of each member.
    (Standard deviations that are Python ints are squared as [int64], and
    the combination of two of [2 ** 32] has the standard deviation [0].) *)
Theorem convolve_gaussians_widens (c : number) (ps : seq (nat * number))
    (d : NormalDistribution.t) :
  all (fun p => isinstance_float p.2) ps ->
  _convolve_gaussians [seq normal_object c p | p <- ps] = Ok (Normal d) ->
  forall p, p \in ps ->
    Rabs p.2 <= NormalDistribution.standard_deviation d.
Proof.
case: ps => [|p0 ps] // allf; rewrite convolve_gaussians_normal //.
have hasf : has isinstance_float [seq q.2 | q <- p0 :: ps].
  by move: allf; rewrite has_map /= => /andP[->].
rewrite math_sqrt_sum_of_squares // bind_ret => -[<-] p pin.
set s := p0 :: ps in pin *.
rewrite -[real_of (NormalDistribution.standard_deviation _)]/(sqrt
          (np.sum [seq real_of v ^ 2 | v <- [seq q.2 | q <- s]])).
have -> : [seq real_of v ^ 2 | v <- [seq q.2 | q <- s]]
          = [seq w ^ 2 | w <- [seq real_of q.2 | q <- s]].
  by rewrite -!map_comp.
rewrite -sqrt_Rsqr_abs; apply: sqrt_le_1; first exact: Rle_0_sqr.
  exact: np_sum_sq_ge0.
have -> : Rsqr (real_of p.2) = real_of p.2 ^ 2 by rewrite /Rsqr /=; lra.
apply: np_sum_sq_ge.
exact: (map_f (fun q : nat * number => real_of q.2) pin).
Qed.

(** [Normal(0.0, 3.0)] in the combination with [Normal(0.0, 4.0)]. *)
Lemma convolve_gaussians_widens_witness :
  Rabs 3 <= sqrt (np.sum [seq real_of v ^ 2 | v <- [:: PyFloat 3; PyFloat 4]]).
Proof.
pose ps : seq (nat * number) := [:: (1%N, PyFloat 3); (2%N, PyFloat 4)].
have E : _convolve_gaussians [seq normal_object (PyFloat 0) p | p <- ps]
         = Ok (Normal (NormalDistribution.__init__ (PyFloat 0)
                 (PyFloat (sqrt (np.sum [seq real_of v ^ 2
                                        | v <- [:: PyFloat 3; PyFloat 4]]))))).
  by rewrite convolve_gaussians_normal // math_sqrt_sum_of_squares.
apply: (@convolve_gaussians_widens (PyFloat 0) ps _ isT E (1%N, PyFloat 3)).
by rewrite inE eqxx.
Defined.

(** ** Construction of a multivariate normal distribution *)

(** X25.  The constructor of a multivariate normal distribution refuses,
    with an [AssertionError], every covariance matrix whose determinant is
    zero or negative: such a matrix has an eigenvalue that is not
    positive. *)
Theorem mvn_init_rejects (n : nat) (mu : 'rV[R]_n) (S : 'M[R]_n) :
  (\det S)%R <= 0 ->
  MultivariateNormalDistribution.__init__ mu S = Raise AssertionError.
Proof.
move=> det0; rewrite /MultivariateNormalDistribution.__init__.
case: excluded_middle_informative => // ev; have := det_gt0 ev.
by move: (\det S)%R det0 => t; rewrite -[t]/(t : R); move: (t : R) => t'; lra.
Qed.

(** The matrix [[1, 2], [2, 1]], of determinant [-3]. *)
Lemma mvn_init_rejects_witness :
  MultivariateNormalDistribution.__init__ (0 : 'rV[R]_2)%R indefinite2
  = Raise AssertionError.
Proof.
apply: mvn_init_rejects.
rewrite (expand_det_row _ ord0) !big_ord_recl big_ord0 /cofactor !det_mx11.
rewrite !mxE /= /bump /= !addn0 expr0 expr1.
rewrite /GRing.mul /GRing.add /GRing.opp /GRing.zero /GRing.one /=.
by lra.
Defined.

(** * Properties of the leptonic branching ratios *)

Lemma bll_bind_Return (A B : Type) (r : bll.fallible A)
    (f : A -> bll.fallible B) (b : B) :
  bll.bind r f = bll.Return b ->
  exists2 a, r = bll.Return a & f a = bll.Return b.
Proof. by case: r => [a|e] //= fa; exists a. Qed.

Lemma bll_bind_ret (A B : Type) (a : A) (f : A -> bll.fallible B) :
  bll.bind (bll.Return a) f = f a.
Proof. by []. Qed.

(** From [x <-- r ;; k = Return b] on top of the goal to [r = Return a] and
    [k a = Return b]. *)
Ltac bll_inv :=
  let E := fresh "E" in
  move=> E; move: (bll_bind_Return E) => {E}; cbv beta zeta.

Lemma truediv_Return (a b v : R) :
  bll.truediv a b = bll.Return v -> b <> 0 /\ v = a / b.
Proof. by rewrite /bll.truediv; case: eqP => // b0 [<-]. Qed.

Lemma truediv_Ok (a b : R) : b <> 0 -> bll.truediv a b = bll.Return (a / b).
Proof. by rewrite /bll.truediv => /eqP/negbTE ->. Qed.

Lemma sq_gt0 (x : R) : x <> 0 -> 0 < x ^ 2.
Proof. by move=> /Rsqr_pos_lt; rewrite /Rsqr /=; lra. Qed.

Lemma cabs_sq (a : bll.complex) :
  bll.cabs a ^ 2 = bll.real a ^ 2 + bll.imag a ^ 2.
Proof.
rewrite /bll.cabs pow2_sqrt //.
by have := pow2_ge_0 (bll.real a); have := pow2_ge_0 (bll.imag a); lra.
Qed.

(** X26.  The lifetime correction [(1 - y^2)/(1 + A y)] raises a
    [ZeroDivisionError] when [1 + A y] is zero; for [A = 1] and [y <> -1]
    it is [1 - y]; and it is [1] when the decay rate difference [y]
    vanishes. *)
Theorem br_lifetime_corr_values (y A : R) :
  [/\ 1 + A * y = 0 ->
      bll.br_lifetime_corr y A = bll.Throw (bll.Builtin ZeroDivisionError),
      y <> -1 -> bll.br_lifetime_corr y 1 = bll.Return (1 - y)
    & bll.br_lifetime_corr 0 A = bll.Return 1].
Proof.
rewrite /bll.br_lifetime_corr /bll.truediv; split.
- by move=> /eqP ->.
- move=> y1; have /eqP/negbTE -> : 1 + 1 * y <> 0 by lra.
  by congr bll.Return; field; lra.
- have /eqP/negbTE -> : 1 + A * 0 <> 0 by lra.
  by congr bll.Return; field; lra.
Qed.

Section Bll.

Import String.StringSyntax.
Local Open Scope string_scope.
Local Open Scope R_scope.

Variable meson_quark : bll.dict String.string.
Variable get_alpha : bll.dict R -> R -> bll.fallible (bll.dict R).
Variable xi :
  String.string -> String.string -> bll.dict R -> bll.fallible bll.complex.

Variables (par : bll.dict R) (wc : bll.dict bll.complex).
Variables (B lep : String.string).

(** [ADeltaGamma] in terms of the amplitudes. *)
Lemma ADeltaGamma_amplitudes (P S : bll.complex) :
  bll.amplitudes meson_quark par wc B lep = bll.Return (P, S) ->
  bll.ADeltaGamma meson_quark par wc B lep
  = bll.truediv
      (bll.real P ^ 2 - bll.imag P ^ 2 - (bll.real S ^ 2 - bll.imag S ^ 2))
      (bll.real P ^ 2 + bll.imag P ^ 2 + (bll.real S ^ 2 + bll.imag S ^ 2)).
Proof.
move=> HPS; rewrite /bll.ADeltaGamma HPS /bll.bind.
rewrite [(P, S).1]/= [(P, S).2]/= !cabs_sq.
by congr (bll.truediv (_ - _) _); rewrite /=; ring.
Qed.

(** X27.  Whenever [ADeltaGamma] returns, its value lies between [-1] and
    [1]. *)
Theorem ADeltaGamma_bounded (v : R) :
  bll.ADeltaGamma meson_quark par wc B lep = bll.Return v -> -1 <= v <= 1.
Proof.
rewrite /bll.ADeltaGamma; bll_inv => -[[P S] _] /truediv_Return[].
rewrite !cabs_sq /= => den ->.
move: (bll.real P) (bll.imag P) (bll.real S) (bll.imag S) den => a b c d den.
have den0 : 0 < a * (a * 1) + b * (b * 1) + (c * (c * 1) + d * (d * 1)).
  by have := pow2_ge_0 a; have := pow2_ge_0 b; have := pow2_ge_0 c;
     have := pow2_ge_0 d; rewrite /=; lra.
split.
  apply: (Rmult_le_reg_r _ _ _ den0).
  rewrite /Rdiv Rmult_assoc Rinv_l //.
  by have := pow2_ge_0 a; have := pow2_ge_0 d; rewrite /=; nra.
apply: (Rmult_le_reg_r _ _ _ den0).
rewrite /Rdiv Rmult_assoc Rinv_l //.
by have := pow2_ge_0 b; have := pow2_ge_0 c; rewrite /=; nra.
Qed.

(** X28.  With no scalar amplitude and a real pseudoscalar amplitude [P],
    [ADeltaGamma] is [1] when [P] is not zero, and raises a
    [ZeroDivisionError] when both amplitudes vanish. *)
Theorem ADeltaGamma_special (P S : bll.complex) :
  bll.amplitudes meson_quark par wc B lep = bll.Return (P, S) ->
  bll.real S = 0 -> bll.imag S = 0 -> bll.imag P = 0 ->
  (bll.real P <> 0 ->
   bll.ADeltaGamma meson_quark par wc B lep = bll.Return 1) /\
  (bll.real P = 0 ->
   bll.ADeltaGamma meson_quark par wc B lep
   = bll.Throw (bll.Builtin ZeroDivisionError)).
Proof.
move=> /ADeltaGamma_amplitudes -> reS imS imP; rewrite reS imS imP.
rewrite /bll.truediv; set den := (X in X == 0); split=> reP.
  have den0 : 0 < den.
    by rewrite /den; have := sq_gt0 reP; rewrite /=; lra.
  have /eqP/negbTE -> : den <> 0 by lra.
  by congr bll.Return; rewrite /den; field; move: den0; rewrite /den; lra.
have /eqP -> // : den = 0.
by rewrite /den reP /=; lra.
Qed.

(** X29.  [br_inst] returns a value only above the kinematic threshold:
    the mass of the meson is not zero and at least twice that of the
    lepton (else the division or [math.sqrt] raises); and with a
    non-negative mass and lifetime the branching ratio returned is not
    negative. *)
Theorem br_inst_threshold (ml mB tauB v : R) :
  bll.getitem par (String.append "m_" lep) = bll.Return ml ->
  bll.getitem par (String.append "m_" B) = bll.Return mB ->
  bll.getitem par (String.append "tau_" B) = bll.Return tauB ->
  bll.br_inst meson_quark get_alpha xi par wc B lep = bll.Return v ->
  [/\ mB <> 0, 4 * ml ^ 2 <= mB ^ 2 & 0 <= mB -> 0 <= tauB -> 0 <= v].
Proof.
move=> Hml HmB Htau; rewrite /bll.br_inst.
bll_inv => -[GF _]; bll_inv => -[alpha _]; bll_inv => -[alphaem _].
rewrite Hml HmB Htau !bll_bind_ret.
bll_inv => -[fB _]; bll_inv => -[xi_t _].
bll_inv => -[r /truediv_Return[mB2 ->]].
bll_inv => -[beta]; rewrite /math.sqrt; case: RltbP => // thr [<-].
bll_inv => -[[P S] _] [<-].
have mB0 : mB <> 0 by move=> h; apply: mB2; rewrite h /=; lra.
have mBsq : 0 < mB ^ 2 by apply: sq_gt0.
split=> //.
  apply: Rnot_lt_le => h; apply: thr.
  have : 1 < 4 * ml ^ 2 / mB ^ 2.
    apply: (Rmult_lt_reg_r (mB ^ 2)) => //.
    by rewrite /Rdiv Rmult_assoc Rinv_l; lra.
  by lra.
move=> mBge tauge.
have cabs0 z : 0 <= bll.cabs z by apply: sqrt_pos.
have f2 : 0 <= fB ^ 2 by apply: pow2_ge_0.
have pi0 : 0 <= / PI by apply/Rlt_le/Rinv_0_lt_compat/PI_RGT_0.
move: f2 (cabs0 P) (cabs0 S) (sqrt_pos (1 - 4 * ml ^ 2 / mB ^ 2)).
move: (cabs0 (bll.cdiv_float
                (bll.cscale alphaem
                   (bll.cdiv_float (bll.cscale GF (bll.cscale 4 xi_t))
                      (sqrt 2))) (4 * PI))).
rewrite /=; move: (bll.cabs _) (bll.cabs P) (bll.cabs S) (sqrt (1 - _)) (fB * _).
move=> a b c beta' F a0 F0 b0 c0 beta0; rewrite /Rdiv.
by repeat (apply: Rmult_le_pos || apply: Rplus_le_le_0_compat); lra.
Qed.

(** X30.  The time-integrated branching ratio is the prompt one times
    [(1 + A y)/(1 - y^2)], with [y] half the relative decay rate difference
    and [A] the value of [ADeltaGamma]; it is returned only when [y^2] is
    not [1]. *)
Theorem br_timeint_formula (dg v : R) :
  bll.getitem par (String.append "DeltaGamma/Gamma_" B) = bll.Return dg ->
  bll.br_timeint meson_quark get_alpha xi par wc B lep = bll.Return v ->
  exists br0 A : R,
    [/\ bll.br_inst meson_quark get_alpha xi par wc B lep = bll.Return br0,
        bll.ADeltaGamma meson_quark par wc B lep = bll.Return A,
        (dg / 2) ^ 2 <> 1
      & v = br0 * (1 + A * (dg / 2)) / (1 - (dg / 2) ^ 2)].
Proof.
move=> Hdg; rewrite /bll.br_timeint.
bll_inv => -[br0 Hbr0]; rewrite Hdg bll_bind_ret.
bll_inv => -[A HA]; bll_inv => -[corr /truediv_Return[den ->]].
move=> /truediv_Return[num ->].
exists br0, A; split=> //.
  move=> h; apply: num.
  have -> : 1 - (dg / 2) ^ 2 = 0 by lra.
  by rewrite /Rdiv Rmult_0_l.
have nz : 1 - (dg / 2) ^ 2 <> 0.
  by move=> h; apply: num; rewrite h /Rdiv Rmult_0_l.
by field; split=> //; move: nz; rewrite /=; lra.
Qed.

End Bll.

(** The example: [Bs -> mu mu] with [C10 = 1] and no other coefficient. *)

Section BllExample.

Import String.StringSyntax.
Local Open Scope string_scope.
Local Open Scope R_scope.

Lemma example_amplitudes :
  exists P S : bll.complex,
    [/\ bll.amplitudes bll.example_meson_quark bll.example_par bll.example_wc
          "Bs" "mu" = bll.Return (P, S),
        bll.real P = 1 / 2, bll.imag P = 0, bll.real S = 0 & bll.imag S = 0].
Proof.
have h4 : 4 <> 0 by lra.
rewrite /bll.amplitudes /= (truediv_Ok _ h4).
by eexists; eexists; split; first reflexivity; rewrite /=; lra.
Qed.

Lemma example_ADeltaGamma :
  bll.ADeltaGamma bll.example_meson_quark bll.example_par bll.example_wc
    "Bs" "mu" = bll.Return 1.
Proof.
have [P [S [HPS reP imP reS imS]]] := example_amplitudes.
rewrite (ADeltaGamma_amplitudes HPS) reP imP reS imS.
have h : (1 / 2) ^ 2 + 0 ^ 2 + (0 ^ 2 + 0 ^ 2) <> 0 by lra.
by rewrite (truediv_Ok _ h); congr bll.Return; field.
Qed.

Lemma example_br_inst :
  exists br0 : R,
    bll.br_inst bll.example_meson_quark bll.example_get_alpha bll.example_xi
      bll.example_par bll.example_wc "Bs" "mu" = bll.Return br0.
Proof.
have [P [S [HPS _ _ _ _]]] := example_amplitudes.
rewrite /bll.br_inst; rewrite [bll.getitem _ "GF"]/= bll_bind_ret.
rewrite /bll.example_get_alpha bll_bind_ret [bll.getitem _ "alpha_e"]/=.
rewrite bll_bind_ret [bll.getitem _ _]/= bll_bind_ret.
rewrite [bll.getitem _ _]/= bll_bind_ret [bll.getitem _ _]/= bll_bind_ret.
rewrite [bll.getitem _ _]/= bll_bind_ret [String.eqb _ _]/=.
rewrite /bll.example_xi bll_bind_ret.
have h : 4 ^ 2 <> 0 by lra.
rewrite (truediv_Ok _ h) bll_bind_ret /math.sqrt.
have /RltbP/negbTE -> : ~ 1 - 4 * 1 ^ 2 / 4 ^ 2 < 0 by lra.
by rewrite [bll.lift _]/= bll_bind_ret HPS bll_bind_ret; eexists.
Qed.

Lemma ADeltaGamma_bounded_witness :
  bll.ADeltaGamma bll.example_meson_quark bll.example_par bll.example_wc
    "Bs" "mu" = bll.Return 1 /\ -1 <= 1 <= 1.
Proof.
split; first exact: example_ADeltaGamma.
exact: (ADeltaGamma_bounded example_ADeltaGamma).
Defined.

Lemma ADeltaGamma_special_witness :
  bll.ADeltaGamma bll.example_meson_quark bll.example_par bll.example_wc
    "Bs" "mu" = bll.Return 1.
Proof.
have [P [S [HPS reP imP reS imS]]] := example_amplitudes.
apply: (proj1 (ADeltaGamma_special HPS reS imS imP)).
by rewrite reP; lra.
Defined.

Lemma br_inst_threshold_witness :
  exists v : R,
    bll.br_inst bll.example_meson_quark bll.example_get_alpha bll.example_xi
      bll.example_par bll.example_wc "Bs" "mu" = bll.Return v /\ 0 <= v.
Proof.
have [v Hv] := example_br_inst; exists v; split=> //.
have [_ _ pos] :=
  @br_inst_threshold bll.example_meson_quark bll.example_get_alpha
    bll.example_xi bll.example_par bll.example_wc "Bs" "mu" 1 4 1 v
    erefl erefl erefl Hv.
by apply: pos; lra.
Defined.

Lemma br_timeint_formula_witness :
  exists v br0 : R,
    bll.br_timeint bll.example_meson_quark bll.example_get_alpha
      bll.example_xi bll.example_par bll.example_wc "Bs" "mu" = bll.Return v /\
    v = br0 * (1 + 1 * (1 / 2)) / (1 - (1 / 2) ^ 2).
Proof.
have [br0 Hbr0] := example_br_inst.
have E : bll.br_timeint bll.example_meson_quark bll.example_get_alpha
      bll.example_xi bll.example_par bll.example_wc "Bs" "mu"
    = bll.Return (br0 / ((1 - (1 / 2) ^ 2) / (1 + 1 * (1 / 2)))).
  rewrite /bll.br_timeint Hbr0 bll_bind_ret [bll.getitem _ _]/= bll_bind_ret.
  rewrite example_ADeltaGamma bll_bind_ret /bll.br_lifetime_corr.
  have h1 : 1 + 1 * (1 / 2) <> 0 by lra.
  rewrite (truediv_Ok _ h1) bll_bind_ret.
  have h2 : (1 - (1 / 2) ^ 2) / (1 + 1 * (1 / 2)) <> 0.
    have -> : (1 - (1 / 2) ^ 2) / (1 + 1 * (1 / 2)) = 1 / 2 by field.
    by lra.
  by rewrite (truediv_Ok _ h2).
have [br0' [A [Hbr0' HA _ Hv]]] :=
  @br_timeint_formula bll.example_meson_quark bll.example_get_alpha
    bll.example_xi bll.example_par bll.example_wc "Bs" "mu" 1 _ erefl E.
move: HA Hv; rewrite example_ADeltaGamma => -[<-] Hv.
by eexists; exists br0'; split; [exact: E|exact: Hv].
Defined.

End BllExample.
